(** * The Aven FAQ semantic-search engine: a shallow embedding

    This development embeds the ranking core of [faq_search_demo.py]
    (class [FAQSearchEngine]) and the batch embedder of [embed_aven_faq.py]
    and [embed_aven_faq_enhanced.py] (function [create_embeddings]), and
    proves properties of them.

    Python floats are IEEE binary64 numbers; they are modelled by Rocq's
    primitive floats.  Exceptions are values of [Py.exn] carried by
    [Py.result].  Standard output, standard input and the requests sent to
    the embedding provider are fields of an explicit [world].  NumPy's index
    sort, whose order of equal keys is not specified, is a parameter of the
    program: the theorems assume that it sorts, and nothing else. *)

From Stdlib Require Import List ZArith Lia Bool String Ascii Floats Permutation.
From Stdlib Require Import DecimalString DecimalNat FinFun.
Import ListNotations.

Set Implicit Arguments.

(** ** The Python runtime: exceptions, slices, ranges, strings *)

Module Py.

(** The exceptions the embedded code can meet.  [KeyboardInterrupt] derives
    from [BaseException] only; every other one derives from [Exception].
    The other exceptions outside [Exception] ([SystemExit], [GeneratorExit])
    are not modelled, and [print] is taken not to fail: the statements about
    the interactive loop are about the events listed here. *)
Inductive exn : Type :=
| KeyError (key : string)
| IndexError
| ValueError
| FileNotFoundError
| JSONDecodeError
| EOFError
| KeyboardInterrupt
| APIError (what : string).

Definition is_Exception (e : exn) : bool :=
  match e with
  | KeyboardInterrupt => false
  | _ => true
  end.

Inductive result (A : Type) : Type :=
| Ok (a : A)
| Raise (e : exn).
Arguments Ok {A} a.
Arguments Raise {A} e.

Definition rbind {A B} (r : result A) (k : A -> result B) : result B :=
  match r with
  | Ok a => k a
  | Raise e => Raise e
  end.

(** A list comprehension [[f x for x in xs]] whose body may raise: the
    elements are evaluated left to right and the first exception aborts. *)
Fixpoint comprehension {A B} (f : A -> result B) (xs : list A) : result (list B) :=
  match xs with
  | [] => Ok []
  | x :: rest =>
      rbind (f x) (fun y =>
      rbind (comprehension f rest) (fun ys => Ok (y :: ys)))
  end.

(** [xs[idx]] for a non-negative index. *)
Definition getitem {A} (xs : list A) (idx : nat) : result A :=
  match nth_error xs idx with
  | Some x => Ok x
  | None => Raise IndexError
  end.

(** [xs[:k]]: a negative [k] counts from the end of the sequence. *)
Definition slice_to {A} (k : Z) (xs : list A) : list A :=
  if (k <? 0)%Z
  then firstn (Z.to_nat (Z.max 0 (Z.of_nat (List.length xs) + k))) xs
  else firstn (Z.to_nat k) xs.

(** [xs[i:j]] for non-negative [i <= j]. *)
Definition slice {A} (i j : nat) (xs : list A) : list A :=
  firstn (j - i) (skipn i xs).

(** [range(start, stop, step)] for a positive step. *)
Definition range (start stop step : nat) : list nat :=
  map (fun k => start + k * step) (seq 0 ((stop - start + step - 1) / step)).

(** [str.isspace] on the code points below 256. *)
Definition isspace (c : ascii) : bool :=
  let n := nat_of_ascii c in
  ((9 <=? n) && (n <=? 13)) || ((28 <=? n) && (n <=? 32))
  || (n =? 133) || (n =? 160).

Fixpoint lstrip (s : string) : string :=
  match s with
  | EmptyString => EmptyString
  | String c rest => if isspace c then lstrip rest else s
  end.

Fixpoint rstrip (s : string) : string :=
  match s with
  | EmptyString => EmptyString
  | String c rest =>
      match rstrip rest with
      | EmptyString => if isspace c then EmptyString else String c EmptyString
      | kept => String c kept
      end
  end.

(** [s.strip()]: leading and trailing whitespace removed. *)
Definition strip (s : string) : string := rstrip (lstrip s).

(** [str.lower] on the code points below 256: the ASCII capitals and the
    Latin-1 capitals (U+00C0 to U+00DE, the sign U+00D7 apart). *)
Definition lower_char (c : ascii) : ascii :=
  let n := nat_of_ascii c in
  if ((65 <=? n) && (n <=? 90))
     || ((192 <=? n) && (n <=? 222) && negb (n =? 215))
  then ascii_of_nat (n + 32)
  else c.

Fixpoint lower (s : string) : string :=
  match s with
  | EmptyString => EmptyString
  | String c rest => String (lower_char c) (lower rest)
  end.

(** [x in xs] for a list of strings. *)
Definition str_in (x : string) (xs : list string) : bool :=
  existsb (String.eqb x) xs.

End Py.

Import Py.

(** ** NumPy: the order on floats and what is specified of [np.argsort] *)

Module Np.

Open Scope float_scope.

(** The order NumPy sorts floats by: [a < b], with NaN after every number. *)
Definition less (a b : float) : bool :=
  (a <? b) || (is_nan b && negb (is_nan a)).

(** [v[k]] inside the sort; the indices are always in range. *)
Definition key (v : list float) (k : nat) : float := nth k v 0.

(** The indices are in an order that sorts [v]: no index comes before an
    index with a smaller key. *)
Definition ascending (v : list float) : list nat -> Prop :=
  ForallOrdPairs (fun a b => less (key v b) (key v a) = false).

(** What is specified of [np.argsort(v)] with the default kind: it returns
    the indices [0 .. len(v) - 1], each once, in an order that sorts [v].
    The default kind is not stable: the order of two indices whose keys are
    equal is not specified, and NumPy's implementations (the portable
    introsort, the vectorised sorting networks) do not agree on it.  The
    program takes the index sort as a parameter [argsort], and the theorems
    assume [sorts argsort] and nothing else of it. *)
Definition sorts (argsort : list float -> list nat) : Prop :=
  forall v, Permutation (argsort v) (seq 0 (List.length v)) /\ ascending v (argsort v).

(** Two index sorts that meet this specification.  The examples are
    computed with the first one, the second one shows what else the
    specification allows.

    One pass of an insertion sort of indices: the sorted prefix is held
    last element first, and the new index [vi] moves towards the front of
    the array while its key is less than its left neighbour's.  This is the
    insertion pass that NumPy's portable index sort runs on an array of at
    most 17 elements. *)
Fixpoint insert_index (v : list float) (vi : nat) (sorted_rev : list nat) : list nat :=
  match sorted_rev with
  | [] => [vi]
  | vk :: rest =>
      if less (key v vi) (key v vk)
      then vk :: insert_index v vi rest
      else vi :: sorted_rev
  end.

(** The sorted index array, last element first. *)
Definition argsort_rev (v : list float) : list nat :=
  fold_left (fun sorted_rev vi => insert_index v vi sorted_rev) (seq 0 (List.length v)) [].

(** The insertion sort of the indices: equal keys keep their index order. *)
Definition stable_argsort (v : list float) : list nat := rev (argsort_rev v).

(** The same pass, in which the new index also moves past the indices
    whose key is equal to its own. *)
Fixpoint insert_index_past_ties (v : list float) (vi : nat) (sorted_rev : list nat)
    : list nat :=
  match sorted_rev with
  | [] => [vi]
  | vk :: rest =>
      if negb (less (key v vk) (key v vi))
      then vk :: insert_index_past_ties v vi rest
      else vi :: sorted_rev
  end.

(** An index sort that leaves equal keys in decreasing index order. *)
Definition reversing_argsort (v : list float) : list nat :=
  rev (fold_left (fun sorted_rev vi => insert_index_past_ties v vi sorted_rev)
         (seq 0 (List.length v)) []).

End Np.

(** ** scikit-learn: [cosine_similarity] of two single-row matrices

    The sums of [row_norms] and of the matrix product are accumulated from
    the positive zero, left to right, in binary64.  A numerical library may
    group the terms differently; the statements below are about sums whose
    terms are all zeros, or about concrete rows on which every grouping
    gives the same number. *)

Module Sk.

Open Scope float_scope.

(** The machine epsilon of binary64. *)
Definition eps : float := 0x1p-52.

(** [check_array]: at least one feature and only finite entries. *)
Definition check_array (x : list float) : bool :=
  negb (Nat.eqb (List.length x) 0) && forallb is_finite x.

(** [row_norms]: the Euclidean norm of the row. *)
Definition row_norm (x : list float) : float :=
  sqrt (fold_left (fun acc xi => acc + xi * xi) x 0).

(** [_handle_zeros_in_scale]: a norm that is zero (or below ten machine
    epsilons) is replaced by one, so that no row is divided by zero. *)
Definition handle_zeros_in_scale (scale : float) : float :=
  if scale <? 10 * eps then 1 else scale.

Definition normalize (x : list float) : list float :=
  let norm := handle_zeros_in_scale (row_norm x) in
  map (fun xi => xi / norm) x.

Definition dot (a b : list float) : float :=
  fold_left (fun acc ab => acc + fst ab * snd ab) (combine a b) 0.

(** [cosine_similarity([x], [y])[0][0]]: both rows are validated, then
    normalised, then multiplied.  Every validation failure is a
    [ValueError]. *)
Definition cosine_similarity (x y : list float) : result float :=
  if negb (check_array x) then Raise ValueError
  else if negb (check_array y) then Raise ValueError
  else if negb (Nat.eqb (List.length x) (List.length y)) then Raise ValueError
  else Ok (dot (normalize x) (normalize y)).

End Sk.

(** ** The search engine of [faq_search_demo.py] *)

Record FAQSearchEngine : Type := mkEngine {
  vectors_file : string;
  vectors : list (list float);
  questions : list string;
  answers : list string;
  sections : list string
}.

(** One entry of the list [search] returns.  The source renders
    [similarity_percentage] with one decimal and a percent sign; the model
    keeps the number that is rendered. *)
Record search_result : Type := mkResult {
  rank : nat;
  question : string;
  answer : string;
  section : string;
  similarity_score : float;
  similarity_percentage : float
}.

(** The loop of [search] that fills [similarities]. *)
Definition similarities_of (query_embedding : list float)
    (vs : list (list float)) : result (list float) :=
  comprehension (fun vector => Sk.cosine_similarity query_embedding vector) vs.

Section Ranking.

(** [np.argsort], of which [Np.sorts] is assumed. *)
Variable argsort : list float -> list nat.

(** [np.argsort(similarities)[::-1][:top_k]]. *)
Definition top_indices (similarities : list float) (top_k : Z) : list nat :=
  slice_to top_k (rev (argsort similarities)).

(** The loop of [search] that builds [results]. *)
Fixpoint build_results (self : FAQSearchEngine) (similarities : list float)
    (indices : list nat) (results : list search_result)
    : result (list search_result) :=
  match indices with
  | [] => Ok results
  | idx :: rest =>
      rbind (getitem (questions self) idx) (fun q =>
      rbind (getitem (answers self) idx) (fun a =>
      rbind (getitem (sections self) idx) (fun s =>
      rbind (getitem similarities idx) (fun sim =>
      build_results self similarities rest
        (results ++ [ {| rank := List.length results + 1;
                         question := q;
                         answer := a;
                         section := s;
                         similarity_score := sim;
                         similarity_percentage := (sim * 100)%float |} ])))))
  end.

(** Lines 90 to 110 of [search]: everything after the query is embedded. *)
Definition rank_vectors (self : FAQSearchEngine) (query_embedding : list float)
    (top_k : Z) : result (list search_result) :=
  rbind (similarities_of query_embedding (vectors self)) (fun similarities =>
  build_results self similarities (top_indices similarities top_k) []).

End Ranking.


(** ** The world the program runs in *)

(** What [input()] meets on standard input: a line, or an interrupt from the
    keyboard.  An exhausted input is the end of the file. *)
Inductive stdin_event : Type :=
| Line (text : string)
| CtrlC.

(** What the program prints, one constructor per message of the source. *)
Inductive out_event : Type :=
| LoadedVectors (count : nat)
| VectorsFileNotFound (file : string)
| ErrorLoadingVectors (e : exn)
| ErrorEmbeddingQuery (e : exn)
| Banner
| Prompt
| Goodbye
| SearchingFor (query : string)
| ResultBlock (r : search_result)
| NoResultsFound
| BlankLine
| ErrorTryAgain (e : exn)
| ProcessingQuestions (count total_batches : nat)
| EmbeddedBatch (batch_num total_batches : nat)
| EmbeddedBatchOf (batch_num total_batches size : nat)
| ErrorEmbeddingBatch (batch_num : nat) (e : exn).

(** A request to the embedding provider: the model and the input texts. *)
Definition request : Type := (string * list string)%type.

Record world : Type := mkWorld {
  stdin : list stdin_event;
  stdout : list out_event;
  requests : list request
}.

(** Computations that read and write the world and may raise. *)
Definition M (A : Type) : Type := world -> result A * world.

Definition ret {A} (a : A) : M A := fun w => (Ok a, w).

Definition raise {A} (e : exn) : M A := fun w => (Raise e, w).

Definition bind {A B} (m : M A) (k : A -> M B) : M B :=
  fun w =>
    match m w with
    | (Ok a, w') => k a w'
    | (Raise e, w') => (Raise e, w')
    end.

Definition lift {A} (r : result A) : M A := fun w => (r, w).

Declare Scope py_scope.
Delimit Scope py_scope with py.
Notation "x <- m ;; k" := (bind m (fun x => k))
  (at level 61, m at next level, right associativity) : py_scope.
Notation "m ;;; k" := (bind m (fun _ => k))
  (at level 61, right associativity) : py_scope.
Open Scope py_scope.

(** [try: body except Exception as e: handler e]: exceptions outside
    [Exception] pass through. *)
Definition try_except_Exception {A} (body : M A) (handler : exn -> M A) : M A :=
  fun w =>
    match body w with
    | (Raise e, w') => if is_Exception e then handler e w' else (Raise e, w')
    | done => done
    end.

Definition print (o : out_event) : M unit :=
  fun w => (Ok tt, mkWorld (stdin w) (stdout w ++ [o]) (requests w)).

(** [input(prompt)]: the prompt is written, then one event is consumed. *)
Definition input : M string :=
  fun w =>
    let shown := stdout w ++ [Prompt] in
    match stdin w with
    | [] => (Raise EOFError, mkWorld [] shown (requests w))
    | Line text :: rest => (Ok text, mkWorld rest shown (requests w))
    | CtrlC :: rest => (Raise KeyboardInterrupt, mkWorld rest shown (requests w))
    end.

(** One entry of the vectors file; a key that the JSON object lacks is
    [None]. *)
Record metadata_json : Type := mkMetadata {
  m_question : option string;
  m_answer : option string;
  m_section : option string
}.

Record item_json : Type := mkItem {
  item_values : option (list float);
  item_metadata : option metadata_json
}.

(** [d[key]] on a JSON object. *)
Definition lookup {A} (key : string) (field : option A) : result A :=
  match field with
  | Some a => Ok a
  | None => Raise (KeyError key)
  end.

Definition metadata_field (key : string) (proj : metadata_json -> option string)
    (item : item_json) : result string :=
  rbind (lookup "metadata" (item_metadata item)) (fun md => lookup key (proj md)).

Section Program.

(** [np.argsort], of which [Np.sorts] is assumed. *)
Variable argsort : list float -> list nat.

(** The files of the machine: what [open] followed by [json.load] gives. *)
Variable read_json : string -> result (list item_json).

(** The embedding provider: the answer to a request may depend on how many
    requests came before it.  The answer is [response.data], one embedding
    per element. *)
Variable embeddings_create : nat -> string -> list string -> result (list (list float)).

Definition client_embeddings_create (model : string) (texts : list string)
    : M (list (list float)) :=
  fun w =>
    (embeddings_create (List.length (requests w)) model texts,
     mkWorld (stdin w) (stdout w) (requests w ++ [(model, texts)])).

(** [load_vectors]: the four attributes are assigned one after the other,
    so an exception leaves the assignments made before it in place. *)
Definition load_vectors (self : FAQSearchEngine) (w : world)
    : result unit * FAQSearchEngine * world :=
  let failed (e : exn) (self' : FAQSearchEngine) :=
    let message :=
      match e with
      | FileNotFoundError => VectorsFileNotFound (vectors_file self)
      | _ => ErrorLoadingVectors e
      end in
    if is_Exception e
    then (Raise e, self', snd (print message w))
    else (Raise e, self', w) in
  match read_json (vectors_file self) with
  | Raise e => failed e self
  | Ok data =>
  match comprehension (fun item => lookup "values" (item_values item)) data with
  | Raise e => failed e self
  | Ok vs =>
  let self1 := mkEngine (vectors_file self) vs (questions self) (answers self) (sections self) in
  match comprehension (metadata_field "question" m_question) data with
  | Raise e => failed e self1
  | Ok qs =>
  let self2 := mkEngine (vectors_file self) vs qs (answers self) (sections self) in
  match comprehension (metadata_field "answer" m_answer) data with
  | Raise e => failed e self2
  | Ok ans =>
  let self3 := mkEngine (vectors_file self) vs qs ans (sections self) in
  match comprehension (metadata_field "section" m_section) data with
  | Raise e => failed e self3
  | Ok secs =>
  let self4 := mkEngine (vectors_file self) vs qs ans secs in
  (Ok tt, self4, snd (print (LoadedVectors (List.length vs)) w))
  end end end end end.

(** [__init__]: the attributes start empty, the API key is required, then
    the vectors are loaded.  An exception leaves the caller without an
    engine. *)
Definition init (vectors_file : string) (api_key : option string) (w : world)
    : result FAQSearchEngine * world :=
  let self := mkEngine vectors_file [] [] [] [] in
  match api_key with
  | None | Some EmptyString => (Raise ValueError, w)
  | Some _ =>
      match load_vectors self w with
      | (Ok _, self', w') => (Ok self', w')
      | (Raise e, _, w') => (Raise e, w')
      end
  end.

Definition embed_query (query : string) : M (list float) :=
  try_except_Exception
    (data <- client_embeddings_create "text-embedding-3-small" [query] ;;
     lift (getitem data 0))
    (fun e => print (ErrorEmbeddingQuery e) ;;; raise e).

Definition search (self : FAQSearchEngine) (query : string) (top_k : Z)
    : M (list search_result) :=
  query_embedding <- embed_query query ;;
  lift (rank_vectors argsort self query_embedding top_k).

(** ** The interactive loop *)

Inductive control : Type := Continue | Break.

Fixpoint print_results (results : list search_result) : M unit :=
  match results with
  | [] => ret tt
  | r :: rest => print (ResultBlock r) ;;; print_results rest
  end.

(** The statements inside [try] of one turn of [while True]. *)
Definition loop_try (self : FAQSearchEngine) : M control :=
  line <- input ;;
  let query := strip line in
  if str_in (lower query) ["quit"; "exit"; "q"]%string
  then print Goodbye ;;; ret Break
  else if String.eqb query ""
  then ret Continue
  else
    print (SearchingFor query) ;;;
    results <- search self query 3 ;;
    match results with
    | [] => print NoResultsFound
    | _ => print_results results
    end ;;;
    print BlankLine ;;;
    ret Continue.

(** One turn of [while True], with its two handlers. *)
Definition loop_body (self : FAQSearchEngine) : M control :=
  fun w =>
    match loop_try self w with
    | (Raise KeyboardInterrupt, w') => (print Goodbye ;;; ret Break) w'
    | (Raise e, w') =>
        if is_Exception e
        then (print (ErrorTryAgain e) ;;; ret Continue) w'
        else (Raise e, w')
    | done => done
    end.

(** [while True]: at most [fuel] turns; [None] when they are used up
    before the loop is left. *)
Fixpoint while_True (fuel : nat) (self : FAQSearchEngine) (w : world)
    : option (result unit * world) :=
  match fuel with
  | 0 => None
  | S fuel' =>
      match loop_body self w with
      | (Ok Break, w') => Some (Ok tt, w')
      | (Ok Continue, w') => while_True fuel' self w'
      | (Raise e, w') => Some (Raise e, w')
      end
  end.

Definition interactive_search (fuel : nat) (self : FAQSearchEngine) (w : world)
    : option (result unit * world) :=
  while_True fuel self (snd (print Banner w)).

(** ** Batch embedding: [create_embeddings] of the two embedding scripts *)

Definition batch_size : nat := 100.

(** [[0.0] * 1536]: the vector that stands for a text of a failed batch. *)
Definition zero_embedding : list float := repeat 0%float 1536.

(** The body of the [for] loop of [embed_aven_faq.py]: the embeddings the
    batch adds to the list. *)
Definition embed_batch (questions_count : nat) (model : string) (i : nat)
    (batch : list string) : M (list (list float)) :=
  try_except_Exception
    (data <- client_embeddings_create model batch ;;
     print (EmbeddedBatch (i / batch_size + 1)
              ((questions_count + batch_size - 1) / batch_size)) ;;;
     ret data)
    (fun e =>
       print (ErrorEmbeddingBatch (i / batch_size + 1) e) ;;;
       ret (repeat zero_embedding (List.length batch))).

(** The same body in [embed_aven_faq_enhanced.py]; only the message of a
    successful batch differs. *)
Definition embed_batch_enhanced (questions_count : nat) (model : string) (i : nat)
    (batch : list string) : M (list (list float)) :=
  let total_batches := (questions_count + batch_size - 1) / batch_size in
  let batch_num := i / batch_size + 1 in
  try_except_Exception
    (data <- client_embeddings_create model batch ;;
     print (EmbeddedBatchOf batch_num total_batches (List.length batch)) ;;;
     ret data)
    (fun e =>
       print (ErrorEmbeddingBatch batch_num e) ;;;
       ret (repeat zero_embedding (List.length batch))).

(** [for i in range(0, len(questions), batch_size)], with the list
    [embeddings] built so far. *)
Fixpoint for_batches (body : nat -> list string -> M (list (list float)))
    (questions : list string) (starts : list nat)
    (embeddings : list (list float)) : M (list (list float)) :=
  match starts with
  | [] => ret embeddings
  | i :: rest =>
      added <- body i (slice i (i + batch_size) questions) ;;
      for_batches body questions rest (embeddings ++ added)
  end.

(** [create_embeddings] of [embed_aven_faq.py]. *)
Definition create_embeddings (questions : list string) (model : string)
    : M (list (list float)) :=
  for_batches (embed_batch (List.length questions) model) questions
    (range 0 (List.length questions) batch_size) [].

(** [create_embeddings] of [embed_aven_faq_enhanced.py]. *)
Definition create_embeddings_enhanced (questions : list string) (model : string)
    : M (list (list float)) :=
  print (ProcessingQuestions (List.length questions)
           ((List.length questions + batch_size - 1) / batch_size)) ;;;
  for_batches (embed_batch_enhanced (List.length questions) model) questions
    (range 0 (List.length questions) batch_size) [].

End Program.

(** ** The vectors the embedding scripts write *)

(** One entry of the FAQ file; a key that the JSON object lacks is [None]. *)
Record faq_json : Type := mkFaq {
  faq_section : option string;
  faq_question : option string;
  faq_answer : option string;
  faq_source_url : option string
}.

(** The metadata of a vector and the vector itself, as JSON objects: a key
    that the object lacks is [None]. *)
Record vector_metadata_json : Type := mkVectorMetadata {
  md_section : option string;
  md_question : option string;
  md_answer : option string;
  md_source_url : option string;
  md_type : option string;
  md_company : option string;
  md_embedding_model : option string
}.

Record vector_json : Type := mkVector {
  vec_id : option string;
  vec_values : option (list float);
  vec_metadata : option vector_metadata_json
}.

(** [s.zfill(width)] for a string of digits. *)
Definition zfill (width : nat) (s : string) : string :=
  (string_of_list_ascii (repeat "0"%char (width - String.length s)) ++ s)%string.

(** The format [{i:04d}]: the decimal digits of [i], padded with zeros on
    the left to four characters. *)
Definition format_04d (i : nat) : string :=
  zfill 4 (NilEmpty.string_of_uint (Nat.to_uint i)).

(** [f"{id_prefix}_{i:04d}"]. *)
Definition vector_id (id_prefix : string) (i : nat) : string :=
  (id_prefix ++ "_" ++ format_04d i)%string.

(** The dictionary built in the loop of [create_pinecone_vectors]; the
    script [embed_aven_faq_enhanced.py] adds the key [embedding_model]. *)
Definition pinecone_vector (id_prefix : string) (embedding_model : option string)
    (i : nat) (faq_entry : faq_json) (embedding : list float) : result vector_json :=
  rbind (lookup "section" (faq_section faq_entry)) (fun sec =>
  rbind (lookup "question" (faq_question faq_entry)) (fun q =>
  rbind (lookup "answer" (faq_answer faq_entry)) (fun a =>
  rbind (lookup "source_url" (faq_source_url faq_entry)) (fun url =>
  Ok {| vec_id := Some (vector_id id_prefix i);
        vec_values := Some embedding;
        vec_metadata :=
          Some {| md_section := Some sec;
                  md_question := Some q;
                  md_answer := Some a;
                  md_source_url := Some url;
                  md_type := Some "faq"%string;
                  md_company := Some "aven"%string;
                  md_embedding_model := embedding_model |} |})))).

(** [for i, (faq_entry, embedding) in enumerate(zip(faq_data, embeddings))],
    from the index [i], with the list [vectors] built so far. *)
Fixpoint for_entries (id_prefix : string) (embedding_model : option string)
    (i : nat) (pairs : list (faq_json * list float)) (vectors : list vector_json)
    : result (list vector_json) :=
  match pairs with
  | [] => Ok vectors
  | (faq_entry, embedding) :: rest =>
      rbind (pinecone_vector id_prefix embedding_model i faq_entry embedding)
        (fun vector =>
           for_entries id_prefix embedding_model (S i) rest (vectors ++ [vector]))
  end.

(** [create_pinecone_vectors] of [embed_aven_faq.py]. *)
Definition create_pinecone_vectors (faq_data : list faq_json)
    (embeddings : list (list float)) : result (list vector_json) :=
  for_entries "aven_faq" None 0 (combine faq_data embeddings) [].

(** [create_pinecone_vectors] of [embed_aven_faq_enhanced.py]. *)
Definition create_pinecone_vectors_enhanced (faq_data : list faq_json)
    (embeddings : list (list float)) (id_prefix : string) : result (list vector_json) :=
  for_entries id_prefix (Some "text-embedding-3-small"%string) 0
    (combine faq_data embeddings) [].

(** What [validate_vectors] prints; every path of the function prints one
    message. *)
Inductive validation_message : Type :=
| NoVectorsToValidate
| MissingField (i : nat) (field : string)
| MissingMetadataField (i : nat) (field : string)
| IncorrectDimensions (i : nat) (dimensions : nat)
| ValidatedVectors (count : nat).

(** The checks of [validate_vectors] on the vector number [i]: the message
    of the first check that fails, if one does. *)
Definition validate_vector (i : nat) (vector : vector_json) : option validation_message :=
  match vec_id vector with
  | None => Some (MissingField i "id")
  | Some _ =>
  match vec_values vector with
  | None => Some (MissingField i "values")
  | Some values =>
  match vec_metadata vector with
  | None => Some (MissingField i "metadata")
  | Some md =>
  match md_section md with
  | None => Some (MissingMetadataField i "section")
  | Some _ =>
  match md_question md with
  | None => Some (MissingMetadataField i "question")
  | Some _ =>
  match md_answer md with
  | None => Some (MissingMetadataField i "answer")
  | Some _ =>
  match md_source_url md with
  | None => Some (MissingMetadataField i "source_url")
  | Some _ =>
      if Nat.eqb (List.length values) 1536
      then None
      else Some (IncorrectDimensions i (List.length values))
  end end end end end end end.

(** [for i, vector in enumerate(vectors)], from the index [i]. *)
Fixpoint validate_from (i : nat) (vectors : list vector_json) : option validation_message :=
  match vectors with
  | [] => None
  | vector :: rest =>
      match validate_vector i vector with
      | Some message => Some message
      | None => validate_from (S i) rest
      end
  end.

(** [validate_vectors] of [embed_aven_faq_enhanced.py]: the value returned
    and the message printed. *)
Definition validate_vectors (vectors : list vector_json) : bool * validation_message :=
  match vectors with
  | [] => (false, NoVectorsToValidate)
  | _ =>
      match validate_from 0 vectors with
      | Some message => (false, message)
      | None => (true, ValidatedVectors (List.length vectors))
      end
  end.

(** ** The main functions of the three scripts *)

(** How [main] of [faq_search_demo.py] returns: after the session, or
    after its handler printed the failure of the start and its hints. *)
Inductive main_report : Type :=
| SessionEnded
| FailedToInitialize (e : exn).

(** What the embedding scripts print, one constructor per message; the
    messages of [create_embeddings] and of [validate_vectors] are carried
    over. *)
Inductive script_event : Type :=
| Shown (o : out_event)
| Validation (message : validation_message)
| ApiKeyNotSet
| LoadingFaqData
| LoadingFaqDataFrom (file : string)
| LoadedFaqEntries (count : nat) (file : string)
| FaqFileNotFound (file : string)
| FaqInvalidJson (file : string)
| UnsupportedFormat
| ParserSaid (text : string)
| NoFaqDataLoaded
| NoFaqDataLoadedFrom (files : list string)
| ExtractedQuestions (count : nat)
| SampleQuestionsHeader
| SampleQuestion (number : nat) (text : string)
| MoreQuestions (count : nat)
| CreatingEmbeddings
| EmbeddingCountMismatch (embeddings questions : nat)
| CreatingVectors
| ValidationFailed
| SavingVectors (count : nat) (file : string)
| SavedVectors (file : string)
| ErrorSavingVectors (e : exn)
| Summary (entries questions vectors dimensions : nat)
| SampleHeader
| SampleId (id : string)
| SampleSection (text : string)
| SampleQuestionText (text : string)
| SampleDimensions (dimensions : nat)
| SampleMetadataFields (keys : list string)
| ReadyToUpload (file : string)
| UpsertHint.

(** What happens to the files the scripts write: [open(file, 'w')] and
    [json.dump] either complete, or fail and leave the file in a state the
    model does not describe. *)
Inductive disk_event : Type :=
| Wrote (file : string) (vectors : list vector_json)
| WriteFailed (file : string).

(** The world of an embedding script: what it printed, the requests sent
    to the provider, and the writes to the disk. *)
Record script_world : Type := mkScript {
  console : list script_event;
  sent : list request;
  disk : list disk_event
}.

Definition Script (A : Type) : Type := script_world -> result A * script_world.

Definition sret {A} (a : A) : Script A := fun s => (Ok a, s).

Definition sbind {A B} (m : Script A) (k : A -> Script B) : Script B :=
  fun s =>
    match m s with
    | (Ok a, s') => k a s'
    | (Raise e, s') => (Raise e, s')
    end.

Definition slift {A} (r : result A) : Script A := fun s => (r, s).

Declare Scope script_scope.
Delimit Scope script_scope with script.
Notation "x <~ m ;; k" := (sbind m (fun x => k))
  (at level 61, m at next level, right associativity) : script_scope.
Notation "m ;;~ k" := (sbind m (fun _ => k))
  (at level 61, right associativity) : script_scope.

Definition say (o : script_event) : Script unit :=
  fun s => (Ok tt, mkScript (console s ++ [o]) (sent s) (disk s)).

Fixpoint say_all (os : list script_event) : Script unit :=
  match os with
  | [] => sret tt
  | o :: rest => sbind (say o) (fun _ => say_all rest)
  end.

(** A call of [create_embeddings] from a script: its requests join those
    of the script, and what it prints joins the console. *)
Definition embedder {A} (m : M A) : Script A :=
  fun s =>
    let '(r, w') := m (mkWorld [] [] (sent s)) in
    (r, mkScript (console s ++ map Shown (stdout w')) (requests w') (disk s)).

(** [s.endswith(suffix)]. *)
Definition endswith (s suffix : string) : bool :=
  (String.length suffix <=? String.length s)
  && String.eqb
       (substring (String.length s - String.length suffix) (String.length suffix) s)
       suffix.

(** The list of the keys of the metadata of a vector, in insertion order. *)
Definition metadata_keys (md : vector_metadata_json) : list string :=
  let key (name : string) (field : option string) :=
    match field with
    | Some _ => [name]
    | None => []
    end in
  key "section"%string (md_section md) ++ key "question"%string (md_question md)
  ++ key "answer"%string (md_answer md) ++ key "source_url"%string (md_source_url md)
  ++ key "type"%string (md_type md) ++ key "company"%string (md_company md)
  ++ key "embedding_model"%string (md_embedding_model md).

Section Mains.

Open Scope script_scope.

(** [np.argsort], of which [Np.sorts] is assumed. *)
Variable argsort : list float -> list nat.

(** The vectors file of the search engine. *)
Variable read_json : string -> result (list item_json).

(** The FAQ files: [os.path.exists], [open] followed by [json.load], and
    [parse_faq_from_text], which is not embedded: it returns the entries it
    parsed and what it printed, and never raises an [Exception]. *)
Variable path_exists : string -> bool.
Variable read_faq_json : string -> result (list faq_json).
Variable parse_faq_from_text : string -> list faq_json * list script_event.

(** [open(output_file, 'w')] followed by [json.dump]. *)
Variable write_vectors_json : string -> list vector_json -> result unit.

Variable embeddings_create : nat -> string -> list string -> result (list (list float)).

(** [main] of [faq_search_demo.py]; the engine is built with the default
    vectors file. *)
Definition main_search_demo (api_key : option string) (fuel : nat) (w : world)
    : option (result main_report * world) :=
  let handle (e : exn) (w' : world) :=
    if is_Exception e
    then Some (Ok (FailedToInitialize e), w')
    else Some (Raise e, w') in
  match init read_json "aven_faq_vectors.json" api_key w with
  | (Raise e, w') => handle e w'
  | (Ok search_engine, w') =>
      match interactive_search argsort embeddings_create fuel search_engine w' with
      | None => None
      | Some (Ok _, w'') => Some (Ok SessionEnded, w'')
      | Some (Raise e, w'') => handle e w''
      end
  end.

(** [load_faq_data] of [embed_aven_faq.py]. *)
Definition load_faq_data (file_path : string) : Script (list faq_json) :=
  match read_faq_json file_path with
  | Ok data => say (LoadedFaqEntries (List.length data) file_path) ;;~ sret data
  | Raise FileNotFoundError => say (FaqFileNotFound file_path) ;;~ sret []
  | Raise JSONDecodeError => say (FaqInvalidJson file_path) ;;~ sret []
  | Raise e => slift (Raise e)
  end.

(** [load_faq_data] of [embed_aven_faq_enhanced.py]. *)
Definition load_faq_data_enhanced (file_path : string) : Script (list faq_json) :=
  if endswith file_path ".json"
  then load_faq_data file_path
  else if endswith file_path ".txt"
  then
    let '(data, printed) := parse_faq_from_text file_path in
    say_all printed ;;~ sret data
  else say UnsupportedFormat ;;~ sret [].

(** [with open(output_file, 'w') ...: json.dump(vectors, ...)] inside its
    [try]: [True] when the file is written. *)
Definition save_vectors (output_file : string) (vectors : list vector_json)
    : Script bool :=
  fun s =>
    match write_vectors_json output_file vectors with
    | Ok _ =>
        (Ok true,
         mkScript (console s ++ [SavedVectors output_file]) (sent s)
           (disk s ++ [Wrote output_file vectors]))
    | Raise e =>
        if is_Exception e
        then (Ok false,
              mkScript (console s ++ [ErrorSavingVectors e]) (sent s)
                (disk s ++ [WriteFailed output_file]))
        else (Raise e, mkScript (console s) (sent s) (disk s ++ [WriteFailed output_file]))
    end.

(** [len(embeddings[0]) if embeddings else 0]. *)
Definition first_dimensions (embeddings : list (list float)) : nat :=
  match embeddings with
  | [] => 0
  | first :: _ => List.length first
  end.

(** The lines that show the first vector, the last of them only in the
    enhanced script. *)
Definition show_sample (enhanced : bool) (vectors : list vector_json) : Script unit :=
  match vectors with
  | [] => sret tt
  | sample :: _ =>
      say SampleHeader ;;~
      id <~ slift (lookup "id" (vec_id sample)) ;;
      say (SampleId id) ;;~
      md <~ slift (lookup "metadata" (vec_metadata sample)) ;;
      sec <~ slift (lookup "section" (md_section md)) ;;
      say (SampleSection sec) ;;~
      q <~ slift (lookup "question" (md_question md)) ;;
      say (SampleQuestionText (substring 0 50 q)) ;;~
      values <~ slift (lookup "values" (vec_values sample)) ;;
      say (SampleDimensions (List.length values)) ;;~
      if enhanced then say (SampleMetadataFields (metadata_keys md)) else sret tt
  end.

(** [main] of [embed_aven_faq.py]. *)
Definition main_embed (api_key : option string) : Script unit :=
  let faq_file := "aven_support_faq_correct.json"%string in
  let output_file := "aven_faq_vectors.json"%string in
  match api_key with
  | None | Some EmptyString => say ApiKeyNotSet
  | Some _ =>
      say LoadingFaqData ;;~
      faq_data <~ load_faq_data faq_file ;;
      match faq_data with
      | [] => say NoFaqDataLoaded
      | _ =>
          questions <~ slift (comprehension
                                (fun entry => lookup "question" (faq_question entry))
                                faq_data) ;;
          say (ExtractedQuestions (List.length questions)) ;;~
          say CreatingEmbeddings ;;~
          embeddings <~ embedder (create_embeddings embeddings_create questions
                                    "text-embedding-3-small") ;;
          if negb (Nat.eqb (List.length embeddings) (List.length questions))
          then say (EmbeddingCountMismatch (List.length embeddings)
                      (List.length questions))
          else
            say CreatingVectors ;;~
            vectors <~ slift (create_pinecone_vectors faq_data embeddings) ;;
            say (SavingVectors (List.length vectors) output_file) ;;~
            saved <~ save_vectors output_file vectors ;;
            if saved
            then
              say (Summary (List.length faq_data) (List.length questions)
                     (List.length vectors) (first_dimensions embeddings)) ;;~
              show_sample false vectors ;;~
              say (ReadyToUpload output_file)
            else sret tt
      end
  end.

(** The loop of the enhanced [main] over the candidate files, with the
    value of [faq_data] so far. *)
Fixpoint try_faq_files (faq_files : list string) (faq_data : list faq_json)
    : Script (list faq_json) :=
  match faq_files with
  | [] => sret faq_data
  | file_path :: rest =>
      if path_exists file_path
      then
        say (LoadingFaqDataFrom file_path) ;;~
        loaded <~ load_faq_data_enhanced file_path ;;
        match loaded with
        | [] => try_faq_files rest loaded
        | _ => sret loaded
        end
      else try_faq_files rest faq_data
  end.

(** [for i, question in enumerate(questions[:3])], from the index [i]. *)
Fixpoint show_questions (i : nat) (questions : list string) : Script unit :=
  match questions with
  | [] => sret tt
  | question :: rest =>
      say (SampleQuestion (i + 1) (substring 0 60 question)) ;;~
      show_questions (S i) rest
  end.

(** [main] of [embed_aven_faq_enhanced.py]. *)
Definition main_embed_enhanced (api_key : option string) : Script unit :=
  let faq_files :=
    ["aven_support_faq_correct.json"; "aven_support_faq_correct.txt"]%string in
  let output_file := "aven_faq_vectors.json"%string in
  match api_key with
  | None | Some EmptyString => say ApiKeyNotSet
  | Some _ =>
      faq_data <~ try_faq_files faq_files [] ;;
      match faq_data with
      | [] => say (NoFaqDataLoadedFrom faq_files)
      | _ =>
          questions <~ slift (comprehension
                                (fun entry => lookup "question" (faq_question entry))
                                faq_data) ;;
          say (ExtractedQuestions (List.length questions)) ;;~
          say SampleQuestionsHeader ;;~
          show_questions 0 (firstn 3 questions) ;;~
          (if 3 <? List.length questions
           then say (MoreQuestions (List.length questions - 3))
           else sret tt) ;;~
          say CreatingEmbeddings ;;~
          embeddings <~ embedder (create_embeddings_enhanced embeddings_create questions
                                    "text-embedding-3-small") ;;
          if negb (Nat.eqb (List.length embeddings) (List.length questions))
          then say (EmbeddingCountMismatch (List.length embeddings)
                      (List.length questions))
          else
            say CreatingVectors ;;~
            vectors <~ slift (create_pinecone_vectors_enhanced faq_data embeddings
                                "aven_faq") ;;
            let '(valid, message) := validate_vectors vectors in
            say (Validation message) ;;~
            if negb valid
            then say ValidationFailed
            else
              say (SavingVectors (List.length vectors) output_file) ;;~
              saved <~ save_vectors output_file vectors ;;
              if saved
              then
                say (Summary (List.length faq_data) (List.length questions)
                       (List.length vectors) (first_dimensions embeddings)) ;;~
                show_sample true vectors ;;~
                say (ReadyToUpload output_file) ;;~
                say UpsertHint
              else sret tt
      end
  end.

End Mains.

(** * The vocabulary of the statements *)

(** ** Orders and zeros of binary64 *)

(** A key whose lexicographic order is NumPy's order on floats: the class
    (minus infinity, negative, zero, positive, plus infinity, NaN), then the
    exponent and the mantissa, negated for negative numbers. *)
Definition sort_key (f : spec_float) : Z * Z * Z :=
  match f with
  | S754_zero _ => (0, 0, 0)
  | S754_infinity true => (-2, 0, 0)
  | S754_infinity false => (2, 0, 0)
  | S754_nan => (3, 0, 0)
  | S754_finite true m e => (-1, - e, - Z.pos m)
  | S754_finite false m e => (1, e, Z.pos m)
  end%Z.

Definition lex_lt (a b : Z * Z * Z) : Prop :=
  let '(a1, a2, a3) := a in
  let '(b1, b2, b3) := b in
  (a1 < b1 \/ (a1 = b1 /\ (a2 < b2 \/ (a2 = b2 /\ a3 < b3))))%Z.

Definition sorts_before (a b : float) : Prop :=
  lex_lt (sort_key (Prim2SF a)) (sort_key (Prim2SF b)).

(** [a] is one of the two zeros. *)
Definition is_zero (a : float) : Prop := exists s, Prim2SF a = S754_zero s.

(** [a] is the positive zero. *)
Definition is_pos_zero (a : float) : Prop := Prim2SF a = S754_zero false.

(** The number is a zero, positive and finite, or plus infinity. *)
Definition not_negative (f : spec_float) : Prop :=
  match f with
  | S754_zero _ | S754_infinity false | S754_finite false _ _ => True
  | _ => False
  end.

(** The number is finite and its exponent is at most 485, so that its square
    can still be finite; a finite number of larger exponent has an infinite
    square. *)
Definition below_overflow (f : spec_float) : Prop :=
  match f with
  | S754_zero _ => True
  | S754_finite _ _ e => (e <= 485)%Z
  | _ => False
  end.

(** ** The order of a ranking *)

(** The indices are in an order in which no index comes before an index
    with a larger key: the order of [np.argsort(v)[::-1]]. *)
Definition descending (v : list float) : list nat -> Prop :=
  ForallOrdPairs (fun a b => Np.less (Np.key v a) (Np.key v b) = false).

(** ** Ranking *)

(** The three lists of metadata are as long as the list of vectors. *)
Definition aligned (self : FAQSearchEngine) : Prop :=
  List.length (questions self) = List.length (vectors self) /\
  List.length (answers self) = List.length (vectors self) /\
  List.length (sections self) = List.length (vectors self).

(** The stored vector passes the validation of [cosine_similarity] against
    the query: both are non-empty and finite, and their lengths agree. *)
Definition compatible (q v : list float) : bool :=
  Sk.check_array q && Sk.check_array v && Nat.eqb (List.length q) (List.length v).

(** The value [cosine_similarity] computes for validated rows. *)
Definition score (q v : list float) : float :=
  Sk.dot (Sk.normalize q) (Sk.normalize v).

(** The entry of the result list at position [pos] for the record [idx]. *)
Definition result_at (self : FAQSearchEngine) (sims : list float) (pos idx : nat)
    : search_result :=
  {| rank := pos + 1;
     question := nth idx (questions self) EmptyString;
     answer := nth idx (answers self) EmptyString;
     section := nth idx (sections self) EmptyString;
     similarity_score := nth idx sims 0%float;
     similarity_percentage := (nth idx sims 0 * 100)%float |}.

Fixpoint results_from (self : FAQSearchEngine) (sims : list float) (pos : nat)
    (idxs : list nat) : list search_result :=
  match idxs with
  | [] => []
  | idx :: rest => result_at self sims pos idx :: results_from self sims (S pos) rest
  end.

(** The store of the worked example: R0 and R2 hold the same embedding. *)
Definition example_store : FAQSearchEngine :=
  mkEngine "aven_faq_vectors.json"
    [[1; 0]; [0; 1]; [1; 0]]%float
    ["R0"; "R1"; "R2"]%string
    ["A0"; "A1"; "A2"]%string
    ["S0"; "S1"; "S2"]%string.

(** A store whose only record has an embedding with an underflowing square:
    the norm computed for it is zero. *)
Definition tiny_store : FAQSearchEngine :=
  mkEngine "aven_faq_vectors.json" [[0x1p-600]%float] ["R0"%string] ["A0"%string]
    ["S0"%string].

(** Every entry of the row compares equal to zero. *)
Definition all_zero (x : list float) : bool :=
  forallb (fun xi => PrimFloat.eqb xi 0) x.



(** ** Batch embedding *)

(** The batches [create_embeddings] cuts the questions into. *)
Definition batches (questions : list string) : list (list string) :=
  map (fun i => slice i (i + batch_size) questions)
      (range 0 (List.length questions) batch_size).

(** What one batch adds to [embeddings], when it is the request number [c]. *)
Definition batch_output
    (embeddings_create : nat -> string -> list string -> result (list (list float)))
    (model : string) (c : nat) (batch : list string) : list (list float) :=
  match embeddings_create c model batch with
  | Ok data => data
  | Raise _ => repeat zero_embedding (List.length batch)
  end.

(** What the batches add, the first of them being the request number [c]. *)
Fixpoint batch_outputs
    (embeddings_create : nat -> string -> list string -> result (list (list float)))
    (model : string) (c : nat) (bs : list (list string)) : list (list (list float)) :=
  match bs with
  | [] => []
  | b :: rest =>
      batch_output embeddings_create model c b
      :: batch_outputs embeddings_create model (S c) rest
  end.

(** What is printed for the batches: [succeeded k b] for a batch that is
    embedded, the error message for a batch that fails. *)
Fixpoint batch_log
    (embeddings_create : nat -> string -> list string -> result (list (list float)))
    (model : string) (succeeded : nat -> list string -> out_event)
    (c k : nat) (bs : list (list string)) : list out_event :=
  match bs with
  | [] => []
  | b :: rest =>
      match embeddings_create c model b with
      | Ok _ => succeeded k b
      | Raise e => ErrorEmbeddingBatch (k + 1) e
      end :: batch_log embeddings_create model succeeded (S c) (S k) rest
  end.

(** The number of batches that fail. *)
Fixpoint failed_batches
    (embeddings_create : nat -> string -> list string -> result (list (list float)))
    (model : string) (c : nat) (bs : list (list string)) : nat :=
  match bs with
  | [] => 0
  | b :: rest =>
      match embeddings_create c model b with
      | Ok _ => 0
      | Raise _ => 1
      end + failed_batches embeddings_create model (S c) rest
  end.

Definition is_batch_error (o : out_event) : bool :=
  match o with
  | ErrorEmbeddingBatch _ _ => true
  | _ => false
  end.

(** What the two loop bodies have in common: one request, one message, and
    the embeddings of the batch or as many zero vectors. *)
Definition batch_step
    (embeddings_create : nat -> string -> list string -> result (list (list float)))
    (model : string) (succeeded : nat -> list string -> out_event)
    (body : nat -> list string -> M (list (list float))) : Prop :=
  forall k batch w,
    body (k * batch_size) batch w
    = (Ok (batch_output embeddings_create model (List.length (requests w)) batch),
       mkWorld (stdin w)
         (stdout w ++
          [match embeddings_create (List.length (requests w)) model batch with
           | Ok _ => succeeded k batch
           | Raise e => ErrorEmbeddingBatch (k + 1) e
           end])
         (requests w ++ [(model, batch)])).

(** ** Providers, snapshots and inputs of the examples *)

(** A provider whose first answer is a failure and which embeds every text
    as [[1, 0]] afterwards. *)
Definition flaky_provider (k : nat) (model : string) (texts : list string)
    : result (list (list float)) :=
  if Nat.eqb k 0
  then Raise (APIError "rate limit")
  else Ok (map (fun _ => [1; 0]%float) texts).

Definition fresh_world : world := mkWorld [] [] [].

(** The provider that answers where [embeddings_create] fails, with one
    vector of 1536 zeros per text. *)
Definition zero_answering
    (embeddings_create : nat -> string -> list string -> result (list (list float)))
    (k : nat) (model : string) (texts : list string) : result (list (list float)) :=
  match embeddings_create k model texts with
  | Ok data => Ok data
  | Raise _ => Ok (repeat zero_embedding (List.length texts))
  end.

(** A hundred and one questions: two batches. *)
Definition many_questions : list string := repeat "q"%string 101.

(** A provider that embeds every text as [[1, 0]]. *)
Definition constant_provider (k : nat) (model : string) (texts : list string)
    : result (list (list float)) :=
  Ok (map (fun _ => [1; 0]%float) texts).

(** The entry has every key that [load_vectors] reads. *)
Definition complete (item : item_json) : bool :=
  match item_values item, item_metadata item with
  | Some _, Some md =>
      match m_question md, m_answer md, m_section md with
      | Some _, Some _, Some _ => true
      | _, _, _ => false
      end
  | _, _ => false
  end.

Definition values_of (item : item_json) : list float :=
  match item_values item with
  | Some vs => vs
  | None => []
  end.

Definition field_of (proj : metadata_json -> option string) (item : item_json) : string :=
  match item_metadata item with
  | Some md => match proj md with Some s => s | None => EmptyString end
  | None => EmptyString
  end.

(** A snapshot whose two embeddings have different lengths. *)
Definition ragged_snapshot : list item_json :=
  [ mkItem (Some [1; 0]%float)
      (Some (mkMetadata (Some "Q0"%string) (Some "A0"%string) (Some "S0"%string)));
    mkItem (Some [1]%float)
      (Some (mkMetadata (Some "Q1"%string) (Some "A1"%string) (Some "S1"%string))) ].

(** A snapshot whose second entry has no embedding. *)
Definition holed_snapshot : list item_json :=
  [ mkItem (Some [1; 0]%float)
      (Some (mkMetadata (Some "Q0"%string) (Some "A0"%string) (Some "S0"%string)));
    mkItem None
      (Some (mkMetadata (Some "Q1"%string) (Some "A1"%string) (Some "S1"%string))) ].

Definition new_engine (file : string) : FAQSearchEngine := mkEngine file [] [] [] [].

Definition sentinels : list string := ["quit"; "exit"; "q"]%string.

(** An input of two lines: a blank one (a tab between spaces), then a
    sentinel in mixed case with spaces around it. *)
Definition blank_line : string := String " " (String (ascii_of_nat 9) (String " " EmptyString)).

Definition two_lines : world := mkWorld [Line blank_line; Line "  QuIt "] [] [].

(** ** The interactive session *)

(** The input event ends the session: an interrupt, or a line that is a
    sentinel once stripped and lower-cased. *)
Definition ends_session (ev : stdin_event) : bool :=
  match ev with
  | CtrlC => true
  | Line text => str_in (lower (strip text)) sentinels
  end.

(** What a turn prints for the list a successful search returns. *)
Definition shown_results (results : list search_result) : list out_event :=
  match results with
  | [] => [NoResultsFound]
  | _ => map ResultBlock results
  end.

(** ** The loader *)

(** The entry has the key [values]. *)
Definition has_values (item : item_json) : bool :=
  match item_values item with
  | Some _ => true
  | None => false
  end.

(** The entry has no [metadata], or its metadata has no [question]. *)
Definition lacks_question (item : item_json) : bool :=
  match item_metadata item with
  | None => true
  | Some md =>
      match m_question md with
      | None => true
      | Some _ => false
      end
  end.

(** A snapshot of one entry that has an embedding and no metadata. *)
Definition bare_snapshot : list item_json := [ mkItem (Some [0; 1]%float) None ].

(** ** The vectors of the embedding scripts *)

(** The FAQ entry has the four keys that [create_pinecone_vectors] reads. *)
Definition faq_complete (entry : faq_json) : bool :=
  match faq_section entry, faq_question entry, faq_answer entry, faq_source_url entry with
  | Some _, Some _, Some _, Some _ => true
  | _, _, _, _ => false
  end.

Definition text_of (field : option string) : string :=
  match field with
  | Some s => s
  | None => EmptyString
  end.

(** The vector written for the entry number [i] when the entry is complete. *)
Definition expected_vector (id_prefix : string) (embedding_model : option string)
    (i : nat) (entry : faq_json) (embedding : list float) : vector_json :=
  {| vec_id := Some (vector_id id_prefix i);
     vec_values := Some embedding;
     vec_metadata :=
       Some {| md_section := Some (text_of (faq_section entry));
               md_question := Some (text_of (faq_question entry));
               md_answer := Some (text_of (faq_answer entry));
               md_source_url := Some (text_of (faq_source_url entry));
               md_type := Some "faq"%string;
               md_company := Some "aven"%string;
               md_embedding_model := embedding_model |} |}.

Fixpoint expected_vectors (id_prefix : string) (embedding_model : option string)
    (i : nat) (pairs : list (faq_json * list float)) : list vector_json :=
  match pairs with
  | [] => []
  | (entry, embedding) :: rest =>
      expected_vector id_prefix embedding_model i entry embedding
      :: expected_vectors id_prefix embedding_model (S i) rest
  end.

(** Reading back the digits of an identifier. *)
Definition decode_04d (s : string) : option nat :=
  option_map Nat.of_uint (NilEmpty.uint_of_string s).

(** The vector has every key and 1536 values: what [validate_vectors]
    requires of each vector. *)
Definition vector_ok (vector : vector_json) : bool :=
  match vec_id vector, vec_values vector, vec_metadata vector with
  | Some _, Some values, Some md =>
      match md_section md, md_question md, md_answer md, md_source_url md with
      | Some _, Some _, Some _, Some _ => Nat.eqb (List.length values) 1536
      | _, _, _, _ => false
      end
  | _, _, _ => false
  end.

(** The index a failure message of [validate_vectors] names. *)
Definition message_index (message : validation_message) : option nat :=
  match message with
  | MissingField i _ | MissingMetadataField i _ | IncorrectDimensions i _ => Some i
  | NoVectorsToValidate | ValidatedVectors _ => None
  end.

(** The JSON object of a vector as [load_vectors] reads it: the keys
    [values] and [metadata], and under [metadata] the keys [question],
    [answer] and [section]. *)
Definition item_of_vector (vector : vector_json) : item_json :=
  {| item_values := vec_values vector;
     item_metadata :=
       option_map
         (fun md => mkMetadata (md_question md) (md_answer md) (md_section md))
         (vec_metadata vector) |}.

(** Two complete FAQ entries and one without [answer]. *)
Definition faq_refunds : faq_json :=
  mkFaq (Some "Payments"%string) (Some "How do refunds work?"%string)
    (Some "Refunds take five days."%string) (Some "https://www.aven.com/support"%string).

Definition faq_limits : faq_json :=
  mkFaq (Some "Card"%string) (Some "What is my limit?"%string)
    (Some "See the app."%string) (Some "https://www.aven.com/support"%string).

Definition faq_unanswered : faq_json :=
  mkFaq (Some "Card"%string) (Some "Is there a fee?"%string) None
    (Some "https://www.aven.com/support"%string).

Definition ones_embedding : list float := repeat 1%float 1536.

(** A provider whose first answer is a failure and which embeds every text
    as a vector of 1536 ones afterwards. *)
Definition wide_flaky_provider (k : nat) (model : string) (texts : list string)
    : result (list (list float)) :=
  if Nat.eqb k 0
  then Raise (APIError "rate limit")
  else Ok (map (fun _ => ones_embedding) texts).

(** A provider that is interrupted from the keyboard during every request. *)
Definition interrupted_provider (k : nat) (model : string) (texts : list string)
    : result (list (list float)) :=
  Raise KeyboardInterrupt.

(** ** The embedding scripts *)

(** The step of a script leaves the disk and the requests as they are. *)
Definition quiet {A} (m : Script A) : Prop :=
  forall s, disk (snd (m s)) = disk s /\ sent (snd (m s)) = sent s.

(** The FAQ entry has the key [question]. *)
Definition has_question (entry : faq_json) : bool :=
  match faq_question entry with
  | Some _ => true
  | None => false
  end.

(** The world of a script that has not run yet. *)
Definition fresh_script : script_world := mkScript [] [] [].

(** What the attempt to write [vectors] to [file] leaves on the disk. *)
Definition write_event (write_vectors_json : string -> list vector_json -> result unit)
    (file : string) (vectors : list vector_json) : disk_event :=
  match write_vectors_json file vectors with
  | Ok _ => Wrote file vectors
  | Raise _ => WriteFailed file
  end.

(** The step of a script leaves the disk as it is. *)
Definition keeps_disk {A} (m : Script A) : Prop :=
  forall s, disk (snd (m s)) = disk s.

(** The step of a script touches the disk at most once, to write to
    [file] a list of vectors that satisfies [P]. *)
Definition writes_at_most
    (write_vectors_json : string -> list vector_json -> result unit)
    (file : string) (P : list vector_json -> Prop) {A} (m : Script A) : Prop :=
  forall s,
    disk (snd (m s)) = disk s
    \/ exists vectors,
         P vectors
         /\ disk (snd (m s)) = disk s ++ [write_event write_vectors_json file vectors].

(** The questions of the entries, and what [create_embeddings] returns
    for them when [c] requests were sent before. *)
Definition questions_of (faq_data : list faq_json) : list string :=
  map (fun entry => text_of (faq_question entry)) faq_data.

Definition embeddings_of
    (embeddings_create : nat -> string -> list string -> result (list (list float)))
    (c : nat) (faq_data : list faq_json) : list (list float) :=
  List.concat (batch_outputs embeddings_create "text-embedding-3-small" c
                 (batches (questions_of faq_data))).

(** The step [m], run from [s], returns [r] and leaves the requests [snt]
    and the disk [dsk]. *)
Definition yields {A} (m : Script A) (s : script_world) (r : result A)
    (snt : list request) (dsk : list disk_event) : Prop :=
  fst (m s) = r /\ sent (snd (m s)) = snt /\ disk (snd (m s)) = dsk.

(** A machine for the examples: every path exists, the FAQ file holds two
    complete entries (or one complete entry and one without answer), the
    text parser finds nothing and the disk accepts every write. *)
Definition every_path (file_path : string) : bool := true.

Definition faq_file (file_path : string) : result (list faq_json) :=
  Ok [faq_refunds; faq_limits].

Definition holed_faq_file (file_path : string) : result (list faq_json) :=
  Ok [faq_refunds; faq_unanswered].

Definition empty_parser (file_path : string) : list faq_json * list script_event :=
  ([], []).

Definition accepting_disk (file : string) (vectors : list vector_json) : result unit :=
  Ok tt.

(** * Properties *)

(** ** The order on binary64 numbers that the sort uses *)

Module FloatOrder.

Open Scope Z_scope.

Lemma compare_cont_Eq (m1 m2 : positive) :
  PosDef.Pos.compare_cont Eq m1 m2 = (Z.pos m1 ?= Z.pos m2).
Proof. reflexivity. Qed.

Lemma is_nan_spec (a : float) :
  is_nan a = match Prim2SF a with S754_nan => true | _ => false end.
Proof.
  unfold is_nan. rewrite eqb_spec. unfold SFeqb, SFcompare.
  destruct (Prim2SF a) as [s|s| |s m e]; try reflexivity.
  - destruct s; reflexivity.
  - rewrite compare_cont_Eq.
    destruct s; rewrite !Z.compare_refl; try rewrite Z.compare_refl; reflexivity.
Qed.

Ltac split_compare :=
  repeat match goal with
  | |- context [Z.compare ?a ?b] => destruct (Z.compare_spec a b)
  | |- context [PosDef.Pos.compare_cont Eq ?a ?b] => rewrite (compare_cont_Eq a b)
  end.

Lemma less_iff_before (a b : float) :
  Np.less a b = true <-> sorts_before a b.
Proof.
  unfold Np.less, sorts_before. rewrite ltb_spec, !is_nan_spec.
  unfold SFltb, SFcompare.
  destruct (Prim2SF a) as [s1|s1| |s1 m1 e1];
    destruct (Prim2SF b) as [s2|s2| |s2 m2 e2];
    repeat match goal with s : bool |- _ => destruct s end;
    cbn [sort_key lex_lt orb andb negb CompOpp];
    split_compare; cbn [CompOpp orb];
    split; intros; try discriminate; try reflexivity; try lia.
Qed.

Lemma less_false_iff (a b : float) :
  Np.less a b = false <-> ~ sorts_before a b.
Proof.
  rewrite <- less_iff_before. destruct (Np.less a b); split; congruence.
Qed.

Lemma less_asym (a b : float) :
  Np.less a b = true -> Np.less b a = false.
Proof.
  rewrite less_false_iff, less_iff_before. unfold sorts_before, lex_lt.
  destruct (sort_key (Prim2SF a)) as [[a1 a2] a3].
  destruct (sort_key (Prim2SF b)) as [[b1 b2] b3]. lia.
Qed.

Lemma less_negtrans (a b c : float) :
  Np.less a b = false -> Np.less b c = false -> Np.less a c = false.
Proof.
  rewrite !less_false_iff. unfold sorts_before, lex_lt.
  destruct (sort_key (Prim2SF a)) as [[a1 a2] a3].
  destruct (sort_key (Prim2SF b)) as [[b1 b2] b3].
  destruct (sort_key (Prim2SF c)) as [[c1 c2] c3]. lia.
Qed.

Lemma less_trans (a b c : float) :
  Np.less a b = true -> Np.less b c = true -> Np.less a c = true.
Proof.
  rewrite !less_iff_before. unfold sorts_before, lex_lt.
  destruct (sort_key (Prim2SF a)) as [[a1 a2] a3].
  destruct (sort_key (Prim2SF b)) as [[b1 b2] b3].
  destruct (sort_key (Prim2SF c)) as [[c1 c2] c3]. lia.
Qed.

(** Numbers that compare equal ([==]) are not ordered by the sort. *)
Lemma eqb_not_less (a b : float) :
  PrimFloat.eqb a b = true -> Np.less a b = false /\ Np.less b a = false.
Proof.
  rewrite !less_false_iff. unfold sorts_before. rewrite eqb_spec.
  unfold SFeqb, SFcompare.
  destruct (Prim2SF a) as [s1|s1| |s1 m1 e1];
    destruct (Prim2SF b) as [s2|s2| |s2 m2 e2];
    repeat match goal with s : bool |- _ => destruct s end;
    cbn [sort_key lex_lt CompOpp];
    split_compare; cbn [CompOpp];
    intros; try discriminate; split; lia.
Qed.

End FloatOrder.

(** ** Arithmetic on zeros *)

Module FloatZero.

Open Scope float_scope.

Lemma pos_zero_eq (a : float) : is_pos_zero a -> a = 0.
Proof. intros H. apply Prim2SF_inj. rewrite H. reflexivity. Qed.

Lemma eqb_zero_iff (a : float) : (a =? 0) = true <-> is_zero a.
Proof.
  rewrite eqb_spec. change (Prim2SF 0) with (S754_zero false).
  unfold is_zero, SFeqb, SFcompare.
  destruct (Prim2SF a) as [s|s| |s m e]; split;
    try (intros [s' H]; discriminate); try discriminate; eauto.
  - destruct s; discriminate.
  - destruct s; discriminate.
Qed.

Lemma is_finite_iff (a : float) :
  is_finite a = true <->
  match Prim2SF a with
  | S754_zero _ | S754_finite _ _ _ => True
  | _ => False
  end.
Proof.
  unfold is_finite, is_infinity.
  rewrite FloatOrder.is_nan_spec, eqb_spec, abs_spec.
  change (Prim2SF infinity) with (S754_infinity false).
  unfold SFeqb, SFcompare, SFabs.
  destruct (Prim2SF a) as [s|s| |s m e]; cbn; intuition discriminate.
Qed.

Lemma mul_zero_l (a b : float) :
  is_zero a -> is_finite b = true -> is_zero (a * b).
Proof.
  intros [s Ha] Hb. apply is_finite_iff in Hb. unfold is_zero.
  rewrite mul_spec, Ha. unfold SF64mul, SFmul.
  destruct (Prim2SF b); try contradiction; eauto.
Qed.

Lemma mul_zero_r (a b : float) :
  is_finite a = true -> is_zero b -> is_zero (a * b).
Proof.
  intros Ha [s Hb]. apply is_finite_iff in Ha. unfold is_zero.
  rewrite mul_spec, Hb. unfold SF64mul, SFmul.
  destruct (Prim2SF a); try contradiction; eauto.
Qed.

Lemma zero_is_finite (a : float) : is_zero a -> is_finite a = true.
Proof. intros [s Ha]. apply is_finite_iff. rewrite Ha. exact I. Qed.

(** Adding a zero to the positive zero gives the positive zero. *)
Lemma add_pos_zero (acc x : float) :
  is_pos_zero acc -> is_zero x -> is_pos_zero (acc + x).
Proof.
  unfold is_pos_zero. intros Hacc [s Hx].
  rewrite add_spec, Hacc, Hx. unfold SF64add, SFadd. destruct s; reflexivity.
Qed.

Lemma sqrt_pos_zero (a : float) : is_pos_zero a -> is_pos_zero (sqrt a).
Proof.
  unfold is_pos_zero. intros Ha. rewrite sqrt_spec, Ha. reflexivity.
Qed.

Lemma div_zero_by_one (a : float) : is_zero a -> is_zero (a / 1).
Proof.
  intros [s Ha]. unfold is_zero. rewrite div_spec, Ha.
  change (Prim2SF 1) with (S754_finite false 4503599627370496 (-52)).
  unfold SF64div, SFdiv. eauto.
Qed.

(** A sum of zeros, started at the positive zero, is the positive zero. *)
Lemma fold_zero {A} (term : A -> float) (xs : list A) (acc : float) :
  is_pos_zero acc ->
  Forall (fun x => is_zero (term x)) xs ->
  is_pos_zero (fold_left (fun acc x => acc + term x) xs acc).
Proof.
  intros Hacc Hxs. revert acc Hacc.
  induction Hxs as [|x xs Hx _ IH]; intros acc Hacc; cbn.
  - exact Hacc.
  - apply IH. apply add_pos_zero; assumption.
Qed.

Lemma pos_zero_0 : is_pos_zero 0.
Proof. reflexivity. Qed.

(** The norm of a row of zeros is the positive zero, which
    [handle_zeros_in_scale] replaces by one. *)
Lemma row_norm_zeros (x : list float) :
  Forall is_zero x -> is_pos_zero (Sk.row_norm x).
Proof.
  intros Hx. unfold Sk.row_norm. apply sqrt_pos_zero.
  apply (fold_zero (fun xi => xi * xi)); [apply pos_zero_0|].
  eapply Forall_impl; [|exact Hx]. cbn. intros a Ha.
  apply mul_zero_l; [assumption | apply zero_is_finite; assumption].
Qed.

Lemma handle_zeros_of_zero (scale : float) :
  is_pos_zero scale -> Sk.handle_zeros_in_scale scale = 1.
Proof.
  intros H. apply pos_zero_eq in H. subst scale. reflexivity.
Qed.

(** The divisor used by [normalize] is never a zero. *)
Lemma handle_zeros_nonzero (scale : float) :
  (Sk.handle_zeros_in_scale scale =? 0) = false.
Proof.
  unfold Sk.handle_zeros_in_scale.
  destruct (scale <? 10 * Sk.eps) eqn:Hlt; [reflexivity|].
  destruct (scale =? 0) eqn:Hz; [|reflexivity].
  apply eqb_zero_iff in Hz. destruct Hz as [s Hs].
  rewrite ltb_spec, Hs in Hlt.
  change (Prim2SF (10 * Sk.eps)) with (S754_finite false 5629499534213120 (-101)) in Hlt.
  discriminate.
Qed.

Lemma normalize_zeros (x : list float) :
  Forall is_zero x -> Forall is_zero (Sk.normalize x).
Proof.
  intros Hx. unfold Sk.normalize.
  rewrite (handle_zeros_of_zero (row_norm_zeros Hx)).
  induction Hx; cbn; constructor; auto using div_zero_by_one.
Qed.

Lemma dot_zero_r (a b : list float) :
  Forall (fun ai => is_finite ai = true) a -> Forall is_zero b ->
  is_pos_zero (Sk.dot a b).
Proof.
  intros Ha Hb. unfold Sk.dot.
  apply (fold_zero (fun ab => fst ab * snd ab)); [apply pos_zero_0|].
  revert b Hb. induction Ha as [|ai a Hai _ IH]; intros b Hb; cbn; [constructor|].
  destruct Hb as [|bi b Hbi Hb]; cbn; constructor; auto using mul_zero_r.
Qed.

Lemma dot_zero_l (a b : list float) :
  Forall is_zero a -> Forall (fun bi => is_finite bi = true) b ->
  is_pos_zero (Sk.dot a b).
Proof.
  intros Ha Hb. unfold Sk.dot.
  apply (fold_zero (fun ab => fst ab * snd ab)); [apply pos_zero_0|].
  revert b Hb. induction Ha as [|ai a Hai _ IH]; intros b Hb; cbn; [constructor|].
  destruct Hb as [|bi b Hbi Hb]; cbn; constructor; auto using mul_zero_l.
Qed.

End FloatZero.

(** ** Rounding to binary64 *)

Module FloatRound.

Open Scope Z_scope.

(** *** The number of binary digits *)

Lemma digits2_pos_size (p : positive) : digits2_pos p = Pos.size p.
Proof. induction p; cbn; congruence. Qed.

Lemma Zdigits2_bounds (p : positive) :
  2 ^ (Zdigits2 (Zpos p) - 1) <= Zpos p < 2 ^ Zdigits2 (Zpos p).
Proof.
  cbn [Zdigits2]. rewrite digits2_pos_size. split.
  - pose proof (Pos.size_le p) as H.
    assert (H2 : (2 ^ Pos.size p <= p~0)%positive) by exact H.
    apply Pos2Z.pos_le_pos in H2. rewrite Pos2Z.inj_pow in H2.
    change (Z.pos p~0) with (2 * Z.pos p) in H2.
    replace (Zpos (Pos.size p)) with (Zpos (Pos.size p) - 1 + 1) in H2 by lia.
    rewrite Z.pow_add_r in H2 by lia. change (2 ^ 1) with 2 in H2. lia.
  - pose proof (Pos.size_gt p) as H.
    apply Pos2Z.pos_lt_pos in H. rewrite Pos2Z.inj_pow in H. exact H.
Qed.

Lemma Zdigits2_nonneg (m : Z) : 0 <= Zdigits2 m.
Proof. destruct m; cbn; lia. Qed.

Lemma Zdigits2_pos (m : Z) : 0 < m -> 1 <= Zdigits2 m.
Proof. destruct m; cbn; lia. Qed.

(** A number below [2^k] has at most [k] digits. *)
Lemma Zdigits2_le (m k : Z) : 0 <= m < 2 ^ k -> 0 <= k -> Zdigits2 m <= k.
Proof.
  intros [Hm Hlt] Hk. destruct m as [|p|p]; [cbn; lia| |lia].
  pose proof (@Zdigits2_bounds p) as [Hlow _].
  assert (H : 2 ^ (Zdigits2 (Zpos p) - 1) < 2 ^ k) by lia.
  apply Z.pow_lt_mono_r_iff in H; lia.
Qed.

Lemma Zdigits2_lower (m : Z) : 0 < m -> 2 ^ (Zdigits2 m - 1) <= m.
Proof.
  destruct m as [|p|p]; try lia. intros _. apply Zdigits2_bounds.
Qed.

Lemma Zdigits2_upper (m : Z) : 0 <= m -> m < 2 ^ Zdigits2 m.
Proof.
  destruct m as [|p|p]; try lia; intros _; [cbn; lia|apply Zdigits2_bounds].
Qed.

(** *** Shifting to the right *)

Lemma shr_1_m (mrs : shr_record) :
  0 <= shr_m mrs -> shr_m (shr_1 mrs) = shr_m mrs / 2.
Proof.
  destruct mrs as [m r s]. cbn [shr_m]. intros Hm.
  rewrite <- Z.div2_div.
  destruct m as [|[p|p|]|p]; try reflexivity; lia.
Qed.

Lemma iter_shr_m (p : positive) (mrs : shr_record) :
  0 <= shr_m mrs ->
  shr_m (iter_pos shr_1 p mrs) = shr_m mrs / 2 ^ Zpos p.
Proof.
  revert mrs. induction p as [p IH|p IH|]; intros mrs Hm; cbn [iter_pos].
  - assert (H1 : 0 <= shr_m (shr_1 mrs)).
    { rewrite shr_1_m by assumption. apply Z.div_pos; lia. }
    assert (H2 : 0 <= shr_m (iter_pos shr_1 p (shr_1 mrs))).
    { rewrite IH by assumption. apply Z.div_pos; [assumption|]. apply Z.pow_pos_nonneg; lia. }
    rewrite IH, IH, shr_1_m by assumption.
    rewrite !Z.div_div by (try apply Z.pow_pos_nonneg; lia).
    f_equal. rewrite Pos2Z.inj_xI.
    replace (2 * Zpos p + 1) with (1 + Zpos p + Zpos p) by lia.
    rewrite (Z.pow_add_r 2 (1 + Zpos p) (Zpos p)), (Z.pow_add_r 2 1 (Zpos p)) by lia.
    change (2 ^ 1) with 2. ring.
  - assert (H2 : 0 <= shr_m (iter_pos shr_1 p mrs)).
    { rewrite IH by assumption. apply Z.div_pos; [assumption|]. apply Z.pow_pos_nonneg; lia. }
    rewrite IH, IH by assumption.
    rewrite !Z.div_div by (try apply Z.pow_pos_nonneg; lia).
    f_equal. change (Zpos p~0) with (2 * Zpos p).
    replace (2 * Zpos p) with (Zpos p + Zpos p) by lia.
    rewrite (Z.pow_add_r 2 (Zpos p) (Zpos p)) by lia. reflexivity.
  - rewrite shr_1_m by assumption. reflexivity.
Qed.

Lemma shr_record_of_loc_m (m : Z) (l : location) : shr_m (shr_record_of_loc m l) = m.
Proof. destruct l as [|[]]; reflexivity. Qed.

(** [shr_fexp]: the exponent is raised to [fexp], the mantissa divided
    accordingly. *)
Lemma shr_fexp_spec (m e : Z) (l : location) :
  0 <= m ->
  let e' := Z.max e (fexp prec emax (Zdigits2 m + e)) in
  snd (shr_fexp prec emax m e l) = e'
  /\ shr_m (fst (shr_fexp prec emax m e l)) = m / 2 ^ (e' - e).
Proof.
  intros Hm e'. unfold shr_fexp, shr.
  destruct (fexp prec emax (Zdigits2 m + e) - e) as [|p|p] eqn:Hn; cbn [fst snd].
  - split; [lia|]. rewrite shr_record_of_loc_m.
    replace (e' - e) with 0 by lia. rewrite Z.pow_0_r, Z.div_1_r. reflexivity.
  - split; [lia|]. rewrite iter_shr_m by (rewrite shr_record_of_loc_m; assumption).
    rewrite shr_record_of_loc_m. f_equal. f_equal. lia.
  - split; [lia|]. rewrite shr_record_of_loc_m.
    replace (e' - e) with 0 by lia. rewrite Z.pow_0_r, Z.div_1_r. reflexivity.
Qed.

Lemma round_nearest_even_bounds (m : Z) (l : location) :
  m <= round_nearest_even m l <= m + 1.
Proof.
  destruct l as [|[]]; cbn; try lia. destruct (Z.even m); lia.
Qed.

(** *** Rounding *)

(** The result of [binary_round_aux] on a mantissa that is not negative. *)
Lemma binary_round_aux_spec (sx : bool) (mx ex : Z) (lx : location) :
  0 <= mx ->
  let e1 := Z.max ex (fexp prec emax (Zdigits2 mx + ex)) in
  let m1 := mx / 2 ^ (e1 - ex) in
  exists m1',
    m1 <= m1' <= m1 + 1
    /\ let e2 := Z.max e1 (fexp prec emax (Zdigits2 m1' + e1)) in
       binary_round_aux prec emax sx mx ex lx
       = match m1' / 2 ^ (e2 - e1) with
         | Z0 => S754_zero sx
         | Zpos m => if e2 <=? emax - prec then S754_finite sx m e2 else S754_infinity sx
         | Zneg _ => S754_nan
         end.
Proof.
  intros Hm e1 m1. unfold binary_round_aux.
  destruct (@shr_fexp_spec mx ex lx Hm) as [He1 Hm1].
  destruct (shr_fexp prec emax mx ex lx) as [mrs' e'] eqn:H1.
  cbn [fst snd] in He1, Hm1. fold e1 in He1. fold e1 m1 in Hm1. subst e'.
  set (m1' := round_nearest_even (shr_m mrs') (loc_of_shr_record mrs')).
  assert (Hb : m1 <= m1' <= m1 + 1).
  { unfold m1'. rewrite <- Hm1. apply round_nearest_even_bounds. }
  assert (Hm1nn : 0 <= m1).
  { unfold m1. apply Z.div_pos; [assumption|]. apply Z.pow_pos_nonneg; lia. }
  exists m1'. split; [exact Hb|]. cbv zeta.
  set (e2 := Z.max e1 (fexp prec emax (Zdigits2 m1' + e1))).
  destruct (@shr_fexp_spec m1' e1 loc_Exact ltac:(lia)) as [He2 Hm2].
  destruct (shr_fexp prec emax m1' e1 loc_Exact) as [mrs'' e''] eqn:H2.
  cbn [fst snd] in He2, Hm2. fold e2 in He2, Hm2. subst e''. rewrite Hm2. reflexivity.
Qed.

Ltac unfold_fexp := unfold fexp, emin, prec, emax in *.

Lemma div_pow2_le (m k : Z) : 0 <= m -> 0 <= k -> m / 2 ^ k <= m.
Proof.
  intros Hm Hk. assert (0 < 2 ^ k) by (apply Z.pow_pos_nonneg; lia).
  apply Z.div_le_upper_bound; [assumption|]. nia.
Qed.

Lemma div_pow2_pos (m k : Z) : 0 < m -> 0 <= k <= Zdigits2 m - 1 -> 0 < m / 2 ^ k.
Proof.
  intros Hm Hk. apply Z.div_str_pos. split; [apply Z.pow_pos_nonneg; lia|].
  pose proof (@Zdigits2_lower m Hm) as Hlow.
  assert (2 ^ k <= 2 ^ (Zdigits2 m - 1)) by (apply Z.pow_le_mono_r; lia).
  lia.
Qed.

(** Rounding a mantissa that is not negative gives no NaN, and keeps the
    sign. *)
Lemma binary_round_aux_sign (sx : bool) (mx ex : Z) (lx : location) :
  0 <= mx ->
  match binary_round_aux prec emax sx mx ex lx with
  | S754_zero s | S754_infinity s | S754_finite s _ _ => s = sx
  | S754_nan => False
  end.
Proof.
  intros Hm. destruct (@binary_round_aux_spec sx mx ex lx Hm) as (m1' & Hb & ->).
  set (e1 := Z.max ex (fexp prec emax (Zdigits2 mx + ex))) in *.
  set (e2 := Z.max e1 (fexp prec emax (Zdigits2 m1' + e1))).
  assert (H1 : 0 <= mx / 2 ^ (e1 - ex)).
  { apply Z.div_pos; [assumption|]. apply Z.pow_pos_nonneg; lia. }
  assert (H2 : 0 <= m1' / 2 ^ (e2 - e1)).
  { apply Z.div_pos; [lia|]. apply Z.pow_pos_nonneg; lia. }
  destruct (m1' / 2 ^ (e2 - e1)); [reflexivity| |lia].
  destruct (e2 <=? emax - prec); reflexivity.
Qed.

(** A mantissa of at most 54 digits whose exponent, once raised to [fexp],
    is at most 969, is rounded to a finite number. *)
Lemma binary_round_aux_finite (sx : bool) (mx ex : Z) (lx : location) :
  0 <= mx ->
  Zdigits2 mx <= 54 ->
  Z.max ex (fexp prec emax (Zdigits2 mx + ex)) <= 969 ->
  match binary_round_aux prec emax sx mx ex lx with
  | S754_zero _ | S754_finite _ _ _ => True
  | _ => False
  end.
Proof.
  intros Hm Hd He.
  destruct (@binary_round_aux_spec sx mx ex lx Hm) as (m1' & Hb & ->).
  set (e1 := Z.max ex (fexp prec emax (Zdigits2 mx + ex))) in *.
  set (e2 := Z.max e1 (fexp prec emax (Zdigits2 m1' + e1))).
  assert (H1 : 0 <= mx / 2 ^ (e1 - ex) <= mx).
  { split; [apply Z.div_pos; [assumption|apply Z.pow_pos_nonneg; lia]|].
    apply div_pow2_le; [assumption|]. unfold e1. lia. }
  assert (Hd' : Zdigits2 m1' <= 55).
  { apply Zdigits2_le; [|lia]. split; [lia|].
    pose proof (@Zdigits2_upper mx Hm) as Hup.
    assert (2 ^ Zdigits2 mx <= 2 ^ 54) by (apply Z.pow_le_mono_r; lia).
    change (2 ^ 55) with (2 * 2 ^ 54). lia. }
  assert (H2 : 0 <= m1' / 2 ^ (e2 - e1)).
  { apply Z.div_pos; [lia|]. apply Z.pow_pos_nonneg; lia. }
  assert (He2 : e2 <= emax - prec).
  { unfold e2. unfold_fexp. lia. }
  apply Z.leb_le in He2.
  destruct (m1' / 2 ^ (e2 - e1)); [exact I| |lia].
  rewrite He2. exact I.
Qed.

(** A positive mantissa with an exponent of 972 or more overflows. *)
Lemma binary_round_aux_overflow (sx : bool) (mx ex : Z) (lx : location) :
  0 < mx -> 972 <= ex ->
  binary_round_aux prec emax sx mx ex lx = S754_infinity sx.
Proof.
  intros Hm He.
  destruct (@binary_round_aux_spec sx mx ex lx ltac:(lia)) as (m1' & Hb & ->).
  set (e1 := Z.max ex (fexp prec emax (Zdigits2 mx + ex))) in *.
  set (e2 := Z.max e1 (fexp prec emax (Zdigits2 m1' + e1))).
  pose proof (@Zdigits2_pos mx Hm) as Hd.
  assert (H1 : 0 < mx / 2 ^ (e1 - ex)).
  { apply div_pow2_pos; [assumption|]. unfold e1. unfold_fexp. lia. }
  assert (Hm1' : 0 < m1') by lia.
  pose proof (@Zdigits2_pos m1' Hm1') as Hd'.
  assert (H2 : 0 < m1' / 2 ^ (e2 - e1)).
  { apply div_pow2_pos; [assumption|]. unfold e2, e1. unfold_fexp. lia. }
  assert (He2 : (e2 <=? emax - prec) = false).
  { apply Z.leb_gt. unfold e2, e1. unfold_fexp. lia. }
  destruct (m1' / 2 ^ (e2 - e1)); [lia| |lia].
  rewrite He2. reflexivity.
Qed.

End FloatRound.

(** ** Finite results *)

Module FloatFinite.

Import FloatRound.
Open Scope Z_scope.

Lemma round_not_negative (mx ex : Z) (lx : location) :
  0 <= mx -> not_negative (binary_round_aux prec emax false mx ex lx).
Proof.
  intros Hm. pose proof (@binary_round_aux_sign false mx ex lx Hm) as H.
  destruct (binary_round_aux prec emax false mx ex lx) as [s|s| |s m e];
    cbn; try subst s; auto.
Qed.

Lemma SFmul_self (x : spec_float) :
  match x with S754_zero _ | S754_finite _ _ _ => True | _ => False end ->
  not_negative (SFmul prec emax x x)
  /\ (below_overflow x \/ SFmul prec emax x x = S754_infinity false).
Proof.
  destruct x as [s|s| |s m e]; try contradiction; intros _.
  - split; [exact I|left; exact I].
  - unfold SFmul. rewrite xorb_nilpotent. split.
    + apply round_not_negative. lia.
    + destruct (Z_le_gt_dec e 485) as [He|He]; [left; exact He|right].
      apply binary_round_aux_overflow; lia.
Qed.

Lemma SFadd_not_negative (a b : spec_float) :
  not_negative a -> not_negative b ->
  not_negative (SFadd prec emax a b)
  /\ (a = S754_infinity false \/ b = S754_infinity false ->
      SFadd prec emax a b = S754_infinity false).
Proof.
  destruct a as [sa|[|]| |[|] ma ea]; try contradiction;
    destruct b as [sb|[|]| |[|] mb eb]; try contradiction; intros _ _;
    try (split; [exact I|intros [H|H]; try discriminate; reflexivity]).
  - split; [|intros [H|H]; discriminate].
    destruct sa, sb; exact I.
  - split; [|intros [H|H]; discriminate].
    unfold SFadd, binary_normalize, cond_Zopp.
    cbn [Z.add]. unfold binary_round.
    destruct (shl_align _ _ _) as [mz ez].
    apply round_not_negative. lia.
Qed.

Lemma SFsqrt_not_negative (a : spec_float) :
  not_negative a ->
  not_negative (SFsqrt prec emax a)
  /\ (a = S754_infinity false -> SFsqrt prec emax a = S754_infinity false).
Proof.
  destruct a as [sa|[|]| |[|] ma ea]; try contradiction; intros _;
    try (split; [exact I|intros H; try discriminate; reflexivity]).
  split; [|discriminate].
  unfold SFsqrt, SFsqrt_core_binary.
  set (m' := match _ with Z0 => _ | Zpos _ => _ | Zneg _ => _ end).
  pose proof (Z.sqrtrem_sqrt m') as Hq.
  destruct (Z.sqrtrem m') as [q r]. cbn [fst] in Hq.
  apply round_not_negative. subst q. apply Z.sqrt_nonneg.
Qed.

Lemma canonical_digits (m : positive) (e : Z) :
  bounded prec emax m e = true -> Zdigits2 (Zpos m) <= 53.
Proof.
  unfold bounded, canonical_mantissa. intros H.
  apply andb_prop in H. destruct H as [H _]. apply Z.eqb_eq in H.
  cbn [Zdigits2]. unfold_fexp. lia.
Qed.

Lemma SFdiv_core_binary_bounds (m1 e1 m2 e2 : Z) :
  0 < m1 -> 0 < m2 -> Zdigits2 m1 <= 53 ->
  let '(q, e', _) := SFdiv_core_binary prec emax m1 e1 m2 e2 in
  0 <= q /\ Zdigits2 q <= 54 /\ e' <= e1 - e2.
Proof.
  intros H1 H2 Hd1. unfold SFdiv_core_binary.
  set (d1 := Zdigits2 m1) in *. set (d2 := Zdigits2 m2).
  set (e' := Z.min (fexp prec emax (d1 + e1 - (d2 + e2))) (e1 - e2)).
  set (s := e1 - e2 - e').
  assert (Hs : 0 <= s) by (unfold s, e'; lia).
  assert (Hds : d1 + s <= 53 + d2).
  { pose proof (@Zdigits2_pos m2 H2). fold d2 in H.
    unfold s, e'. unfold_fexp. lia. }
  set (m' := match s with Z0 => m1 | Zpos _ => Z.shiftl m1 s | Zneg _ => 0 end).
  assert (Hm' : m' = m1 * 2 ^ s).
  { unfold m'. destruct s as [|p|p] eqn:Es.
    - rewrite Z.mul_1_r. reflexivity.
    - apply Z.shiftl_mul_pow2. lia.
    - lia. }
  assert (Hq : fst (Z.div_eucl m' m2) = m' / m2) by reflexivity.
  destruct (Z.div_eucl m' m2) as [q r]. cbn [fst] in Hq. subst q.
  assert (Hpos : 0 < 2 ^ s) by (apply Z.pow_pos_nonneg; lia).
  assert (H0 : 0 <= m' / m2).
  { apply Z.div_pos; [rewrite Hm'; nia|assumption]. }
  split; [assumption|]. split; [|unfold e'; lia].
  apply Zdigits2_le; [|lia]. split; [assumption|].
  apply Z.div_lt_upper_bound; [assumption|].
  pose proof (@Zdigits2_upper m1 ltac:(lia)) as Hup1. fold d1 in Hup1.
  pose proof (@Zdigits2_lower m2 H2) as Hlow2. fold d2 in Hlow2.
  pose proof (@Zdigits2_pos m2 H2) as Hd2. fold d2 in Hd2.
  assert (Hle : 2 ^ (d1 + s) <= 2 ^ (54 + (d2 - 1))).
  { apply Z.pow_le_mono_r; lia. }
  rewrite Z.pow_add_r in Hle by (unfold d1; pose proof (@Zdigits2_nonneg m1); lia).
  rewrite (Z.pow_add_r 2 54 (d2 - 1)) in Hle by lia.
  rewrite Hm'.
  assert (m1 * 2 ^ s < 2 ^ d1 * 2 ^ s) by nia.
  assert (2 ^ 54 * 2 ^ (d2 - 1) <= m2 * 2 ^ 54) by nia.
  lia.
Qed.

(** A number below the overflow threshold of squares, divided by an
    infinity or by a positive number of exponent -101 or more, gives a
    finite number. *)
Lemma SFdiv_finite (x n : spec_float) :
  valid_binary x = true ->
  below_overflow x ->
  match n with
  | S754_infinity _ => True
  | S754_finite _ _ e => -101 <= e
  | _ => False
  end ->
  match SFdiv prec emax x n with
  | S754_zero _ | S754_finite _ _ _ => True
  | _ => False
  end.
Proof.
  intros Hv Hx Hn.
  destruct x as [sx|sx| |sx mx ex]; try contradiction;
    destruct n as [sn|sn| |sn mn en]; try contradiction; try exact I.
  unfold SFdiv. change (bounded prec emax mx ex = true) in Hv. cbn in Hx.
  pose proof (@SFdiv_core_binary_bounds (Zpos mx) ex (Zpos mn) en
                ltac:(lia) ltac:(lia) (@canonical_digits _ _ Hv)) as H.
  destruct (SFdiv_core_binary prec emax (Z.pos mx) ex (Z.pos mn) en) as [[q e'] l].
  destruct H as (Hq & Hd & He).
  apply binary_round_aux_finite; [assumption|assumption|].
  unfold_fexp. lia.
Qed.

(** *** The operations on floats *)

Lemma square_not_negative (a : float) :
  is_finite a = true ->
  not_negative (Prim2SF (a * a))
  /\ (below_overflow (Prim2SF a) \/ Prim2SF (a * a) = S754_infinity false).
Proof.
  intros H. rewrite mul_spec. apply SFmul_self.
  apply FloatZero.is_finite_iff. assumption.
Qed.

Lemma add_not_negative (a b : float) :
  not_negative (Prim2SF a) -> not_negative (Prim2SF b) ->
  not_negative (Prim2SF (a + b))
  /\ (Prim2SF a = S754_infinity false \/ Prim2SF b = S754_infinity false ->
      Prim2SF (a + b) = S754_infinity false).
Proof.
  intros Ha Hb. rewrite add_spec. apply SFadd_not_negative; assumption.
Qed.

(** The sum of the squares of finite numbers is not negative; it is plus
    infinity as soon as one square is. *)
Lemma sum_squares (x : list float) (acc : float) :
  forallb is_finite x = true ->
  not_negative (Prim2SF acc) ->
  let total := fold_left (fun acc xi => acc + xi * xi)%float x acc in
  not_negative (Prim2SF total)
  /\ (Prim2SF acc = S754_infinity false -> Prim2SF total = S754_infinity false)
  /\ (Prim2SF total = S754_infinity false
      \/ Forall (fun xi => below_overflow (Prim2SF xi)) x).
Proof.
  revert acc. induction x as [|a x IH]; intros acc Hx Hacc; cbn.
  - split; [assumption|]. split; [auto|right; constructor].
  - cbn in Hx. apply andb_prop in Hx. destruct Hx as [Ha Hx].
    destruct (square_not_negative a Ha) as [Hsq Hcase].
    destruct (add_not_negative acc (a * a) Hacc Hsq) as [Hsum Hinf].
    destruct (IH (acc + a * a)%float Hx Hsum) as (IH1 & IH2 & IH3).
    split; [assumption|]. split.
    + intros Hi. apply IH2, Hinf. left. assumption.
    + destruct Hcase as [Hsmall|Hbig].
      * destruct IH3 as [Htot|Hrest]; [left; assumption|].
        right. constructor; assumption.
      * left. apply IH2, Hinf. right. assumption.
Qed.

(** The norm of a finite row is not negative, and it is plus infinity
    unless every entry is below the overflow threshold of squares. *)
Lemma row_norm_cases (x : list float) :
  forallb is_finite x = true ->
  not_negative (Prim2SF (Sk.row_norm x))
  /\ (Prim2SF (Sk.row_norm x) = S754_infinity false
      \/ Forall (fun xi => below_overflow (Prim2SF xi)) x).
Proof.
  intros Hx. unfold Sk.row_norm.
  destruct (@sum_squares x 0%float Hx I) as (H1 & _ & H3).
  rewrite sqrt_spec. destruct (SFsqrt_not_negative _ H1) as [Hs Hi].
  split; [exact Hs|].
  destruct H3 as [H3|H3]; [left; apply Hi; exact H3|right; exact H3].
Qed.

(** The divisor of [normalize] is plus infinity or a positive number of
    exponent -101 or more: ten machine epsilons at least. *)
Lemma handle_zeros_divisor (n : float) :
  not_negative (Prim2SF n) ->
  match Prim2SF (Sk.handle_zeros_in_scale n) with
  | S754_infinity _ => True
  | S754_finite _ _ e => -101 <= e
  | _ => False
  end
  /\ (Prim2SF n = S754_infinity false ->
      Prim2SF (Sk.handle_zeros_in_scale n) = S754_infinity false).
Proof.
  intros Hn. unfold Sk.handle_zeros_in_scale.
  pose proof (ltb_spec n (10 * Sk.eps)%float) as Hlt.
  change (Prim2SF (10 * Sk.eps)) with (S754_finite false 5629499534213120 (-101)) in Hlt.
  destruct (n <? 10 * Sk.eps)%float.
  - change (Prim2SF 1) with (S754_finite false 4503599627370496 (-52)).
    split; [lia|]. intros Hinf. rewrite Hinf in Hlt. discriminate.
  - split; [|auto].
    destruct (Prim2SF n) as [s|[|]| |[|] m e]; try contradiction;
      try discriminate; try exact I.
    unfold SFltb, SFcompare in Hlt.
    destruct (Z.compare_spec e (-101)); [lia|discriminate|lia].
Qed.

(** Normalising a finite row gives a finite row, whatever its norm. *)
Lemma normalize_finite (x : list float) :
  forallb is_finite x = true -> forallb is_finite (Sk.normalize x) = true.
Proof.
  intros Hx. unfold Sk.normalize.
  destruct (row_norm_cases x Hx) as [Hnn Hcase].
  destruct (handle_zeros_divisor _ Hnn) as [Hdiv Hinf].
  set (norm := Sk.handle_zeros_in_scale (Sk.row_norm x)) in *.
  apply forallb_forall. intros y Hy. apply in_map_iff in Hy.
  destruct Hy as (xi & <- & Hin).
  apply FloatZero.is_finite_iff. rewrite div_spec.
  rewrite forallb_forall in Hx. specialize (Hx xi Hin).
  apply FloatZero.is_finite_iff in Hx.
  destruct Hcase as [Hbig|Hsmall].
  - rewrite (Hinf Hbig). destruct (Prim2SF xi); try contradiction; exact I.
  - rewrite Forall_forall in Hsmall.
    apply SFdiv_finite; [apply Prim2SF_valid|apply Hsmall; assumption|exact Hdiv].
Qed.

End FloatFinite.

(** ** The index sort *)

Module ArgsortFacts.

Import Np.

Lemma ordered_pairs_app {A} (R : A -> A -> Prop) (l1 l2 : list A) :
  ForallOrdPairs R l1 -> ForallOrdPairs R l2 ->
  (forall a b, In a l1 -> In b l2 -> R a b) ->
  ForallOrdPairs R (l1 ++ l2).
Proof.
  induction 1 as [|x l1 Hx _ IH]; intros H2 Hcross; cbn; [assumption|].
  constructor.
  - apply Forall_app. split; [assumption|].
    apply Forall_forall. intros b Hb. apply Hcross; [left; reflexivity|assumption].
  - apply IH; [assumption|]. intros a b Ha Hb. apply Hcross; [right|]; assumption.
Qed.

Lemma ordered_pairs_rev {A} (R : A -> A -> Prop) (l : list A) :
  ForallOrdPairs R l -> ForallOrdPairs (fun a b => R b a) (rev l).
Proof.
  induction 1 as [|x l Hx _ IH]; cbn; [constructor|].
  apply ordered_pairs_app; [assumption|repeat constructor|].
  intros a b Ha [<-|[]]. rewrite Forall_forall in Hx. apply Hx.
  apply in_rev. assumption.
Qed.

(** Ordered pairs, read through positions. *)
Lemma ordered_pairs_nth {A} (R : A -> A -> Prop) (l : list A) :
  ForallOrdPairs R l ->
  forall p p' a b, p < p' ->
    nth_error l p = Some a -> nth_error l p' = Some b -> R a b.
Proof.
  induction 1 as [|x l Hx _ IH]; intros p p' a b Hlt Ha Hb.
  - destruct p; discriminate.
  - destruct p' as [|p']; [lia|]. cbn in Hb.
    destruct p as [|p]; cbn in Ha.
    + injection Ha as <-. rewrite Forall_forall in Hx.
      apply Hx. eapply nth_error_In; eassumption.
    + eapply IH; [|eassumption|eassumption]. lia.
Qed.

Lemma nth_error_firstn_Some {A} (n : nat) (l : list A) (p : nat) (a : A) :
  nth_error (firstn n l) p = Some a -> nth_error l p = Some a /\ p < n.
Proof.
  revert l p. induction n as [|n IH]; intros l p H.
  - destruct p; discriminate.
  - destruct l as [|x l]; [destruct p; discriminate|].
    destruct p as [|p]; cbn in H |- *.
    + split; [assumption|lia].
    + apply IH in H. destruct H. split; [assumption|lia].
Qed.

(** *** The two insertion sorts meet the specification *)

Lemma insert_index_perm (v : list float) (vi : nat) (l : list nat) :
  Permutation (insert_index v vi l) (vi :: l).
Proof.
  induction l as [|vk rest IH]; cbn; [reflexivity|].
  destruct (less (key v vi) (key v vk)); [|reflexivity].
  rewrite IH. apply perm_swap.
Qed.

Lemma insert_index_descending (v : list float) (vi : nat) (l : list nat) :
  descending v l -> descending v (insert_index v vi l).
Proof.
  unfold descending. induction l as [|vk rest IH]; intros Hd; cbn.
  - repeat constructor.
  - inversion Hd as [|? ? Hhead Htail]; subst.
    destruct (less (key v vi) (key v vk)) eqn:Hless.
    + constructor; [|auto].
      eapply Permutation_Forall; [symmetry; apply insert_index_perm|].
      constructor; [|assumption].
      apply FloatOrder.less_asym; assumption.
    + constructor; [|assumption].
      constructor; [assumption|].
      eapply Forall_impl; [|exact Hhead]. cbn. intros b Hb.
      eapply FloatOrder.less_negtrans; eassumption.
Qed.

Lemma insert_index_past_ties_perm (v : list float) (vi : nat) (l : list nat) :
  Permutation (insert_index_past_ties v vi l) (vi :: l).
Proof.
  induction l as [|vk rest IH]; cbn; [reflexivity|].
  destruct (negb (less (key v vk) (key v vi))); [|reflexivity].
  rewrite IH. apply perm_swap.
Qed.

Lemma insert_index_past_ties_descending (v : list float) (vi : nat) (l : list nat) :
  descending v l -> descending v (insert_index_past_ties v vi l).
Proof.
  unfold descending. induction l as [|vk rest IH]; intros Hd; cbn.
  - repeat constructor.
  - inversion Hd as [|? ? Hhead Htail]; subst.
    destruct (less (key v vk) (key v vi)) eqn:Hless; cbn [negb].
    + constructor; [|assumption].
      constructor; [apply FloatOrder.less_asym; assumption|].
      eapply Forall_impl; [|exact Hhead]. cbn. intros b Hb.
      destruct (less (key v vi) (key v b)) eqn:Hvb; [|reflexivity].
      pose proof (FloatOrder.less_trans _ _ _ Hless Hvb). congruence.
    + constructor; [|auto].
      eapply Permutation_Forall; [symmetry; apply insert_index_past_ties_perm|].
      constructor; assumption.
Qed.

(** Any such pass, run over the indices, meets the specification. *)
Lemma insertion_sorts (insert : list float -> nat -> list nat -> list nat) :
  (forall v vi l, Permutation (insert v vi l) (vi :: l)) ->
  (forall v vi l, descending v l -> descending v (insert v vi l)) ->
  sorts (fun v => rev (fold_left (fun l vi => insert v vi l) (seq 0 (List.length v)) [])).
Proof.
  intros Hperm Hdesc v.
  assert (Hfold : forall idxs acc,
            Permutation (fold_left (fun l vi => insert v vi l) idxs acc) (idxs ++ acc)
            /\ (descending v acc ->
                descending v (fold_left (fun l vi => insert v vi l) idxs acc))).
  { induction idxs as [|i idxs IH]; intros acc; cbn.
    - split; [reflexivity|auto].
    - destruct (IH (insert v i acc)) as [IHp IHd]. split.
      + rewrite IHp, Hperm. symmetry. apply Permutation_middle.
      + intros Hd. apply IHd, Hdesc, Hd. }
  destruct (Hfold (seq 0 (List.length v)) []) as [Hp Hd]. split.
  - rewrite <- Permutation_rev, Hp, app_nil_r. reflexivity.
  - apply (ordered_pairs_rev (R := fun a b => less (key v a) (key v b) = false)).
    apply Hd. constructor.
Qed.

Lemma stable_argsort_sorts : sorts stable_argsort.
Proof.
  apply (insertion_sorts insert_index);
    [apply insert_index_perm|apply insert_index_descending].
Qed.

Lemma reversing_argsort_sorts : sorts reversing_argsort.
Proof.
  apply (insertion_sorts insert_index_past_ties);
    [apply insert_index_past_ties_perm|apply insert_index_past_ties_descending].
Qed.

(** *** What follows from the specification

    The ranking reads the sorted indices last one first. *)

Section Sorted.

Variable argsort : list float -> list nat.
Hypothesis argsort_sorts : sorts argsort.

Lemma ranked_perm (v : list float) :
  Permutation (rev (argsort v)) (seq 0 (List.length v)).
Proof.
  rewrite <- Permutation_rev. apply argsort_sorts.
Qed.

Lemma ranked_descending (v : list float) : descending v (rev (argsort v)).
Proof.
  apply (ordered_pairs_rev (R := fun a b => less (key v b) (key v a) = false)).
  apply argsort_sorts.
Qed.

Lemma ranked_NoDup (v : list float) : NoDup (rev (argsort v)).
Proof.
  eapply Permutation_NoDup; [symmetry; apply ranked_perm|apply seq_NoDup].
Qed.

Lemma ranked_bound (v : list float) :
  Forall (fun k => k < List.length v) (rev (argsort v)).
Proof.
  eapply Permutation_Forall; [symmetry; apply ranked_perm|].
  apply Forall_forall. intros k Hk. apply in_seq in Hk. lia.
Qed.

Lemma ranked_length (v : list float) :
  List.length (rev (argsort v)) = List.length v.
Proof.
  rewrite (Permutation_length (ranked_perm v)). apply length_seq.
Qed.

End Sorted.

End ArgsortFacts.

(** ** The ranking of [search] *)

Lemma results_from_length (self : FAQSearchEngine) (sims : list float)
    (pos : nat) (idxs : list nat) :
  List.length (results_from self sims pos idxs) = List.length idxs.
Proof.
  revert pos. induction idxs as [|i idxs IH]; intros pos; cbn; [reflexivity|].
  rewrite IH. reflexivity.
Qed.

Lemma cosine_similarity_compatible (q v : list float) :
  compatible q v = true -> Sk.cosine_similarity q v = Ok (score q v).
Proof.
  unfold compatible, Sk.cosine_similarity. intros H.
  apply andb_prop in H. destruct H as [H Hlen].
  apply andb_prop in H. destruct H as [Hq Hv].
  rewrite Hq, Hv, Hlen. reflexivity.
Qed.

Lemma cosine_similarity_inv (q v : list float) (s : float) :
  Sk.cosine_similarity q v = Ok s -> compatible q v = true /\ s = score q v.
Proof.
  unfold compatible, Sk.cosine_similarity, score.
  destruct (Sk.check_array q); [|discriminate].
  destruct (Sk.check_array v); [|discriminate].
  destruct (Nat.eqb (List.length q) (List.length v)); [|discriminate].
  cbn. intros H. injection H as <-. split; reflexivity.
Qed.

Lemma similarities_of_compatible (q : list float) (vs : list (list float)) :
  forallb (compatible q) vs = true ->
  similarities_of q vs = Ok (map (score q) vs).
Proof.
  unfold similarities_of. induction vs as [|v vs IH]; cbn; [reflexivity|].
  intros H. apply andb_prop in H. destruct H as [Hv Hvs].
  rewrite (cosine_similarity_compatible _ _ Hv). cbn.
  rewrite (IH Hvs). reflexivity.
Qed.

Lemma similarities_of_inv (q : list float) (vs : list (list float)) (sims : list float) :
  similarities_of q vs = Ok sims ->
  forallb (compatible q) vs = true /\ sims = map (score q) vs.
Proof.
  unfold similarities_of. revert sims.
  induction vs as [|v vs IH]; cbn; intros sims H.
  - injection H as <-. split; reflexivity.
  - destruct (Sk.cosine_similarity q v) as [s|e] eqn:Hs; [|discriminate].
    cbn in H.
    destruct (comprehension (fun vector => Sk.cosine_similarity q vector) vs)
      as [ss|e] eqn:Hss; [|discriminate].
    cbn in H. injection H as <-.
    apply cosine_similarity_inv in Hs. destruct Hs as [Hc ->].
    destruct (IH ss eq_refl) as [Hcs ->].
    rewrite Hc, Hcs. split; reflexivity.
Qed.

Lemma getitem_nth {A} (xs : list A) (idx : nat) (d : A) :
  idx < List.length xs -> getitem xs idx = Ok (nth idx xs d).
Proof.
  intros H. unfold getitem.
  rewrite (nth_error_nth' xs d H). reflexivity.
Qed.

Lemma build_results_spec (self : FAQSearchEngine) (sims : list float)
    (idxs : list nat) (acc : list search_result) :
  aligned self -> List.length sims = List.length (vectors self) ->
  Forall (fun i => i < List.length sims) idxs ->
  build_results self sims idxs acc
  = Ok (acc ++ results_from self sims (List.length acc) idxs).
Proof.
  intros (Hq & Ha & Hs) Hsims Hidx. revert acc.
  induction Hidx as [|i idxs Hi _ IH]; intros acc; cbn.
  - rewrite app_nil_r. reflexivity.
  - rewrite (getitem_nth (questions self) EmptyString) by lia.
    rewrite (getitem_nth (answers self) EmptyString) by lia.
    rewrite (getitem_nth (sections self) EmptyString) by lia.
    rewrite (getitem_nth sims 0%float) by lia.
    cbn. rewrite IH. rewrite <- app_assoc. cbn.
    rewrite length_app. cbn. unfold result_at. rewrite !Nat.add_1_r. reflexivity.
Qed.

Lemma slice_to_firstn {A} (k : Z) (xs : list A) :
  exists n, slice_to k xs = firstn n xs.
Proof.
  unfold slice_to. destruct (k <? 0)%Z; eauto.
Qed.

Lemma top_indices_bound (argsort : list float -> list nat) (sims : list float) (k : Z) :
  Np.sorts argsort ->
  Forall (fun i => i < List.length sims) (top_indices argsort sims k).
Proof.
  intros Hsorts. unfold top_indices.
  destruct (slice_to_firstn k (rev (argsort sims))) as [n ->].
  apply Forall_forall. intros i Hi.
  pose proof (ArgsortFacts.ranked_bound Hsorts sims) as Hb.
  rewrite Forall_forall in Hb. apply Hb.
  rewrite <- (firstn_skipn n (rev (argsort sims))).
  apply in_or_app. left. assumption.
Qed.

Lemma rank_vectors_spec (argsort : list float -> list nat) (self : FAQSearchEngine)
    (q : list float) (k : Z) (sims : list float) :
  Np.sorts argsort ->
  aligned self ->
  similarities_of q (vectors self) = Ok sims ->
  rank_vectors argsort self q k
  = Ok (results_from self sims 0 (top_indices argsort sims k)).
Proof.
  intros Hsorts Hal Hsims. unfold rank_vectors. rewrite Hsims. cbn.
  rewrite build_results_spec;
    [reflexivity|assumption| |apply top_indices_bound; assumption].
  apply similarities_of_inv in Hsims. destruct Hsims as [_ ->].
  apply length_map.
Qed.


Lemma slice_to_length {A} (k : Z) (xs : list A) :
  List.length (slice_to k xs)
  = if (k <? 0)%Z
    then Z.to_nat (Z.max 0 (Z.of_nat (List.length xs) + k))
    else Nat.min (Z.to_nat k) (List.length xs).
Proof.
  unfold slice_to. destruct (k <? 0)%Z eqn:Hk; rewrite length_firstn; [|reflexivity].
  apply Z.ltb_lt in Hk. lia.
Qed.

Lemma example_store_aligned : aligned example_store.
Proof. repeat split. Qed.


(** *** Claim C3 *)



(** *** Claim C2 *)

(** C2, refuted as stated: with [top_k = -1] the slice drops the last
    ranked record only, so a store of three records gives two results
    (computed with the insertion sort of the indices; the number of results
    is the same for every index sort that sorts). *)
Lemma negative_top_k_returns_results :
  rank_vectors Np.stable_argsort example_store [1; 0]%float (-1)
  = Ok [ mkResult 1 "R2" "A2" "S2" 1 100; mkResult 2 "R0" "A0" "S0" 1 100 ]
  /\ rank_vectors Np.stable_argsort example_store [1; 0]%float (-1) <> Ok [].
Proof.
  split.
  - vm_compute. reflexivity.
  - vm_compute. discriminate.
Qed.

(** C2, amended.  The ranking returns the empty list, without an error,
    for every [top_k] when the store is empty and for [top_k = 0] when the
    stored vectors pass the validation against the query.  In general the
    number of results is that of the Python slice [[:top_k]]: for a negative
    [top_k] it is [max 0 (size + top_k)], which is positive when
    [-size < top_k].  This holds for every index sort that meets the
    specification of [np.argsort]. *)
Theorem rank_empty_cases (argsort : list float -> list nat)
    (self : FAQSearchEngine) (q : list float) (top_k : Z) :
  Np.sorts argsort ->
  (vectors self = [] -> rank_vectors argsort self q top_k = Ok []) /\
  (top_k = 0%Z -> forallb (compatible q) (vectors self) = true ->
   rank_vectors argsort self q top_k = Ok []) /\
  (aligned self -> forallb (compatible q) (vectors self) = true ->
   exists rs,
     rank_vectors argsort self q top_k = Ok rs /\
     List.length rs
     = if (top_k <? 0)%Z
       then Z.to_nat (Z.max 0 (Z.of_nat (List.length (vectors self)) + top_k))
       else Nat.min (Z.to_nat top_k) (List.length (vectors self))).
Proof.
  intros Hsorts. split; [|split].
  - intros Hempty. unfold rank_vectors. rewrite Hempty. cbn.
    unfold top_indices.
    assert (Hnil : rev (argsort []) = []).
    { apply length_zero_iff_nil. apply (ArgsortFacts.ranked_length Hsorts []). }
    rewrite Hnil. unfold slice_to.
    destruct (top_k <? 0)%Z; rewrite firstn_nil; reflexivity.
  - intros -> Hcompat. unfold rank_vectors.
    rewrite (similarities_of_compatible _ _ Hcompat). reflexivity.
  - intros Hal Hcompat.
    pose proof (similarities_of_compatible _ _ Hcompat) as Hsims.
    eexists. split; [apply (rank_vectors_spec _ top_k Hsorts Hal Hsims)|].
    unfold top_indices. rewrite results_from_length, slice_to_length.
    rewrite (ArgsortFacts.ranked_length Hsorts), length_map. reflexivity.
Qed.

Lemma rank_empty_cases_witness :
  rank_vectors Np.stable_argsort (mkEngine "aven_faq_vectors.json" [] [] [] [])
    [1; 0]%float 5 = Ok []
  /\ rank_vectors Np.stable_argsort example_store [1; 0]%float 0 = Ok []
  /\ exists rs, rank_vectors Np.stable_argsort example_store [1; 0]%float (-2) = Ok rs
                /\ List.length rs = 1.
Proof.
  pose proof (@rank_empty_cases Np.stable_argsort
                (mkEngine "aven_faq_vectors.json" [] [] [] [])
                [1; 0]%float 5 ArgsortFacts.stable_argsort_sorts) as (Hempty & _ & _).
  pose proof (@rank_empty_cases Np.stable_argsort example_store [1; 0]%float 0
                ArgsortFacts.stable_argsort_sorts) as (_ & Hzero & _).
  pose proof (@rank_empty_cases Np.stable_argsort example_store [1; 0]%float (-2)
                ArgsortFacts.stable_argsort_sorts) as (_ & _ & Hneg).
  split; [|split].
  - apply Hempty. reflexivity.
  - apply Hzero; reflexivity.
  - apply Hneg.
    + exact example_store_aligned.
    + vm_compute. reflexivity.
Defined.

(** *** Claim C1 *)

(** C1, refuted as stated: on the store of the worked example, with the
    insertion sort of the indices (which sorts the three similarities
    [1, 0, 1] into the index order [1, 0, 2]), the two records that tie are
    returned R2 first, R0 second. *)
Lemma example_store_order :
  top_indices Np.stable_argsort [1; 0; 1]%float 3 = [2; 0; 1]
  /\ rank_vectors Np.stable_argsort example_store [1; 0]%float 3
     = Ok [ mkResult 1 "R2" "A2" "S2" 1 100;
            mkResult 2 "R0" "A0" "S0" 1 100;
            mkResult 3 "R1" "A1" "S1" 0 0 ]
  /\ rank_vectors Np.stable_argsort example_store [1; 0]%float 3
     <> Ok [ mkResult 1 "R0" "A0" "S0" 1 100;
             mkResult 2 "R2" "A2" "S2" 1 100;
             mkResult 3 "R1" "A1" "S1" 0 0 ].
Proof.
  split; [|split].
  - vm_compute. reflexivity.
  - vm_compute. reflexivity.
  - vm_compute. discriminate.
Qed.

(** C1, amended.  The code has no tie-break of its own.  For every index
    sort that meets the specification of [np.argsort], the results are the
    records at [np.argsort(similarities)[::-1][:top_k]], and no result has a
    smaller similarity than a later one; the order of two records whose
    similarities are equal is the reverse of the order in which the index
    sort returns them, which the specification leaves open.  On the store
    of the worked example both orders are met: R2, R0, R1 with the sort
    that keeps equal keys in index order, and R0, R2, R1 with the sort that
    reverses them. *)
Theorem ties_follow_the_index_sort (argsort : list float -> list nat)
    (self : FAQSearchEngine) (q : list float) (top_k : Z) (sims : list float) :
  Np.sorts argsort ->
  aligned self ->
  similarities_of q (vectors self) = Ok sims ->
  rank_vectors argsort self q top_k
  = Ok (results_from self sims 0 (slice_to top_k (rev (argsort sims))))
  /\ (forall p p' i j,
        p < p' ->
        nth_error (slice_to top_k (rev (argsort sims))) p = Some i ->
        nth_error (slice_to top_k (rev (argsort sims))) p' = Some j ->
        Np.less (Np.key sims i) (Np.key sims j) = false)
  /\ (Np.sorts Np.stable_argsort
      /\ rank_vectors Np.stable_argsort example_store [1; 0]%float 3
         = Ok [ mkResult 1 "R2" "A2" "S2" 1 100;
                mkResult 2 "R0" "A0" "S0" 1 100;
                mkResult 3 "R1" "A1" "S1" 0 0 ])
  /\ (Np.sorts Np.reversing_argsort
      /\ rank_vectors Np.reversing_argsort example_store [1; 0]%float 3
         = Ok [ mkResult 1 "R0" "A0" "S0" 1 100;
                mkResult 2 "R2" "A2" "S2" 1 100;
                mkResult 3 "R1" "A1" "S1" 0 0 ]).
Proof.
  intros Hsorts Hal Hsims. split; [|split; [|split]].
  - apply rank_vectors_spec; assumption.
  - intros p p' i j Hlt Hi Hj.
    destruct (slice_to_firstn top_k (rev (argsort sims))) as [n Hn].
    rewrite Hn in Hi, Hj.
    apply ArgsortFacts.nth_error_firstn_Some in Hi, Hj.
    destruct Hi as [Hi _], Hj as [Hj _].
    exact (ArgsortFacts.ordered_pairs_nth
             (ArgsortFacts.ranked_descending Hsorts sims) Hlt Hi Hj).
  - split; [exact ArgsortFacts.stable_argsort_sorts|]. vm_compute. reflexivity.
  - split; [exact ArgsortFacts.reversing_argsort_sorts|]. vm_compute. reflexivity.
Qed.

Lemma ties_follow_the_index_sort_witness :
  rank_vectors Np.reversing_argsort example_store [1; 0]%float 2
  = Ok (results_from example_store [1; 0; 1]%float 0
          (slice_to 2 (rev (Np.reversing_argsort [1; 0; 1]%float))))
  /\ Np.less (Np.key [1; 0; 1]%float 0) (Np.key [1; 0; 1]%float 2) = false.
Proof.
  pose proof (@ties_follow_the_index_sort Np.reversing_argsort example_store
                [1; 0]%float 2 [1; 0; 1]%float
                ArgsortFacts.reversing_argsort_sorts example_store_aligned eq_refl)
    as (Hrank & Horder & _).
  split; [exact Hrank|].
  apply (Horder 0 1 0 2); [lia|reflexivity|reflexivity].
Defined.

(** *** Claim C7 *)







(** ** Batch embedding *)

Lemma range_step_eq (n : nat) :
  range 0 n batch_size = map (fun k => k * batch_size) (seq 0 ((n + 99) / 100)).
Proof.
  unfold range, batch_size. rewrite Nat.sub_0_r.
  replace (n + 100 - 1) with (n + 99) by lia. reflexivity.
Qed.

Lemma batches_eq (questions : list string) :
  batches questions
  = map (fun k => slice (k * batch_size) (k * batch_size + batch_size) questions)
        (seq 0 ((List.length questions + 99) / 100)).
Proof.
  unfold batches. rewrite range_step_eq, map_map. reflexivity.
Qed.

Lemma slice_shift {A} (step k : nat) (l : list A) :
  slice (S k * step) (S k * step + step) l
  = slice (k * step) (k * step + step) (skipn step l).
Proof.
  unfold slice. rewrite skipn_skipn.
  replace (S k * step + step - S k * step) with step by lia.
  replace (k * step + step - k * step) with step by lia.
  replace (k * step + step) with (S k * step) by lia. reflexivity.
Qed.

(** The batches, put end to end, are the questions: every text is sent
    once, in order. *)
Lemma chunks_concat {A} (step m : nat) (l : list A) :
  List.length l <= m * step ->
  List.concat (map (fun k => slice (k * step) (k * step + step) l) (seq 0 m)) = l.
Proof.
  revert l. induction m as [|m IH]; intros l Hlen; cbn [seq map List.concat].
  - destruct l; [reflexivity|cbn in Hlen; lia].
  - rewrite <- seq_shift, map_map.
    rewrite (map_ext _ (fun k => slice (k * step) (k * step + step) (skipn step l)));
      [|intros k; apply slice_shift].
    rewrite IH; [|rewrite length_skipn; lia].
    unfold slice. cbn [Nat.mul skipn]. rewrite Nat.add_0_l, Nat.sub_0_r.
    apply firstn_skipn.
Qed.

Lemma ceil_div_bound (n : nat) : n <= (n + 99) / 100 * 100.
Proof.
  pose proof (Nat.div_mod_eq (n + 99) 100) as H.
  pose proof (Nat.mod_upper_bound (n + 99) 100) as Hm. lia.
Qed.

Lemma batches_concat (questions : list string) :
  List.concat (batches questions) = questions.
Proof.
  rewrite batches_eq. apply chunks_concat. apply ceil_div_bound.
Qed.

Lemma batches_sizes (questions : list string) :
  Forall (fun b => 1 <= List.length b <= batch_size) (batches questions).
Proof.
  rewrite batches_eq. apply Forall_forall. intros b Hb.
  apply in_map_iff in Hb. destruct Hb as (k & <- & Hk).
  apply in_seq in Hk. unfold slice. rewrite length_firstn, length_skipn.
  pose proof (Nat.div_mod_eq (List.length questions + 99) 100) as H.
  pose proof (Nat.mod_upper_bound (List.length questions + 99) 100) as Hm.
  unfold batch_size. lia.
Qed.

Lemma length_batch_outputs
    (embeddings_create : nat -> string -> list string -> result (list (list float)))
    (model : string) (c : nat) (bs : list (list string)) :
  (forall k batch data,
     embeddings_create k model batch = Ok data ->
     List.length data = List.length batch) ->
  List.length (List.concat (batch_outputs embeddings_create model c bs))
  = List.length (List.concat bs).
Proof.
  intros Hlen. revert c. induction bs as [|b bs IH]; intros c; cbn; [reflexivity|].
  rewrite !length_app, IH. f_equal. unfold batch_output.
  destruct (embeddings_create c model b) as [data|e] eqn:Hc.
  - eapply Hlen; eassumption.
  - apply repeat_length.
Qed.

Lemma failed_batches_log
    (embeddings_create : nat -> string -> list string -> result (list (list float)))
    (model : string) (succeeded : nat -> list string -> out_event)
    (c k : nat) (bs : list (list string)) :
  (forall k b, is_batch_error (succeeded k b) = false) ->
  List.length (filter is_batch_error
                 (batch_log embeddings_create model succeeded c k bs))
  = failed_batches embeddings_create model c bs.
Proof.
  intros Hok. revert c k. induction bs as [|b bs IH]; intros c k; cbn; [reflexivity|].
  destruct (embeddings_create c model b); cbn; rewrite ?Hok, IH; reflexivity.
Qed.

Section BatchEmbedding.

Variable embeddings_create : nat -> string -> list string -> result (list (list float)).
Variable model : string.

(** The provider fails with ordinary exceptions only. *)
Hypothesis provider_exceptions :
  forall k batch e, embeddings_create k model batch = Raise e -> is_Exception e = true.

Lemma embed_batch_step (n : nat) :
  batch_step embeddings_create model
    (fun k _ => EmbeddedBatch (k + 1) ((n + batch_size - 1) / batch_size))
    (embed_batch embeddings_create n model).
Proof.
  intros k batch w.
  unfold embed_batch, try_except_Exception, bind, client_embeddings_create, batch_output.
  rewrite Nat.div_mul by (unfold batch_size; lia).
  destruct (embeddings_create (List.length (requests w)) model batch) as [data|e] eqn:Hc;
    cbn.
  - reflexivity.
  - rewrite (@provider_exceptions _ _ _ Hc). reflexivity.
Qed.

Lemma embed_batch_enhanced_step (n : nat) :
  batch_step embeddings_create model
    (fun k b => EmbeddedBatchOf (k + 1) ((n + batch_size - 1) / batch_size)
                  (List.length b))
    (embed_batch_enhanced embeddings_create n model).
Proof.
  intros k batch w.
  unfold embed_batch_enhanced, try_except_Exception, bind, client_embeddings_create,
    batch_output.
  rewrite Nat.div_mul by (unfold batch_size; lia).
  destruct (embeddings_create (List.length (requests w)) model batch) as [data|e] eqn:Hc;
    cbn.
  - reflexivity.
  - rewrite (@provider_exceptions _ _ _ Hc). reflexivity.
Qed.

Lemma for_batches_spec (succeeded : nat -> list string -> out_event)
    (body : nat -> list string -> M (list (list float)))
    (questions : list string) (m k : nat)
    (embeddings : list (list float)) (w : world) :
  batch_step embeddings_create model succeeded body ->
  let bs := map (fun k => slice (k * batch_size) (k * batch_size + batch_size) questions)
                (seq k m) in
  for_batches body questions (map (fun k => k * batch_size) (seq k m)) embeddings w
  = (Ok (embeddings
         ++ List.concat (batch_outputs embeddings_create model (List.length (requests w)) bs)),
     mkWorld (stdin w)
       (stdout w ++ batch_log embeddings_create model succeeded
                      (List.length (requests w)) k bs)
       (requests w ++ map (pair model) bs)).
Proof.
  intros Hbody. revert k embeddings w.
  induction m as [|m IH]; intros k embeddings w; cbn.
  - unfold ret. rewrite !app_nil_r. destruct w; reflexivity.
  - unfold bind at 1. rewrite Hbody. rewrite IH. cbn.
    rewrite length_app. cbn. rewrite Nat.add_1_r.
    rewrite <- !app_assoc. reflexivity.
Qed.

End BatchEmbedding.

Lemma zero_embedding_shape :
  List.length zero_embedding = 1536 /\ Forall (fun x => x = 0%float) zero_embedding.
Proof.
  unfold zero_embedding. split; [apply repeat_length|].
  apply Forall_forall. intros x Hx. eapply repeat_spec. eassumption.
Qed.

(** *** Claim C9 *)

Lemma create_embeddings_returns
    (embeddings_create : nat -> string -> list string -> result (list (list float)))
    (model : string) (questions : list string) (w : world) :
  (forall k batch e, embeddings_create k model batch = Raise e -> is_Exception e = true) ->
  create_embeddings embeddings_create questions model w
  = (Ok (List.concat (batch_outputs embeddings_create model (List.length (requests w))
                        (batches questions))),
     mkWorld (stdin w)
       (stdout w ++ batch_log embeddings_create model
          (fun k _ => EmbeddedBatch (k + 1)
                        ((List.length questions + batch_size - 1) / batch_size))
          (List.length (requests w)) 0 (batches questions))
       (requests w ++ map (pair model) (batches questions))).
Proof.
  intros Hexn. unfold create_embeddings. rewrite range_step_eq.
  rewrite (for_batches_spec questions _ 0 [] w
             (embed_batch_step embeddings_create model Hexn (List.length questions))).
  rewrite batches_eq. reflexivity.
Qed.

Lemma zero_answering_outputs
    (embeddings_create : nat -> string -> list string -> result (list (list float)))
    (model : string) (c : nat) (bs : list (list string)) :
  batch_outputs (zero_answering embeddings_create) model c bs
  = batch_outputs embeddings_create model c bs.
Proof.
  revert c. induction bs as [|b bs IH]; intros c; cbn; [reflexivity|].
  rewrite IH. f_equal. unfold batch_output, zero_answering.
  destruct (embeddings_create c model b); reflexivity.
Qed.

(** C9, refuted as stated.  The zero vector has 1536 entries, not the
    dimension of the provider's vectors: with a provider whose first
    request fails and whose later answers are vectors of two numbers, a
    hundred and one questions give a hundred vectors of 1536 zeros followed
    by one vector of two numbers.  And the caller is not told: the list
    returned for three texts whose request fails is the list returned when
    the provider answers that request with zero vectors. *)
Lemma zero_vectors_have_1536_entries :
  fst (create_embeddings flaky_provider many_questions "text-embedding-3-small"
         fresh_world)
  = Ok (repeat zero_embedding 100 ++ [[1; 0]%float])
  /\ List.length zero_embedding = 1536
  /\ List.length [1; 0]%float = 2
  /\ fst (create_embeddings flaky_provider ["q1"; "q2"; "q3"]%string
            "text-embedding-3-small" fresh_world)
     = fst (create_embeddings (zero_answering flaky_provider) ["q1"; "q2"; "q3"]%string
              "text-embedding-3-small" fresh_world).
Proof.
  split; [|split; [|split]].
  - vm_compute. reflexivity.
  - apply zero_embedding_shape.
  - reflexivity.
  - vm_compute. reflexivity.
Qed.

(** C9, amended.  For a provider that fails with ordinary exceptions and
    that answers a batch it accepts with one vector per text, both versions
    of [create_embeddings] return, without raising, the list [out] that has
    one vector per question: the questions are sent in order in batches of
    1 to 100 texts, a batch that is embedded contributes the provider's
    vectors, and a batch that fails contributes, per text, the vector of
    1536 zeros, whatever the length of the provider's vectors.  A failed
    batch is reported by one error message printed on standard output and
    in no other way: the list returned is the one returned when the
    provider answers the failed batches with such zero vectors.  In
    particular three texts whose request fails give three vectors of 1536
    zeros and one error message. *)
Theorem create_embeddings_zero_fills
    (embeddings_create : nat -> string -> list string -> result (list (list float)))
    (model : string) (questions : list string) (w : world) :
  (forall k batch e, embeddings_create k model batch = Raise e -> is_Exception e = true) ->
  (forall k batch data,
     embeddings_create k model batch = Ok data ->
     List.length data = List.length batch) ->
  let c := List.length (requests w) in
  let sent := requests w ++ map (pair model) (batches questions) in
  let out := List.concat (batch_outputs embeddings_create model c (batches questions)) in
  (exists log,
     create_embeddings embeddings_create questions model w
     = (Ok out, mkWorld (stdin w) (stdout w ++ log) sent)
     /\ List.length (filter is_batch_error log)
        = failed_batches embeddings_create model c (batches questions))
  /\ (exists log,
     create_embeddings_enhanced embeddings_create questions model w
     = (Ok out, mkWorld (stdin w) (stdout w ++ log) sent)
     /\ List.length (filter is_batch_error log)
        = failed_batches embeddings_create model c (batches questions))
  /\ List.length out = List.length questions
  /\ List.concat (batches questions) = questions
  /\ Forall (fun b => 1 <= List.length b <= batch_size) (batches questions)
  /\ (forall k b e,
        embeddings_create k model b = Raise e ->
        batch_output embeddings_create model k b
        = repeat zero_embedding (List.length b))
  /\ (List.length zero_embedding = 1536
      /\ Forall (fun x => x = 0%float) zero_embedding)
  /\ fst (create_embeddings (zero_answering embeddings_create) questions model w)
     = Ok out
  /\ (forall q1 q2 q3 e,
        questions = [q1; q2; q3] ->
        embeddings_create c model [q1; q2; q3] = Raise e ->
        create_embeddings embeddings_create questions model w
        = (Ok [zero_embedding; zero_embedding; zero_embedding],
           mkWorld (stdin w) (stdout w ++ [ErrorEmbeddingBatch 1 e])
             (requests w ++ [(model, [q1; q2; q3])]))).
Proof.
  intros Hexn Hlen c sent out.
  pose proof (create_embeddings_returns embeddings_create model questions w Hexn)
    as Hfirst.
  fold c in Hfirst. fold out in Hfirst. fold sent in Hfirst.
  split; [|split; [|split; [|split; [|split; [|split; [|split; [|split]]]]]]].
  - eexists. split; [exact Hfirst|].
    apply failed_batches_log. reflexivity.
  - eexists. split.
    + unfold create_embeddings_enhanced. unfold bind at 1. cbn [print].
      rewrite range_step_eq.
      rewrite (for_batches_spec questions _ 0 [] _
                 (embed_batch_enhanced_step embeddings_create model Hexn
                    (List.length questions))).
      cbn [stdin stdout requests]. rewrite <- batches_eq, <- app_assoc.
      reflexivity.
    + cbn [filter is_batch_error]. apply failed_batches_log. reflexivity.
  - subst out. rewrite (@length_batch_outputs _ _ _ _ Hlen), batches_concat.
    reflexivity.
  - apply batches_concat.
  - apply batches_sizes.
  - intros k b e Hfail. unfold batch_output. rewrite Hfail. reflexivity.
  - apply zero_embedding_shape.
  - rewrite create_embeddings_returns.
    + cbn [fst]. rewrite zero_answering_outputs. reflexivity.
    + intros k batch e. unfold zero_answering.
      destruct (embeddings_create k model batch); discriminate.
  - intros q1 q2 q3 e -> Hfail. rewrite Hfirst. subst out sent c.
    change (batches [q1; q2; q3]) with [[q1; q2; q3]].
    cbn [batch_outputs batch_log List.concat map]. unfold batch_output.
    rewrite Hfail. reflexivity.
Qed.

Lemma create_embeddings_zero_fills_witness :
  create_embeddings flaky_provider ["q1"; "q2"; "q3"]%string "text-embedding-3-small"
    fresh_world
  = (Ok [zero_embedding; zero_embedding; zero_embedding],
     mkWorld [] [ErrorEmbeddingBatch 1 (APIError "rate limit")]
       [("text-embedding-3-small"%string, ["q1"; "q2"; "q3"]%string)])
  /\ List.length zero_embedding = 1536
  /\ Forall (fun x => x = 0%float) zero_embedding.
Proof.
  assert (Hexn : forall k batch e,
            flaky_provider k "text-embedding-3-small" batch = Raise e ->
            is_Exception e = true).
  { intros k batch e. unfold flaky_provider.
    destruct (Nat.eqb k 0); intros H; [injection H as <-; reflexivity|discriminate]. }
  assert (Hlen : forall k batch data,
            flaky_provider k "text-embedding-3-small" batch = Ok data ->
            List.length data = List.length batch).
  { intros k batch data. unfold flaky_provider.
    destruct (Nat.eqb k 0); intros H; [discriminate|].
    injection H as <-. apply length_map. }
  pose proof (@create_embeddings_zero_fills flaky_provider "text-embedding-3-small"
                ["q1"; "q2"; "q3"]%string fresh_world Hexn Hlen) as H.
  cbv zeta in H. destruct H as (_ & _ & _ & _ & _ & _ & Hzero & _ & H).
  split; [exact (H _ _ _ _ eq_refl eq_refl)|exact Hzero].
Defined.

(** ** [search]: embedding, then ranking *)

Lemma search_after_embed (argsort : list float -> list nat)
    (embeddings_create : nat -> string -> list string -> result (list (list float)))
    (self : FAQSearchEngine) (query : string) (top_k : Z) (w : world) :
  search argsort embeddings_create self query top_k w
  = match embed_query embeddings_create query w with
    | (Ok query_embedding, w') => (rank_vectors argsort self query_embedding top_k, w')
    | (Raise e, w') => (Raise e, w')
    end.
Proof. reflexivity. Qed.

(** *** Claim C6 *)

(** C6.  The result of [search] is a function of the query vector, the
    engine and [top_k] alone: whatever the provider, the query text and the
    state of the world, two calls whose queries are embedded to the same
    vector return the same list, with the same order and the same scores, and
    that list is [rank_vectors] of the vector. *)
Theorem search_deterministic (argsort : list float -> list nat)
    (provider1 provider2 : nat -> string -> list string -> result (list (list float)))
    (self : FAQSearchEngine) (query1 query2 : string) (top_k : Z)
    (w1 w2 w1' w2' : world) (query_embedding : list float) :
  embed_query provider1 query1 w1 = (Ok query_embedding, w1') ->
  embed_query provider2 query2 w2 = (Ok query_embedding, w2') ->
  fst (search argsort provider1 self query1 top_k w1)
  = fst (search argsort provider2 self query2 top_k w2)
  /\ fst (search argsort provider1 self query1 top_k w1)
     = rank_vectors argsort self query_embedding top_k.
Proof.
  intros H1 H2. rewrite !search_after_embed, H1, H2. split; reflexivity.
Qed.

Lemma search_deterministic_witness :
  fst (search Np.stable_argsort constant_provider example_store "how do I pay"%string 3 fresh_world)
  = fst (search Np.stable_argsort flaky_provider example_store "payments"%string 3
           (mkWorld [] [Banner] [("text-embedding-3-small"%string, ["hello"%string])]))
  /\ fst (search Np.stable_argsort constant_provider example_store "how do I pay"%string 3
            fresh_world)
     = rank_vectors Np.stable_argsort example_store [1; 0]%float 3.
Proof.
  eapply (@search_deterministic Np.stable_argsort constant_provider flaky_provider example_store);
    reflexivity.
Defined.

(** *** Claim C8 *)

(** C8.  When the request for the embedding of the query fails with [e],
    [search] raises [e] itself, after the one request and (for an ordinary
    exception) the one error message of [embed_query]; the result is never
    a list, empty or not. *)
Theorem search_propagates_embedding_error (argsort : list float -> list nat)
    (embeddings_create : nat -> string -> list string -> result (list (list float)))
    (self : FAQSearchEngine) (query : string) (top_k : Z) (w : world) (e : exn) :
  embeddings_create (List.length (requests w)) "text-embedding-3-small"%string [query] = Raise e ->
  search argsort embeddings_create self query top_k w
  = (Raise e,
     mkWorld (stdin w)
       (stdout w ++ if is_Exception e then [ErrorEmbeddingQuery e] else [])
       (requests w ++ [("text-embedding-3-small"%string, [query])]))
  /\ forall rs, fst (search argsort embeddings_create self query top_k w) <> Ok rs.
Proof.
  intros Hfail.
  assert (H : search argsort embeddings_create self query top_k w
              = (Raise e,
                 mkWorld (stdin w)
                   (stdout w ++ if is_Exception e then [ErrorEmbeddingQuery e] else [])
                   (requests w ++ [("text-embedding-3-small"%string, [query])]))).
  { unfold search, bind, embed_query, try_except_Exception, bind,
      client_embeddings_create.
    rewrite Hfail. destruct (is_Exception e); cbn; [reflexivity|].
    rewrite app_nil_r. reflexivity. }
  split; [exact H|]. intros rs. rewrite H. discriminate.
Qed.

Lemma search_propagates_embedding_error_witness :
  search Np.stable_argsort flaky_provider example_store "payments"%string 3 fresh_world
  = (Raise (APIError "rate limit"),
     mkWorld [] [ErrorEmbeddingQuery (APIError "rate limit")]
       [("text-embedding-3-small"%string, ["payments"%string])])
  /\ forall rs,
       fst (search Np.stable_argsort flaky_provider example_store "payments"%string 3
              fresh_world)
       <> Ok rs.
Proof.
  apply (@search_propagates_embedding_error Np.stable_argsort flaky_provider example_store
           "payments"%string 3 fresh_world (APIError "rate limit")).
  reflexivity.
Defined.

(** ** Loading the vectors file *)

Lemma comprehension_total {A B} (f : A -> result B) (g : A -> B) (xs : list A) :
  (forall x, In x xs -> f x = Ok (g x)) -> comprehension f xs = Ok (map g xs).
Proof.
  induction xs as [|x xs IH]; intros H; cbn; [reflexivity|].
  rewrite (H x (or_introl eq_refl)). cbn.
  rewrite IH; [reflexivity|]. intros y Hy. apply H. right. assumption.
Qed.

Lemma comprehension_values_missing (data : list item_json) :
  Exists (fun item => item_values item = None) data ->
  comprehension (fun item => lookup "values" (item_values item)) data
  = Raise (KeyError "values").
Proof.
  induction 1 as [item rest Hnone|item rest _ IH]; cbn.
  - rewrite Hnone. reflexivity.
  - destruct (item_values item); cbn; [|reflexivity].
    rewrite IH. reflexivity.
Qed.

Lemma complete_fields (item : item_json) :
  complete item = true ->
  lookup "values" (item_values item) = Ok (values_of item)
  /\ metadata_field "question" m_question item = Ok (field_of m_question item)
  /\ metadata_field "answer" m_answer item = Ok (field_of m_answer item)
  /\ metadata_field "section" m_section item = Ok (field_of m_section item).
Proof.
  unfold complete, metadata_field, values_of, field_of.
  destruct (item_values item); [|discriminate].
  destruct (item_metadata item) as [md|]; [|discriminate].
  cbn. destruct (m_question md); [|discriminate].
  destruct (m_answer md); [|discriminate].
  destruct (m_section md); [|discriminate].
  intros _. cbn. repeat split; reflexivity.
Qed.

(** *** Claim C5 *)

(** C5, refuted as stated: a snapshot whose embeddings have lengths 2 and 1
    is loaded without an error, and the engine holds both records. *)
Lemma ragged_snapshot_loads :
  load_vectors (fun _ => Ok ragged_snapshot) (new_engine "aven_faq_vectors.json")
    fresh_world
  = (Ok tt,
     mkEngine "aven_faq_vectors.json" [[1; 0]; [1]]%float
       ["Q0"; "Q1"]%string ["A0"; "A1"]%string ["S0"; "S1"]%string,
     mkWorld [] [LoadedVectors 2] [])
  /\ fst (fst (load_vectors (fun _ => Ok ragged_snapshot)
                 (new_engine "aven_faq_vectors.json") fresh_world))
     <> Raise (KeyError "values").
Proof.
  split.
  - reflexivity.
  - cbn. discriminate.
Qed.

(** C5, amended.  When an entry of the snapshot lacks its embedding, the
    load fails with [KeyError] on the key [values], the four lists of the
    engine are left as they were, and [__init__] gives no engine.  When
    every entry has its keys, the load succeeds and keeps every entry, in
    order, whatever the lengths of the embeddings are: the lengths are not
    compared at load time. *)
Theorem load_vectors_all_or_nothing
    (read_json : string -> result (list item_json))
    (self : FAQSearchEngine) (data : list item_json) (w : world) :
  read_json (vectors_file self) = Ok data ->
  (Exists (fun item => item_values item = None) data ->
   load_vectors read_json self w
   = (Raise (KeyError "values"), self,
      mkWorld (stdin w) (stdout w ++ [ErrorLoadingVectors (KeyError "values")])
        (requests w))
   /\ forall c key,
        fst (init read_json (vectors_file self) (Some (String c key)) w)
        = Raise (KeyError "values"))
  /\ (forallb complete data = true ->
      let loaded :=
        mkEngine (vectors_file self) (map values_of data)
          (map (field_of m_question) data) (map (field_of m_answer) data)
          (map (field_of m_section) data) in
      load_vectors read_json self w
      = (Ok tt, loaded,
         mkWorld (stdin w) (stdout w ++ [LoadedVectors (List.length data)]) (requests w))
      /\ aligned loaded
      /\ List.length (vectors loaded) = List.length data).
Proof.
  intros Hread. split.
  - intros Hmissing.
    assert (Hload : forall self0, vectors_file self0 = vectors_file self ->
              load_vectors read_json self0 w
              = (Raise (KeyError "values"), self0,
                 mkWorld (stdin w)
                   (stdout w ++ [ErrorLoadingVectors (KeyError "values")])
                   (requests w))).
    { intros self0 Hfile. unfold load_vectors. rewrite Hfile, Hread.
      rewrite (comprehension_values_missing Hmissing). reflexivity. }
    split; [apply Hload; reflexivity|].
    intros c key. unfold init. rewrite Hload; reflexivity.
  - intros Hcomplete loaded.
    assert (Hall : forall item, In item data -> complete item = true).
    { apply forallb_forall. assumption. }
    split; [|split].
    + unfold load_vectors. rewrite Hread.
      rewrite (comprehension_total _ values_of data)
        by (intros x Hx; apply (complete_fields x (Hall x Hx))).
      rewrite (comprehension_total _ (field_of m_question) data)
        by (intros x Hx; apply (complete_fields x (Hall x Hx))).
      rewrite (comprehension_total _ (field_of m_answer) data)
        by (intros x Hx; apply (complete_fields x (Hall x Hx))).
      rewrite (comprehension_total _ (field_of m_section) data)
        by (intros x Hx; apply (complete_fields x (Hall x Hx))).
      cbn. rewrite length_map. reflexivity.
    + unfold aligned, loaded. cbn. rewrite !length_map. repeat split.
    + unfold loaded. cbn. apply length_map.
Qed.

Lemma load_vectors_all_or_nothing_witness :
  load_vectors (fun _ => Ok holed_snapshot) example_store fresh_world
  = (Raise (KeyError "values"), example_store,
     mkWorld [] [ErrorLoadingVectors (KeyError "values")] [])
  /\ forall c key,
       fst (init (fun _ => Ok holed_snapshot) "aven_faq_vectors.json"
              (Some (String c key)) fresh_world)
       = Raise (KeyError "values").
Proof.
  apply (@load_vectors_all_or_nothing (fun _ => Ok holed_snapshot) example_store
           holed_snapshot fresh_world eq_refl).
  apply Exists_cons_tl. apply Exists_cons_hd. reflexivity.
Defined.

(** ** The interactive loop *)

Lemma print_results_spec (results : list search_result) (w : world) :
  print_results results w
  = (Ok tt, mkWorld (stdin w) (stdout w ++ map ResultBlock results) (requests w)).
Proof.
  revert w. induction results as [|r rest IH]; intros w; cbn.
  - unfold ret. rewrite app_nil_r. destruct w; reflexivity.
  - unfold bind, print. rewrite IH. cbn. rewrite <- app_assoc. reflexivity.
Qed.

Lemma strip_empty_not_sentinel (line : string) :
  strip line = EmptyString -> str_in (lower (strip line)) sentinels = false.
Proof. intros ->. reflexivity. Qed.

(** *** Claim C10 *)

(** C10.  One turn of the loop on an input line.  The line is stripped, and
    the stripped line, lower-cased, is compared with [quit], [exit] and [q].
    A line that is empty once stripped only shows the prompt: nothing else
    is printed, no request is sent, and the loop goes on with the next
    line.  A line whose stripped, lower-cased text is a sentinel ends the
    loop after the goodbye message.  Any other line sends the request that
    embeds the stripped line. *)
Theorem interactive_loop_turn (argsort : list float -> list nat)
    (embeddings_create : nat -> string -> list string -> result (list (list float)))
    (self : FAQSearchEngine) (w : world) (line : string) (rest : list stdin_event) :
  stdin w = Line line :: rest ->
  let prompted := mkWorld rest (stdout w ++ [Prompt]) (requests w) in
  let farewell := mkWorld rest (stdout w ++ [Prompt; Goodbye]) (requests w) in
  (strip line = EmptyString ->
   loop_body argsort embeddings_create self w = (Ok Continue, prompted)
   /\ forall fuel,
        while_True argsort embeddings_create (S fuel) self w
        = while_True argsort embeddings_create fuel self prompted)
  /\ (str_in (lower (strip line)) sentinels = true ->
      loop_body argsort embeddings_create self w = (Ok Break, farewell)
      /\ forall fuel,
           while_True argsort embeddings_create (S fuel) self w = Some (Ok tt, farewell))
  /\ (str_in (lower (strip line)) sentinels = false ->
      strip line <> EmptyString ->
      requests (snd (loop_body argsort embeddings_create self w))
      = requests w ++ [("text-embedding-3-small"%string, [strip line])]).
Proof.
  intros Hin prompted farewell.
  assert (Hinput : input w = (Ok line, prompted)).
  { unfold input. rewrite Hin. reflexivity. }
  split; [|split].
  - intros Hblank.
    assert (Hbody : loop_body argsort embeddings_create self w = (Ok Continue, prompted)).
    { unfold loop_body, loop_try, bind. rewrite Hinput.
      fold sentinels. rewrite (strip_empty_not_sentinel _ Hblank), Hblank.
      reflexivity. }
    split; [exact Hbody|]. intros fuel. cbn. rewrite Hbody. reflexivity.
  - intros Hquit.
    assert (Hbody : loop_body argsort embeddings_create self w = (Ok Break, farewell)).
    { unfold loop_body, loop_try, bind. rewrite Hinput.
      fold sentinels. rewrite Hquit. unfold print, ret, farewell. cbn.
      rewrite <- app_assoc. reflexivity. }
    split; [exact Hbody|]. intros fuel. cbn. rewrite Hbody. reflexivity.
  - intros Hnot Hfull.
    assert (Heqb : String.eqb (strip line) EmptyString = false).
    { apply String.eqb_neq. assumption. }
    unfold loop_body, loop_try. unfold bind at 1. rewrite Hinput.
    fold sentinels. rewrite Hnot, Heqb.
    unfold bind at 1. cbn [print]. unfold bind at 1.
    rewrite search_after_embed.
    unfold embed_query, try_except_Exception, bind at 3, client_embeddings_create.
    subst prompted. cbn.
    match goal with
    | |- context [embeddings_create ?c ?m ?texts] =>
        destruct (embeddings_create c m texts) as [data|e]
    end; cbn.
    + destruct data as [|v data]; cbn.
      * reflexivity.
      * destruct (rank_vectors argsort self v 3) as [[|r rs]|e]; cbn;
          rewrite ?print_results_spec; cbn; try reflexivity.
        destruct e; reflexivity.
    + destruct e; reflexivity.
Qed.

Lemma interactive_loop_turn_witness :
  (loop_body Np.stable_argsort constant_provider example_store two_lines
   = (Ok Continue, mkWorld [Line "  QuIt "] [Prompt] [])
   /\ forall fuel,
        while_True Np.stable_argsort constant_provider (S fuel) example_store two_lines
        = while_True Np.stable_argsort constant_provider fuel example_store
            (mkWorld [Line "  QuIt "] [Prompt] []))
  /\ (loop_body Np.stable_argsort constant_provider example_store
        (mkWorld [Line "  QuIt "] [Prompt] [])
      = (Ok Break, mkWorld [] [Prompt; Prompt; Goodbye] [])
      /\ forall fuel,
           while_True Np.stable_argsort constant_provider (S fuel) example_store
             (mkWorld [Line "  QuIt "] [Prompt] [])
           = Some (Ok tt, mkWorld [] [Prompt; Prompt; Goodbye] [])).
Proof.
  pose proof (@interactive_loop_turn Np.stable_argsort constant_provider example_store two_lines
                blank_line [Line "  QuIt "] eq_refl) as (Hblank & _ & _).
  pose proof (@interactive_loop_turn Np.stable_argsort constant_provider example_store
                (mkWorld [Line "  QuIt "] [Prompt] []) "  QuIt " [] eq_refl)
    as (_ & Hquit & _).
  split.
  - apply Hblank. reflexivity.
  - apply Hquit. reflexivity.
Defined.

(** A whole session: a blank line, a question, a sentinel. *)
Lemma session_example :
  interactive_search Np.stable_argsort constant_provider 5 example_store
    (mkWorld [Line blank_line; Line " refunds "; Line "Q"] [] [])
  = Some (Ok tt,
          mkWorld []
            [ Banner; Prompt; Prompt; SearchingFor "refunds";
              ResultBlock (mkResult 1 "R2" "A2" "S2" 1 100);
              ResultBlock (mkResult 2 "R0" "A0" "S0" 1 100);
              ResultBlock (mkResult 3 "R1" "A1" "S1" 0 0);
              BlankLine; Prompt; Goodbye ]
            [("text-embedding-3-small"%string, ["refunds"%string])]).
Proof. vm_compute. reflexivity. Qed.

(** * Further properties of the search engine *)

(** ** The shape of a ranking *)

Lemma getitem_inv {A} (xs : list A) (idx : nat) (x d : A) :
  getitem xs idx = Ok x -> x = nth idx xs d /\ idx < List.length xs.
Proof.
  unfold getitem. destruct (nth_error xs idx) as [y|] eqn:Hy; [|discriminate].
  intros H. injection H as <-. split.
  - symmetry. apply nth_error_nth. assumption.
  - apply nth_error_Some. congruence.
Qed.

Lemma build_results_inv (self : FAQSearchEngine) (sims : list float)
    (idxs : list nat) (acc rs : list search_result) :
  build_results self sims idxs acc = Ok rs ->
  rs = acc ++ results_from self sims (List.length acc) idxs.
Proof.
  revert acc. induction idxs as [|i idxs IH]; intros acc H; cbn in H |- *.
  - injection H as <-. rewrite app_nil_r. reflexivity.
  - destruct (getitem (questions self) i) as [q|] eqn:Hq; [|discriminate].
    destruct (getitem (answers self) i) as [a|] eqn:Ha; [|discriminate].
    destruct (getitem (sections self) i) as [s|] eqn:Hs; [|discriminate].
    destruct (getitem sims i) as [sim|] eqn:Hsim; [|discriminate].
    cbn in H. apply IH in H. subst rs.
    apply (getitem_inv _ _ EmptyString) in Hq, Ha, Hs.
    apply (getitem_inv _ _ 0%float) in Hsim.
    destruct Hq as [-> _], Ha as [-> _], Hs as [-> _], Hsim as [-> _].
    rewrite <- app_assoc, length_app. cbn. unfold result_at.
    rewrite !Nat.add_1_r. reflexivity.
Qed.

Lemma rank_vectors_inv (argsort : list float -> list nat) (self : FAQSearchEngine)
    (q : list float) (k : Z) (rs : list search_result) :
  rank_vectors argsort self q k = Ok rs ->
  let sims := map (score q) (vectors self) in
  forallb (compatible q) (vectors self) = true
  /\ rs = results_from self sims 0 (top_indices argsort sims k).
Proof.
  unfold rank_vectors. intros H.
  destruct (similarities_of q (vectors self)) as [sims|e] eqn:Hsims; [|discriminate].
  cbn in H. apply build_results_inv in H.
  apply similarities_of_inv in Hsims. destruct Hsims as [Hc ->].
  split; assumption.
Qed.

Lemma results_from_nth (self : FAQSearchEngine) (sims : list float)
    (idxs : list nat) (pos p : nat) (r : search_result) :
  nth_error (results_from self sims pos idxs) p = Some r ->
  exists i, nth_error idxs p = Some i /\ r = result_at self sims (pos + p) i.
Proof.
  revert pos p. induction idxs as [|i idxs IH]; intros pos p H; cbn in H.
  - destruct p; discriminate.
  - destruct p as [|p]; cbn in H |- *.
    + injection H as <-. exists i. rewrite Nat.add_0_r. split; reflexivity.
    + apply IH in H. destruct H as (j & Hj & ->). exists j.
      replace (pos + S p) with (S pos + p) by lia. split; [assumption|reflexivity].
Qed.

(** X1.  Whenever the ranking succeeds, the results are numbered 1, 2, ...
    in the order returned, and the similarity never increases down the
    list: no result has a score smaller than that of a later result.  This
    holds for every index sort that meets the specification of
    [np.argsort]. *)
Theorem ranking_is_descending (argsort : list float -> list nat)
    (self : FAQSearchEngine) (q : list float) (top_k : Z)
    (rs : list search_result) :
  Np.sorts argsort ->
  rank_vectors argsort self q top_k = Ok rs ->
  forall p p' r r',
    p < p' -> nth_error rs p = Some r -> nth_error rs p' = Some r' ->
    rank r = p + 1 /\ rank r' = p' + 1
    /\ Np.less (similarity_score r) (similarity_score r') = false.
Proof.
  intros Hsorts Hrank p p' r r' Hlt Hr Hr'.
  apply rank_vectors_inv in Hrank. cbv zeta in Hrank. destruct Hrank as [_ ->].
  apply results_from_nth in Hr, Hr'.
  destruct Hr as (i & Hi & ->), Hr' as (j & Hj & ->).
  split; [reflexivity|]. split; [reflexivity|]. cbn.
  unfold top_indices in Hi, Hj.
  destruct (slice_to_firstn top_k (rev (argsort (map (score q) (vectors self)))))
    as [n Hn].
  rewrite Hn in Hi, Hj.
  apply ArgsortFacts.nth_error_firstn_Some in Hi, Hj.
  destruct Hi as [Hi _], Hj as [Hj _].
  exact (ArgsortFacts.ordered_pairs_nth
           (ArgsortFacts.ranked_descending Hsorts _) Hlt Hi Hj).
Qed.

Lemma ranking_is_descending_witness :
  rank (mkResult 1 "R2" "A2" "S2" 1 100) = 0 + 1
  /\ rank (mkResult 3 "R1" "A1" "S1" 0 0) = 2 + 1
  /\ Np.less (similarity_score (mkResult 1 "R2" "A2" "S2" 1 100))
       (similarity_score (mkResult 3 "R1" "A1" "S1" 0 0)) = false.
Proof.
  apply (@ranking_is_descending Np.stable_argsort example_store [1; 0]%float 3
           [ mkResult 1 "R2" "A2" "S2" 1 100;
             mkResult 2 "R0" "A0" "S0" 1 100;
             mkResult 3 "R1" "A1" "S1" 0 0 ]).
  - exact ArgsortFacts.stable_argsort_sorts.
  - vm_compute. reflexivity.
  - lia.
  - reflexivity.
  - reflexivity.
Defined.

(** ** Vectors that fail the validation *)

Lemma cosine_similarity_incompatible (q v : list float) :
  compatible q v = false -> Sk.cosine_similarity q v = Raise ValueError.
Proof.
  unfold compatible, Sk.cosine_similarity.
  destruct (Sk.check_array q); [|reflexivity].
  destruct (Sk.check_array v); [|reflexivity].
  destruct (Nat.eqb (List.length q) (List.length v)); [discriminate|reflexivity].
Qed.

Lemma similarities_of_incompatible (q : list float) (vs : list (list float)) :
  forallb (compatible q) vs = false -> similarities_of q vs = Raise ValueError.
Proof.
  unfold similarities_of. induction vs as [|v vs IH]; cbn; [discriminate|].
  destruct (compatible q v) eqn:Hv; cbn.
  - intros Hvs. rewrite (cosine_similarity_compatible _ _ Hv). cbn.
    rewrite (IH Hvs). reflexivity.
  - intros _. rewrite (cosine_similarity_incompatible _ _ Hv). reflexivity.
Qed.

(** X2.  One stored vector that fails the validation against the query (a
    different length, no entry, or an entry that is not finite) makes the
    whole query fail with [ValueError], whatever [top_k] is and wherever
    the vector would have been ranked; once the query is embedded, [search]
    raises that error and returns no partial list. *)
Theorem invalid_vector_fails_query (argsort : list float -> list nat)
    (embeddings_create : nat -> string -> list string -> result (list (list float)))
    (self : FAQSearchEngine) (query : string) (q : list float) (top_k : Z)
    (w w' : world) :
  forallb (compatible q) (vectors self) = false ->
  rank_vectors argsort self q top_k = Raise ValueError
  /\ (embed_query embeddings_create query w = (Ok q, w') ->
      search argsort embeddings_create self query top_k w = (Raise ValueError, w')).
Proof.
  intros Hbad.
  assert (H : rank_vectors argsort self q top_k = Raise ValueError).
  { unfold rank_vectors. rewrite (similarities_of_incompatible _ _ Hbad). reflexivity. }
  split; [exact H|]. intros Hembed.
  rewrite search_after_embed, Hembed, H. reflexivity.
Qed.

Lemma invalid_vector_fails_query_witness :
  rank_vectors Np.stable_argsort (mkEngine "aven_faq_vectors.json" [[1; 0]; [1]]%float
                  ["Q0"; "Q1"]%string ["A0"; "A1"]%string ["S0"; "S1"]%string)
    [1; 0]%float 0
  = Raise ValueError
  /\ (embed_query constant_provider "refunds" fresh_world
      = (Ok [1; 0]%float,
         mkWorld [] [] [("text-embedding-3-small"%string, ["refunds"%string])]) ->
      search Np.stable_argsort constant_provider
        (mkEngine "aven_faq_vectors.json" [[1; 0]; [1]]%float
           ["Q0"; "Q1"]%string ["A0"; "A1"]%string ["S0"; "S1"]%string)
        "refunds" 0 fresh_world
      = (Raise ValueError,
         mkWorld [] [] [("text-embedding-3-small"%string, ["refunds"%string])])).
Proof.
  apply (@invalid_vector_fails_query Np.stable_argsort constant_provider
           (mkEngine "aven_faq_vectors.json" [[1; 0]; [1]]%float
              ["Q0"; "Q1"]%string ["A0"; "A1"]%string ["S0"; "S1"]%string)
           "refunds" [1; 0]%float 0 fresh_world).
  vm_compute. reflexivity.
Defined.

Lemma compatible_length (q v : list float) :
  compatible q v = true -> List.length q = List.length v.
Proof.
  unfold compatible. intros H. apply andb_prop in H. destruct H as [_ H].
  apply Nat.eqb_eq. assumption.
Qed.

(** X3.  A store that holds two embeddings of different lengths answers no
    query: whatever the query vector and [top_k], the ranking raises
    [ValueError].  (Such a store is what [load_vectors] builds from a ragged
    snapshot.) *)
Theorem ragged_store_answers_no_query (argsort : list float -> list nat) (self : FAQSearchEngine)
    (v1 v2 : list float) (q : list float) (top_k : Z) :
  In v1 (vectors self) -> In v2 (vectors self) ->
  List.length v1 <> List.length v2 ->
  rank_vectors argsort self q top_k = Raise ValueError.
Proof.
  intros H1 H2 Hlen. unfold rank_vectors.
  rewrite similarities_of_incompatible; [reflexivity|].
  destruct (forallb (compatible q) (vectors self)) eqn:Hall; [exfalso|reflexivity].
  rewrite forallb_forall in Hall.
  apply Hlen. rewrite <- (compatible_length _ _ (Hall v1 H1)).
  apply compatible_length. apply Hall. assumption.
Qed.

Lemma ragged_store_answers_no_query_witness :
  rank_vectors Np.stable_argsort (mkEngine "aven_faq_vectors.json" [[1; 0]; [1]]%float
                  ["Q0"; "Q1"]%string ["A0"; "A1"]%string ["S0"; "S1"]%string)
    [1]%float 5
  = Raise ValueError.
Proof.
  apply (@ragged_store_answers_no_query Np.stable_argsort _ [1; 0]%float [1]%float).
  - left. reflexivity.
  - right. left. reflexivity.
  - discriminate.
Defined.

(** ** What [search] touches *)

(** X5.  A call of [search] sends exactly one request to the provider, for
    the model [text-embedding-3-small] and the query alone; it reads nothing
    from standard input, and it prints nothing when it returns a list. *)
Theorem search_sends_one_request (argsort : list float -> list nat)
    (embeddings_create : nat -> string -> list string -> result (list (list float)))
    (self : FAQSearchEngine) (query : string) (top_k : Z) (w : world) :
  let out := search argsort embeddings_create self query top_k w in
  stdin (snd out) = stdin w
  /\ requests (snd out) = requests w ++ [("text-embedding-3-small"%string, [query])]
  /\ (forall rs, fst out = Ok rs -> stdout (snd out) = stdout w).
Proof.
  cbv zeta. rewrite search_after_embed.
  unfold embed_query, try_except_Exception, bind, client_embeddings_create.
  destruct (embeddings_create (List.length (requests w))
              "text-embedding-3-small"%string [query]) as [data|e]; cbn.
  - destruct data as [|v data]; cbn.
    + repeat split. intros rs H. discriminate.
    + repeat split.
  - destruct (is_Exception e); cbn; repeat split; intros rs H; discriminate.
Qed.

Lemma search_sends_one_request_witness :
  requests (snd (search Np.stable_argsort constant_provider example_store "refunds" 3 fresh_world))
  = [("text-embedding-3-small"%string, ["refunds"%string])]
  /\ stdout (snd (search Np.stable_argsort constant_provider example_store "refunds" 3
                    fresh_world))
     = [].
Proof.
  pose proof (@search_sends_one_request Np.stable_argsort constant_provider example_store
                "refunds" 3%Z fresh_world) as H.
  cbv zeta in H. destruct H as (_ & Hrequests & Hquiet).
  split; [exact Hrequests|].
  eapply Hquiet. vm_compute. reflexivity.
Defined.

(** ** Turns of the interactive loop *)

Lemma search_keeps_stdin (argsort : list float -> list nat)
    (embeddings_create : nat -> string -> list string -> result (list (list float)))
    (self : FAQSearchEngine) (query : string) (top_k : Z) (w : world) :
  exists r w',
    search argsort embeddings_create self query top_k w = (r, w')
    /\ stdin w' = stdin w.
Proof.
  destruct (search argsort embeddings_create self query top_k w) as [r w'] eqn:H.
  exists r, w'. split; [reflexivity|].
  change w' with (snd (r, w')). rewrite <- H.
  rewrite search_after_embed.
  unfold embed_query, try_except_Exception, bind, client_embeddings_create.
  destruct (embeddings_create (List.length (requests w))
              "text-embedding-3-small"%string [query]) as [data|e]; cbn.
  - destruct data; reflexivity.
  - destruct (is_Exception e); reflexivity.
Qed.

(** The part of a turn that follows a line which is neither blank nor a
    sentinel, from the world [w1] in which the prompt and the line
    [Searching for] are printed. *)
Lemma loop_body_query (argsort : list float -> list nat)
    (embeddings_create : nat -> string -> list string -> result (list (list float)))
    (self : FAQSearchEngine) (w : world) (line : string) (rest : list stdin_event) :
  stdin w = Line line :: rest ->
  str_in (lower (strip line)) sentinels = false ->
  strip line <> EmptyString ->
  let w1 := mkWorld rest (stdout w ++ [Prompt; SearchingFor (strip line)]) (requests w) in
  loop_body argsort embeddings_create self w
  = match search argsort embeddings_create self (strip line) 3 w1 with
    | (Ok rs, w2) =>
        (Ok Continue,
         mkWorld (stdin w2) (stdout w2 ++ shown_results rs ++ [BlankLine]) (requests w2))
    | (Raise KeyboardInterrupt, w2) =>
        (Ok Break, mkWorld (stdin w2) (stdout w2 ++ [Goodbye]) (requests w2))
    | (Raise e, w2) =>
        (Ok Continue, mkWorld (stdin w2) (stdout w2 ++ [ErrorTryAgain e]) (requests w2))
    end.
Proof.
  intros Hin Hnot Hfull w1.
  assert (Heqb : String.eqb (strip line) EmptyString = false).
  { apply String.eqb_neq. assumption. }
  unfold loop_body, loop_try. unfold bind at 1.
  unfold input. rewrite Hin. fold sentinels. rewrite Hnot, Heqb.
  unfold bind at 1. cbn [print stdin stdout requests]. unfold bind at 1.
  rewrite <- app_assoc. cbn [app]. fold w1.
  destruct (search argsort embeddings_create self (strip line) 3 w1) as [[rs|e] w2].
  - unfold bind. destruct rs as [|r rs].
    + cbn. unfold ret. rewrite <- app_assoc. reflexivity.
    + rewrite print_results_spec. cbn. unfold ret.
      rewrite <- !app_assoc. reflexivity.
  - destruct e; reflexivity.
Qed.

(** Every turn ends normally and consumes one input event (none when the
    input is exhausted); a turn that leaves the loop has just printed the
    goodbye message, and a turn on an event that ends the session leaves
    the loop. *)
Lemma loop_body_turn (argsort : list float -> list nat)
    (embeddings_create : nat -> string -> list string -> result (list (list float)))
    (self : FAQSearchEngine) (w : world) :
  exists c w',
    loop_body argsort embeddings_create self w = (Ok c, w')
    /\ stdin w' = tl (stdin w)
    /\ (c = Break -> exists out, stdout w' = out ++ [Goodbye])
    /\ (forall ev rest, stdin w = ev :: rest -> ends_session ev = true -> c = Break).
Proof.
  destruct (stdin w) as [|[line|] rest] eqn:Hin.
  - exists Continue. eexists. split; [|split; [|split]].
    + unfold loop_body, loop_try, bind, input. rewrite Hin. reflexivity.
    + reflexivity.
    + discriminate.
    + discriminate.
  - destruct (str_in (lower (strip line)) sentinels) eqn:Hquit.
    + exists Break. eexists. split; [|split; [|split]].
      * unfold loop_body, loop_try, bind, input. rewrite Hin.
        fold sentinels. rewrite Hquit. reflexivity.
      * reflexivity.
      * intros _. cbn. eauto.
      * reflexivity.
    + assert (Hend : forall ev rest0,
                Line line :: rest = ev :: rest0 -> ends_session ev = true ->
                Continue = Break).
      { intros ev rest0 H. injection H as <- _. unfold ends_session.
        rewrite Hquit. discriminate. }
      destruct (String.eqb (strip line) EmptyString) eqn:Hblank.
      * exists Continue. eexists. split; [|split; [|split]].
        -- unfold loop_body, loop_try, bind, input. rewrite Hin.
           fold sentinels. rewrite Hquit, Hblank. reflexivity.
        -- reflexivity.
        -- discriminate.
        -- exact Hend.
      * apply String.eqb_neq in Hblank.
        rewrite (loop_body_query argsort embeddings_create self w Hin Hquit Hblank).
        destruct (search_keeps_stdin argsort embeddings_create self (strip line) 3
                    (mkWorld rest (stdout w ++ [Prompt; SearchingFor (strip line)])
                       (requests w)))
          as (r & w2 & -> & Hstdin).
        cbn in Hstdin.
        destruct r as [rs|e].
        -- exists Continue. eexists. split; [reflexivity|]. cbn.
           split; [assumption|]. split; [discriminate|exact Hend].
        -- destruct e;
             try (exists Continue; eexists; split; [reflexivity|]; cbn;
                  split; [assumption|]; split; [discriminate|exact Hend]).
           exists Break. eexists. split; [reflexivity|]. cbn.
           split; [assumption|]. split; [eauto|]. reflexivity.
  - exists Break. eexists. split; [|split; [|split]].
    + unfold loop_body, loop_try, bind, input. rewrite Hin. reflexivity.
    + reflexivity.
    + intros _. cbn. eauto.
    + reflexivity.
Qed.

Lemma while_True_outcome (argsort : list float -> list nat)
    (embeddings_create : nat -> string -> list string -> result (list (list float)))
    (self : FAQSearchEngine) (fuel : nat) (w : world) :
  while_True argsort embeddings_create fuel self w = None
  \/ exists w' out,
       while_True argsort embeddings_create fuel self w = Some (Ok tt, w')
       /\ stdout w' = out ++ [Goodbye].
Proof.
  revert w. induction fuel as [|fuel IH]; intros w; cbn; [left; reflexivity|].
  destruct (loop_body_turn argsort embeddings_create self w) as (c & w' & -> & _ & Hbye & _).
  destruct c.
  - apply IH.
  - right. destruct (Hbye eq_refl) as [out Hout]. eauto.
Qed.

(** X6.  An interrupt while the query is being embedded ends the session
    gracefully.  When the request for the embedding of a query ends with
    [KeyboardInterrupt], [embed_query] prints no error message (its handler
    is for [Exception]), the handler of the loop prints the goodbye message
    and the loop is left normally at that turn, the rest of the input
    unread. *)
Theorem interrupt_during_search_ends_session (argsort : list float -> list nat)
    (embeddings_create : nat -> string -> list string -> result (list (list float)))
    (self : FAQSearchEngine) (w : world) (line : string) (rest : list stdin_event) :
  stdin w = Line line :: rest ->
  str_in (lower (strip line)) sentinels = false ->
  strip line <> EmptyString ->
  embeddings_create (List.length (requests w)) "text-embedding-3-small"%string
    [strip line]
  = Raise KeyboardInterrupt ->
  let w' :=
    mkWorld rest (stdout w ++ [Prompt; SearchingFor (strip line); Goodbye])
      (requests w ++ [("text-embedding-3-small"%string, [strip line])]) in
  loop_body argsort embeddings_create self w = (Ok Break, w')
  /\ forall fuel,
       while_True argsort embeddings_create (S fuel) self w = Some (Ok tt, w').
Proof.
  intros Hin Hnot Hfull Hfail w'.
  assert (Hturn : loop_body argsort embeddings_create self w = (Ok Break, w')).
  { rewrite (loop_body_query argsort embeddings_create self w Hin Hnot Hfull).
    unfold search, bind, embed_query, try_except_Exception, bind,
      client_embeddings_create.
    cbn [requests stdin stdout]. rewrite Hfail. cbn.
    unfold w'. rewrite <- app_assoc. reflexivity. }
  split; [exact Hturn|].
  intros fuel. cbn. rewrite Hturn. reflexivity.
Qed.

Lemma interrupt_during_search_ends_session_witness :
  loop_body Np.stable_argsort interrupted_provider example_store
    (mkWorld [Line "refunds"; Line "limits"] [] [])
  = (Ok Break,
     mkWorld [Line "limits"] [Prompt; SearchingFor "refunds"; Goodbye]
       [("text-embedding-3-small"%string, ["refunds"%string])])
  /\ forall fuel,
       while_True Np.stable_argsort interrupted_provider (S fuel) example_store
         (mkWorld [Line "refunds"; Line "limits"] [] [])
       = Some (Ok tt,
               mkWorld [Line "limits"] [Prompt; SearchingFor "refunds"; Goodbye]
                 [("text-embedding-3-small"%string, ["refunds"%string])]).
Proof.
  apply (@interrupt_during_search_ends_session Np.stable_argsort interrupted_provider
           example_store (mkWorld [Line "refunds"; Line "limits"] [] [])
           "refunds" [Line "limits"]).
  - reflexivity.
  - reflexivity.
  - discriminate.
  - reflexivity.
Defined.

(** X7.  At the end of the input the session does not end: every turn
    prints the prompt and the error of [input], and the loop goes on,
    whatever the number of turns. *)
Theorem end_of_input_never_ends (argsort : list float -> list nat)
    (embeddings_create : nat -> string -> list string -> result (list (list float)))
    (self : FAQSearchEngine) (w : world) :
  stdin w = [] ->
  loop_body argsort embeddings_create self w
  = (Ok Continue,
     mkWorld [] (stdout w ++ [Prompt; ErrorTryAgain EOFError]) (requests w))
  /\ forall fuel, while_True argsort embeddings_create fuel self w = None.
Proof.
  intros Hin.
  assert (Hturn : forall w0, stdin w0 = [] ->
            loop_body argsort embeddings_create self w0
            = (Ok Continue,
               mkWorld [] (stdout w0 ++ [Prompt; ErrorTryAgain EOFError]) (requests w0))).
  { intros w0 H0. unfold loop_body, loop_try, bind, input. rewrite H0. cbn.
    rewrite <- app_assoc. reflexivity. }
  split; [apply Hturn; assumption|].
  intros fuel. revert w Hin.
  induction fuel as [|fuel IH]; intros w Hin; cbn; [reflexivity|].
  rewrite (Hturn w Hin). apply IH. reflexivity.
Qed.

Lemma end_of_input_never_ends_witness :
  loop_body Np.stable_argsort constant_provider example_store fresh_world
  = (Ok Continue, mkWorld [] [Prompt; ErrorTryAgain EOFError] [])
  /\ forall fuel,
       while_True Np.stable_argsort constant_provider fuel example_store fresh_world = None.
Proof.
  apply (@end_of_input_never_ends Np.stable_argsort constant_provider example_store fresh_world).
  reflexivity.
Defined.

Lemma while_True_ends (argsort : list float -> list nat)
    (embeddings_create : nat -> string -> list string -> result (list (list float)))
    (self : FAQSearchEngine) (events : list stdin_event) (w : world) :
  stdin w = events ->
  existsb ends_session events = true ->
  exists fuel w' out,
    fuel <= List.length events
    /\ while_True argsort embeddings_create fuel self w = Some (Ok tt, w')
    /\ stdout w' = out ++ [Goodbye].
Proof.
  revert w. induction events as [|ev rest IH]; intros w Hin Hends; [discriminate|].
  destruct (loop_body_turn argsort embeddings_create self w)
    as (c & w1 & Hbody & Htl & Hbye & Hbreak).
  rewrite Hin in Htl. cbn in Htl.
  destruct c.
  - cbn in Hends. destruct (ends_session ev) eqn:Hev.
    + specialize (Hbreak ev rest Hin Hev). discriminate.
    + cbn in Hends. destruct (IH w1 Htl Hends) as (fuel & w' & out & Hle & Hrun & Hout).
      exists (S fuel), w', out. split; [cbn; lia|]. split; [|assumption].
      cbn. rewrite Hbody. assumption.
  - destruct (Hbye eq_refl) as [out Hout].
    exists 1, w1, out. split; [cbn; lia|]. split; [|assumption].
    cbn. rewrite Hbody. reflexivity.
Qed.

(** X8.  When the input holds an interrupt or a line that is a sentinel
    once stripped and lower-cased, the session ends normally, with the
    goodbye message printed last, within as many turns as there are input
    events. *)
Theorem session_ends_on_sentinel_or_interrupt (argsort : list float -> list nat)
    (embeddings_create : nat -> string -> list string -> result (list (list float)))
    (self : FAQSearchEngine) (w : world) :
  existsb ends_session (stdin w) = true ->
  exists fuel w' out,
    fuel <= List.length (stdin w)
    /\ interactive_search argsort embeddings_create fuel self w = Some (Ok tt, w')
    /\ stdout w' = out ++ [Goodbye].
Proof.
  intros Hends. unfold interactive_search.
  apply (@while_True_ends argsort embeddings_create self (stdin w)); [reflexivity|assumption].
Qed.

Lemma session_ends_on_sentinel_or_interrupt_witness :
  exists fuel w' out,
    fuel <= 3
    /\ interactive_search Np.stable_argsort flaky_provider fuel example_store
         (mkWorld [Line "refunds"; Line " EXIT"; Line "ignored"] [] [])
       = Some (Ok tt, w')
    /\ stdout w' = out ++ [Goodbye].
Proof.
  apply (@session_ends_on_sentinel_or_interrupt Np.stable_argsort flaky_provider example_store
           (mkWorld [Line "refunds"; Line " EXIT"; Line "ignored"] [] [])).
  reflexivity.
Defined.

(** X9.  A query that fails is not fatal to the session: when [search]
    raises an ordinary exception (the provider failed, or a stored vector
    failed the validation), the turn prints the error after whatever
    [search] printed, consumes the line, and the loop goes on with the next
    turn. *)
Theorem failed_query_is_not_fatal (argsort : list float -> list nat)
    (embeddings_create : nat -> string -> list string -> result (list (list float)))
    (self : FAQSearchEngine) (w w2 : world) (line : string)
    (rest : list stdin_event) (e : exn) :
  stdin w = Line line :: rest ->
  str_in (lower (strip line)) sentinels = false ->
  strip line <> EmptyString ->
  search argsort embeddings_create self (strip line) 3
    (mkWorld rest (stdout w ++ [Prompt; SearchingFor (strip line)]) (requests w))
  = (Raise e, w2) ->
  is_Exception e = true ->
  let after := mkWorld rest (stdout w2 ++ [ErrorTryAgain e]) (requests w2) in
  loop_body argsort embeddings_create self w = (Ok Continue, after)
  /\ forall fuel,
       while_True argsort embeddings_create (S fuel) self w
       = while_True argsort embeddings_create fuel self after.
Proof.
  intros Hin Hnot Hfull Hsearch Hexn after.
  assert (Hbody : loop_body argsort embeddings_create self w = (Ok Continue, after)).
  { rewrite (loop_body_query argsort embeddings_create self w Hin Hnot Hfull), Hsearch.
    destruct (search_keeps_stdin argsort embeddings_create self (strip line) 3
                (mkWorld rest (stdout w ++ [Prompt; SearchingFor (strip line)])
                   (requests w)))
      as (r & w3 & Heq & Hstdin).
    rewrite Hsearch in Heq. injection Heq as <- <-. cbn in Hstdin.
    subst after. rewrite Hstdin.
    destruct e; try reflexivity. discriminate. }
  split; [exact Hbody|]. intros fuel. cbn. rewrite Hbody. reflexivity.
Qed.

Lemma failed_query_is_not_fatal_witness :
  loop_body Np.stable_argsort flaky_provider example_store
    (mkWorld [Line " refunds "; Line "q"] [] [])
  = (Ok Continue,
     mkWorld [Line "q"]
       [ Prompt; SearchingFor "refunds";
         ErrorEmbeddingQuery (APIError "rate limit");
         ErrorTryAgain (APIError "rate limit") ]
       [("text-embedding-3-small"%string, ["refunds"%string])])
  /\ forall fuel,
       while_True Np.stable_argsort flaky_provider (S fuel) example_store
         (mkWorld [Line " refunds "; Line "q"] [] [])
       = while_True Np.stable_argsort flaky_provider fuel example_store
           (mkWorld [Line "q"]
              [ Prompt; SearchingFor "refunds";
                ErrorEmbeddingQuery (APIError "rate limit");
                ErrorTryAgain (APIError "rate limit") ]
              [("text-embedding-3-small"%string, ["refunds"%string])]).
Proof.
  apply (@failed_query_is_not_fatal Np.stable_argsort flaky_provider example_store
           (mkWorld [Line " refunds "; Line "q"] [] [])
           (mkWorld [Line "q"]
              [ Prompt; SearchingFor "refunds";
                ErrorEmbeddingQuery (APIError "rate limit") ]
              [("text-embedding-3-small"%string, ["refunds"%string])])
           " refunds " [Line "q"] (APIError "rate limit")).
  - reflexivity.
  - reflexivity.
  - discriminate.
  - reflexivity.
  - reflexivity.
Defined.

(** X10.  A query that succeeds prints at most three result blocks, in the
    order of the ranking, then a blank line; it prints [No results found]
    instead exactly when the store is empty.  This holds for every index
    sort that meets the specification of [np.argsort]. *)
Theorem answered_query_shows_top_three (argsort : list float -> list nat)
    (embeddings_create : nat -> string -> list string -> result (list (list float)))
    (self : FAQSearchEngine) (w w2 : world) (line : string)
    (rest : list stdin_event) (rs : list search_result) :
  Np.sorts argsort ->
  stdin w = Line line :: rest ->
  str_in (lower (strip line)) sentinels = false ->
  strip line <> EmptyString ->
  search argsort embeddings_create self (strip line) 3
    (mkWorld rest (stdout w ++ [Prompt; SearchingFor (strip line)]) (requests w))
  = (Ok rs, w2) ->
  loop_body argsort embeddings_create self w
  = (Ok Continue,
     mkWorld rest (stdout w2 ++ shown_results rs ++ [BlankLine]) (requests w2))
  /\ List.length rs = Nat.min 3 (List.length (vectors self))
  /\ (shown_results rs = [NoResultsFound] <-> vectors self = []).
Proof.
  intros Hsorts Hin Hnot Hfull Hsearch.
  destruct (search_keeps_stdin argsort embeddings_create self (strip line) 3
              (mkWorld rest (stdout w ++ [Prompt; SearchingFor (strip line)])
                 (requests w)))
    as (r & w3 & Heq & Hstdin).
  rewrite Hsearch in Heq. injection Heq as <- <-. cbn in Hstdin.
  assert (Hlen : List.length rs = Nat.min 3 (List.length (vectors self))).
  { rewrite search_after_embed in Hsearch.
    destruct (embed_query embeddings_create (strip line) _) as [[v|e] w3];
      [|discriminate].
    injection Hsearch as Hrank _.
    apply rank_vectors_inv in Hrank. cbv zeta in Hrank. destruct Hrank as [_ ->].
    unfold top_indices. rewrite results_from_length, slice_to_length.
    rewrite (ArgsortFacts.ranked_length Hsorts), length_map. reflexivity. }
  split; [|split].
  - rewrite (loop_body_query argsort embeddings_create self w Hin Hnot Hfull), Hsearch.
    rewrite Hstdin. reflexivity.
  - exact Hlen.
  - split.
    + destruct rs as [|r rs]; cbn.
      * intros _. cbn in Hlen. destruct (vectors self); [reflexivity|].
        cbn in Hlen. discriminate.
      * intros H. discriminate.
    + intros Hempty. rewrite Hempty in Hlen. cbn in Hlen.
      destruct rs; [reflexivity|discriminate].
Qed.

Lemma answered_query_shows_top_three_witness :
  loop_body Np.stable_argsort constant_provider example_store
    (mkWorld [Line "refunds"] [] [])
  = (Ok Continue,
     mkWorld []
       ([Prompt; SearchingFor "refunds"]
        ++ shown_results [ mkResult 1 "R2" "A2" "S2" 1 100;
                           mkResult 2 "R0" "A0" "S0" 1 100;
                           mkResult 3 "R1" "A1" "S1" 0 0 ]
        ++ [BlankLine])
       [("text-embedding-3-small"%string, ["refunds"%string])])
  /\ List.length [ mkResult 1 "R2" "A2" "S2" 1 100;
                   mkResult 2 "R0" "A0" "S0" 1 100;
                   mkResult 3 "R1" "A1" "S1" 0 0 ]
     = Nat.min 3 (List.length (vectors example_store))
  /\ (shown_results [ mkResult 1 "R2" "A2" "S2" 1 100;
                      mkResult 2 "R0" "A0" "S0" 1 100;
                      mkResult 3 "R1" "A1" "S1" 0 0 ] = [NoResultsFound]
      <-> vectors example_store = []).
Proof.
  apply (@answered_query_shows_top_three Np.stable_argsort constant_provider
           example_store
           (mkWorld [Line "refunds"] [] [])
           (mkWorld [] [Prompt; SearchingFor "refunds"]
              [("text-embedding-3-small"%string, ["refunds"%string])])
           "refunds" []).
  - exact ArgsortFacts.stable_argsort_sorts.
  - reflexivity.
  - reflexivity.
  - discriminate.
  - vm_compute. reflexivity.
Defined.

(** * The similarity of a zero vector *)

Lemma all_zero_Forall (x : list float) : all_zero x = true -> Forall is_zero x.
Proof.
  unfold all_zero. intros Hx. rewrite forallb_forall in Hx.
  apply Forall_forall. intros a Ha. apply FloatZero.eqb_zero_iff. auto.
Qed.

Lemma finite_Forall (x : list float) :
  forallb is_finite x = true -> Forall (fun a => is_finite a = true) x.
Proof.
  intros Hx. rewrite forallb_forall in Hx. apply Forall_forall. assumption.
Qed.

Lemma compatible_finite (q v : list float) :
  compatible q v = true ->
  forallb is_finite q = true /\ forallb is_finite v = true.
Proof.
  unfold compatible, Sk.check_array. intros H.
  apply andb_prop in H. destruct H as [H _].
  apply andb_prop in H. destruct H as [Hq Hv].
  apply andb_prop in Hq. apply andb_prop in Hv. tauto.
Qed.

(** A row of zeros is normalised to a row of zeros, the other row to a
    finite row: every product is a zero, and so is their sum. *)
Lemma zero_row_score (q v : list float) :
  compatible q v = true ->
  all_zero v = true \/ all_zero q = true ->
  score q v = 0%float.
Proof.
  intros Hc Hz. destruct (@compatible_finite _ _ Hc) as [Hq Hv].
  apply FloatZero.pos_zero_eq. unfold score.
  destruct Hz as [Hz|Hz].
  - apply FloatZero.dot_zero_r.
    + apply finite_Forall, FloatFinite.normalize_finite. assumption.
    + apply FloatZero.normalize_zeros, all_zero_Forall. assumption.
  - apply FloatZero.dot_zero_l.
    + apply FloatZero.normalize_zeros, all_zero_Forall. assumption.
    + apply finite_Forall, FloatFinite.normalize_finite. assumption.
Qed.

Lemma similarities_of_raises (q : list float) (vs : list (list float)) (e : exn) :
  similarities_of q vs = Raise e -> e = ValueError.
Proof.
  intros H. destruct (forallb (compatible q) vs) eqn:Hc.
  - rewrite (@similarities_of_compatible _ _ Hc) in H. discriminate.
  - rewrite (@similarities_of_incompatible _ _ Hc) in H. congruence.
Qed.

Lemma similarities_of_nth (q : list float) (vs : list (list float))
    (sims : list float) (i : nat) (v : list float) :
  similarities_of q vs = Ok sims -> nth_error vs i = Some v ->
  compatible q v = true /\ nth_error sims i = Some (score q v).
Proof.
  intros Hsims Hv. apply similarities_of_inv in Hsims.
  destruct Hsims as [Hc ->]. split.
  - rewrite forallb_forall in Hc. apply Hc. eapply nth_error_In. eassumption.
  - rewrite nth_error_map, Hv. reflexivity.
Qed.

Lemma build_results_bound (self : FAQSearchEngine) (sims : list float)
    (idxs : list nat) (acc rs : list search_result) :
  build_results self sims idxs acc = Ok rs ->
  Forall (fun i => i < List.length sims) idxs.
Proof.
  revert acc. induction idxs as [|i idxs IH]; intros acc H; cbn in H; [constructor|].
  destruct (getitem (questions self) i) as [q|] eqn:Hq; [|discriminate].
  destruct (getitem (answers self) i) as [a|] eqn:Ha; [|discriminate].
  destruct (getitem (sections self) i) as [s|] eqn:Hs; [|discriminate].
  destruct (getitem sims i) as [sim|] eqn:Hsim; [|discriminate].
  cbn in H. constructor; [|eapply IH; eassumption].
  apply (getitem_inv _ _ 0%float) in Hsim. apply Hsim.
Qed.

(** *** Claim C4 *)

(** C4, refuted as stated.  The norm computed for the row [[2^-600]] is
    zero, because the square underflows; the row is then divided by one and
    its similarity to the row [[1]] is [2^-600], which is not zero, and this
    is the score [search] reports.  And a stored row of zeros has no score
    against a query with an infinite entry, or with another number of
    entries: the validation raises [ValueError]. *)
Lemma underflowing_norm_scores_nonzero :
  Sk.row_norm [0x1p-600]%float = 0%float
  /\ similarities_of [1]%float (vectors tiny_store) = Ok [0x1p-600]%float
  /\ PrimFloat.eqb 0x1p-600 0 = false
  /\ rank_vectors Np.stable_argsort tiny_store [1]%float 5
     = Ok [mkResult 1 "R0" "A0" "S0" 0x1p-600 0x1.9p-594]
  /\ similarities_of [infinity] [[0]%float] = Raise ValueError
  /\ similarities_of [1; 0]%float [[0]%float] = Raise ValueError.
Proof.
  repeat split; vm_compute; reflexivity.
Qed.

(** C4, amended.  [normalize] never divides by zero: a norm that is zero is
    replaced by one.  Computing the similarities raises nothing but the
    [ValueError] of the validation.  When they are computed, a stored
    embedding whose entries are all zero scores zero against the query, and
    a query whose entries are all zero scores zero against every stored
    embedding; [search] reports that score for the record.  Nothing is
    stated of a row whose computed norm is zero while its entries are not:
    such a row is divided by one and may score otherwise. *)
Theorem zero_vector_scores_zero (argsort : list float -> list nat)
    (self : FAQSearchEngine) (q : list float) (top_k : Z) :
  (forall x, PrimFloat.eqb (Sk.handle_zeros_in_scale (Sk.row_norm x)) 0 = false)
  /\ (forall e, similarities_of q (vectors self) = Raise e -> e = ValueError)
  /\ (forall sims i v,
        similarities_of q (vectors self) = Ok sims ->
        nth_error (vectors self) i = Some v ->
        all_zero v = true \/ all_zero q = true ->
        exists s, nth_error sims i = Some s /\ PrimFloat.eqb s 0 = true)
  /\ (forall rs r,
        rank_vectors argsort self q top_k = Ok rs -> In r rs ->
        exists i v,
          nth_error (vectors self) i = Some v
          /\ question r = nth i (questions self) EmptyString
          /\ (all_zero v = true \/ all_zero q = true ->
              PrimFloat.eqb (similarity_score r) 0 = true)).
Proof.
  split; [intros x; apply FloatZero.handle_zeros_nonzero|].
  split; [intros e; apply similarities_of_raises|].
  split.
  - intros sims i v Hsims Hv Hz.
    destruct (@similarities_of_nth _ _ _ _ _ Hsims Hv) as [Hc Hs].
    exists (score q v). split; [assumption|].
    rewrite (@zero_row_score _ _ Hc Hz). reflexivity.
  - intros rs r Hrank Hin. unfold rank_vectors in Hrank.
    destruct (similarities_of q (vectors self)) as [sims|e] eqn:Hsims; [|discriminate].
    cbn in Hrank.
    pose proof (@build_results_bound _ _ _ _ _ Hrank) as Hbound.
    apply build_results_inv in Hrank. cbn in Hrank. subst rs.
    apply In_nth_error in Hin. destruct Hin as [p Hp].
    apply results_from_nth in Hp. destruct Hp as (i & Hi & ->).
    rewrite Forall_forall in Hbound.
    pose proof (Hbound i (nth_error_In _ _ Hi)) as Hlt.
    pose proof (@similarities_of_inv _ _ _ Hsims) as [_ Hmap].
    assert (Hlen : i < List.length (vectors self)).
    { rewrite Hmap, length_map in Hlt. exact Hlt. }
    destruct (nth_error (vectors self) i) as [v|] eqn:Hv;
      [|apply nth_error_None in Hv; lia].
    exists i, v. split; [exact Hv|]. split; [reflexivity|].
    intros Hz. destruct (@similarities_of_nth _ _ _ _ _ Hsims Hv) as [Hc Hs].
    cbn [similarity_score result_at].
    rewrite (nth_error_nth _ _ 0%float Hs).
    rewrite (@zero_row_score _ _ Hc Hz). reflexivity.
Qed.

Lemma zero_vector_scores_zero_witness :
  (exists s,
     nth_error (map (score [1; 0]%float) [[1; 0]; [0; -0]]%float) 1 = Some s
     /\ PrimFloat.eqb s 0 = true)
  /\ rank_vectors Np.stable_argsort
       (mkEngine "aven_faq_vectors.json" [[1; 0]; [0; -0]]%float
          ["R0"; "R1"]%string ["A0"; "A1"]%string ["S0"; "S1"]%string)
       [1; 0]%float 2
     = Ok [mkResult 1 "R0" "A0" "S0" 1 100; mkResult 2 "R1" "A1" "S1" 0 0].
Proof.
  split; [|vm_compute; reflexivity].
  pose proof (zero_vector_scores_zero Np.stable_argsort
                (mkEngine "aven_faq_vectors.json" [[1; 0]; [0; -0]]%float
                   ["R0"; "R1"]%string ["A0"; "A1"]%string ["S0"; "S1"]%string)
                [1; 0]%float 2) as (_ & _ & H & _).
  apply (H (map (score [1; 0]%float) [[1; 0]; [0; -0]]%float) 1 [0; -0]%float).
  - vm_compute. reflexivity.
  - reflexivity.
  - left. vm_compute. reflexivity.
Defined.

(** * Further properties of the loader *)

Lemma comprehension_Ok_inv {A B} (f : A -> result B) (xs : list A) (ys : list B) :
  comprehension f xs = Ok ys -> Forall2 (fun x y => f x = Ok y) xs ys.
Proof.
  revert ys. induction xs as [|x xs IH]; intros ys H; cbn in H.
  - injection H as <-. constructor.
  - destruct (f x) as [y|] eqn:Hy; [|discriminate]. cbn in H.
    destruct (comprehension f xs) as [ys'|] eqn:Hys; [|discriminate].
    cbn in H. injection H as <-. constructor; auto.
Qed.

Lemma comprehension_Raise_inv {A B} (f : A -> result B) (xs : list A) (e : exn) :
  comprehension f xs = Raise e -> Exists (fun x => f x = Raise e) xs.
Proof.
  induction xs as [|x xs IH]; intros H; cbn in H; [discriminate|].
  destruct (f x) as [y|e'] eqn:Hy; cbn in H.
  - destruct (comprehension f xs) as [ys'|e''] eqn:Hys; [discriminate|].
    cbn in H. injection H as ->. apply Exists_cons_tl. auto.
  - injection H as ->. apply Exists_cons_hd. assumption.
Qed.

Lemma lookup_Raise_inv {A} (key : string) (field : option A) (e : exn) :
  lookup key field = Raise e -> field = None /\ e = KeyError key.
Proof.
  destruct field; cbn; intros H; [discriminate|].
  injection H as <-. split; reflexivity.
Qed.

Lemma metadata_field_Raise_inv (key : string) (proj : metadata_json -> option string)
    (item : item_json) (e : exn) :
  metadata_field key proj item = Raise e ->
  (item_metadata item = None /\ e = KeyError "metadata")
  \/ (exists md, item_metadata item = Some md /\ proj md = None /\ e = KeyError key).
Proof.
  unfold metadata_field. destruct (item_metadata item) as [md|]; cbn.
  - intros H. apply lookup_Raise_inv in H. right. exists md. tauto.
  - intros H. injection H as <-. left. split; reflexivity.
Qed.

Lemma incomplete_of_missing_field (key : string)
    (proj : metadata_json -> option string) (item : item_json) (e : exn) :
  (proj = m_question \/ proj = m_answer \/ proj = m_section) ->
  metadata_field key proj item = Raise e ->
  complete item = false /\ exists k, e = KeyError k.
Proof.
  intros Hproj H. apply metadata_field_Raise_inv in H.
  unfold complete.
  destruct H as [[Hmd ->]|(md & Hmd & Hnone & ->)]; rewrite Hmd.
  - split; [destruct (item_values item); reflexivity|eauto].
  - split; [|eauto].
    destruct (item_values item); [|reflexivity].
    destruct Hproj as [->|[->| ->]]; rewrite Hnone;
      repeat match goal with |- context [match ?x with _ => _ end] => destruct x end;
      reflexivity.
Qed.

Lemma forallb_false_of_Exists {A} (f : A -> bool) (xs : list A) :
  Exists (fun x => f x = false) xs -> forallb f xs = false.
Proof.
  induction 1 as [x xs Hx|x xs _ IH]; cbn.
  - rewrite Hx. reflexivity.
  - rewrite IH. apply andb_false_r.
Qed.

Lemma Forall2_In_left {A B} (R : A -> B -> Prop) (xs : list A) (ys : list B) (x : A) :
  Forall2 R xs ys -> In x xs -> exists y, In y ys /\ R x y.
Proof.
  induction 1 as [|x0 y0 xs ys Hxy _ IH]; intros Hin; [contradiction|].
  destruct Hin as [<-|Hin].
  - exists y0. split; [left; reflexivity|assumption].
  - destruct (IH Hin) as (y & Hy & HR). exists y. split; [right; assumption|assumption].
Qed.

Lemma load_vectors_fails_incomplete
    (read_json : string -> result (list item_json))
    (self : FAQSearchEngine) (data : list item_json) (w : world) :
  read_json (vectors_file self) = Ok data ->
  forallb complete data = false ->
  exists key, fst (fst (load_vectors read_json self w)) = Raise (KeyError key).
Proof.
  intros Hread Hinc. unfold load_vectors. rewrite Hread.
  destruct (comprehension (fun item => lookup "values" (item_values item)) data)
    as [vs|e] eqn:Hvs.
  2:{ apply comprehension_Raise_inv, Exists_exists in Hvs.
      destruct Hvs as (item & _ & Hitem). apply lookup_Raise_inv in Hitem.
      destruct Hitem as [_ ->]. exists "values"%string. reflexivity. }
  destruct (comprehension (metadata_field "question" m_question) data)
    as [qs|e] eqn:Hqs.
  2:{ apply comprehension_Raise_inv, Exists_exists in Hqs.
      destruct Hqs as (item & _ & Hitem).
      apply incomplete_of_missing_field in Hitem; [|tauto].
      destruct Hitem as [_ [k ->]]. exists k. reflexivity. }
  destruct (comprehension (metadata_field "answer" m_answer) data)
    as [ans|e] eqn:Hans.
  2:{ apply comprehension_Raise_inv, Exists_exists in Hans.
      destruct Hans as (item & _ & Hitem).
      apply incomplete_of_missing_field in Hitem; [|tauto].
      destruct Hitem as [_ [k ->]]. exists k. reflexivity. }
  destruct (comprehension (metadata_field "section" m_section) data)
    as [secs|e] eqn:Hsecs.
  2:{ apply comprehension_Raise_inv, Exists_exists in Hsecs.
      destruct Hsecs as (item & _ & Hitem).
      apply incomplete_of_missing_field in Hitem; [|tauto].
      destruct Hitem as [_ [k ->]]. exists k. reflexivity. }
  exfalso.
  assert (Hall : forallb complete data = true); [|congruence].
  apply forallb_forall. intros item Hin.
  apply comprehension_Ok_inv in Hvs, Hqs, Hans, Hsecs.
  destruct (Forall2_In_left item Hvs Hin) as (v & _ & Hv).
  destruct (Forall2_In_left item Hqs Hin) as (q & _ & Hq).
  destruct (Forall2_In_left item Hans Hin) as (a & _ & Ha).
  destruct (Forall2_In_left item Hsecs Hin) as (s & _ & Hs).
  unfold metadata_field, complete in *.
  destruct (item_values item); [|discriminate].
  destruct (item_metadata item) as [md|]; [|discriminate].
  cbn in Hq, Ha, Hs.
  destruct (m_question md); [|discriminate].
  destruct (m_answer md); [|discriminate].
  destruct (m_section md); [|discriminate].
  reflexivity.
Qed.

(** X11.  When the vectors file is read, [load_vectors] succeeds exactly
    when every entry has the key [values] and, under [metadata], the keys
    [question], [answer] and [section]; otherwise it raises a [KeyError]. *)
Theorem load_vectors_succeeds_iff_complete
    (read_json : string -> result (list item_json))
    (self : FAQSearchEngine) (data : list item_json) (w : world) :
  read_json (vectors_file self) = Ok data ->
  (fst (fst (load_vectors read_json self w)) = Ok tt
   <-> forallb complete data = true)
  /\ (forallb complete data = false ->
      exists key, fst (fst (load_vectors read_json self w)) = Raise (KeyError key)).
Proof.
  intros Hread.
  pose proof (load_vectors_fails_incomplete read_json self w Hread) as Hfail.
  split; [|exact Hfail]. split.
  - intros Hok. destruct (forallb complete data) eqn:Hc; [reflexivity|].
    destruct (Hfail eq_refl) as [k Hk]. congruence.
  - intros Hc.
    assert (Hall : forall item, In item data -> complete item = true).
    { apply forallb_forall. assumption. }
    unfold load_vectors. rewrite Hread.
    rewrite (comprehension_total _ values_of data)
      by (intros x Hx; apply (complete_fields x (Hall x Hx))).
    rewrite (comprehension_total _ (field_of m_question) data)
      by (intros x Hx; apply (complete_fields x (Hall x Hx))).
    rewrite (comprehension_total _ (field_of m_answer) data)
      by (intros x Hx; apply (complete_fields x (Hall x Hx))).
    rewrite (comprehension_total _ (field_of m_section) data)
      by (intros x Hx; apply (complete_fields x (Hall x Hx))).
    reflexivity.
Qed.

Lemma load_vectors_succeeds_iff_complete_witness :
  (fst (fst (load_vectors (fun _ => Ok holed_snapshot) example_store fresh_world)) = Ok tt
   <-> forallb complete holed_snapshot = true)
  /\ (forallb complete holed_snapshot = false ->
      exists key,
        fst (fst (load_vectors (fun _ => Ok holed_snapshot) example_store fresh_world))
        = Raise (KeyError key)).
Proof.
  apply (@load_vectors_succeeds_iff_complete (fun _ => Ok holed_snapshot)
           example_store holed_snapshot fresh_world).
  reflexivity.
Defined.

Lemma comprehension_question_missing (data : list item_json) :
  existsb lacks_question data = true ->
  exists key,
    comprehension (metadata_field "question" m_question) data = Raise (KeyError key).
Proof.
  induction data as [|item rest IH]; cbn; [discriminate|].
  unfold metadata_field at 1, lacks_question at 1.
  destruct (item_metadata item) as [md|]; cbn.
  - destruct (m_question md); cbn.
    + intros H. destruct (IH H) as [key ->]. exists key. reflexivity.
    + intros _. exists "question"%string. reflexivity.
  - intros _. exists "metadata"%string. reflexivity.
Qed.

(** X12.  [load_vectors] is not atomic.  When every entry of the snapshot
    has its embedding and some entry lacks [metadata] or its [question],
    the load raises a [KeyError] after [self.vectors] is replaced: the
    engine is left with the vectors of the new snapshot and the questions,
    answers and sections it had before. *)
Theorem failed_load_keeps_new_vectors
    (read_json : string -> result (list item_json))
    (self : FAQSearchEngine) (data : list item_json) (w : world) :
  read_json (vectors_file self) = Ok data ->
  forallb has_values data = true ->
  existsb lacks_question data = true ->
  exists key,
    load_vectors read_json self w
    = (Raise (KeyError key),
       mkEngine (vectors_file self) (map values_of data)
         (questions self) (answers self) (sections self),
       mkWorld (stdin w) (stdout w ++ [ErrorLoadingVectors (KeyError key)]) (requests w)).
Proof.
  intros Hread Hvalues Hlacks.
  destruct (comprehension_question_missing data Hlacks) as [key Hkey].
  exists key. unfold load_vectors. rewrite Hread.
  rewrite (comprehension_total _ values_of data).
  - rewrite Hkey. reflexivity.
  - intros item Hin. rewrite forallb_forall in Hvalues.
    specialize (Hvalues item Hin). unfold has_values, values_of in *.
    destruct (item_values item); [reflexivity|discriminate].
Qed.

Lemma failed_load_keeps_new_vectors_witness :
  exists key,
    load_vectors (fun _ => Ok bare_snapshot) example_store fresh_world
    = (Raise (KeyError key),
       mkEngine "aven_faq_vectors.json" [[0; 1]%float]
         ["R0"; "R1"; "R2"]%string ["A0"; "A1"; "A2"]%string ["S0"; "S1"; "S2"]%string,
       mkWorld [] [ErrorLoadingVectors (KeyError key)] []).
Proof.
  apply (@failed_load_keeps_new_vectors (fun _ => Ok bare_snapshot) example_store
           bare_snapshot fresh_world); reflexivity.
Defined.

(** * Properties of the vectors the scripts write *)

(** ** Identifiers *)

Lemma uint_of_string_zeros (k : nat) (s : string) :
  NilEmpty.uint_of_string (string_of_list_ascii (repeat "0"%char k) ++ s)%string
  = option_map (Nat.iter k Decimal.D0) (NilEmpty.uint_of_string s).
Proof.
  induction k as [|k IH]; cbn.
  - destruct (NilEmpty.uint_of_string s); reflexivity.
  - rewrite IH. destruct (NilEmpty.uint_of_string s); reflexivity.
Qed.

Lemma of_uint_leading_zeros (k : nat) (d : Decimal.uint) :
  Nat.of_uint (Nat.iter k Decimal.D0 d) = Nat.of_uint d.
Proof.
  induction k as [|k IH]; cbn; [reflexivity|]. exact IH.
Qed.

Lemma decode_format_04d (i : nat) : decode_04d (format_04d i) = Some i.
Proof.
  unfold decode_04d, format_04d, zfill.
  rewrite uint_of_string_zeros, NilEmpty.usu. cbn [option_map].
  rewrite of_uint_leading_zeros, DecimalNat.Unsigned.of_to. reflexivity.
Qed.

Lemma append_inj_l (p s t : string) : (p ++ s = p ++ t)%string -> s = t.
Proof.
  induction p as [|c p IH]; cbn; intros H; [assumption|].
  injection H as H. auto.
Qed.

Lemma vector_id_inj (id_prefix : string) (i j : nat) :
  vector_id id_prefix i = vector_id id_prefix j -> i = j.
Proof.
  unfold vector_id. intros H.
  apply append_inj_l in H. apply (append_inj_l "_") in H.
  assert (Hd : decode_04d (format_04d i) = decode_04d (format_04d j)) by congruence.
  rewrite !decode_format_04d in Hd. congruence.
Qed.

(** ** The loop of [create_pinecone_vectors] *)

Lemma pinecone_vector_complete (id_prefix : string) (model : option string)
    (i : nat) (entry : faq_json) (embedding : list float) :
  faq_complete entry = true ->
  pinecone_vector id_prefix model i entry embedding
  = Ok (expected_vector id_prefix model i entry embedding).
Proof.
  unfold faq_complete, pinecone_vector, expected_vector.
  destruct (faq_section entry); [|discriminate].
  destruct (faq_question entry); [|discriminate].
  destruct (faq_answer entry); [|discriminate].
  destruct (faq_source_url entry); [|discriminate].
  reflexivity.
Qed.

Lemma pinecone_vector_incomplete (id_prefix : string) (model : option string)
    (i : nat) (entry : faq_json) (embedding : list float) :
  faq_complete entry = false ->
  exists key,
    pinecone_vector id_prefix model i entry embedding = Raise (KeyError key)
    /\ In key ["section"; "question"; "answer"; "source_url"]%string.
Proof.
  unfold faq_complete, pinecone_vector.
  destruct (faq_section entry); cbn;
    [|intros _; exists "section"%string; split; [reflexivity|cbn; intuition]].
  destruct (faq_question entry); cbn;
    [|intros _; exists "question"%string; split; [reflexivity|cbn; intuition]].
  destruct (faq_answer entry); cbn;
    [|intros _; exists "answer"%string; split; [reflexivity|cbn; intuition]].
  destruct (faq_source_url entry); cbn;
    [discriminate|intros _; exists "source_url"%string; split; [reflexivity|cbn; intuition]].
Qed.

Lemma for_entries_complete (id_prefix : string) (model : option string)
    (pairs : list (faq_json * list float)) (i : nat) (acc : list vector_json) :
  forallb (fun pair => faq_complete (fst pair)) pairs = true ->
  for_entries id_prefix model i pairs acc
  = Ok (acc ++ expected_vectors id_prefix model i pairs).
Proof.
  revert i acc. induction pairs as [|[entry embedding] rest IH]; intros i acc H; cbn.
  - rewrite app_nil_r. reflexivity.
  - cbn in H. apply andb_prop in H. destruct H as [He Hrest].
    rewrite (pinecone_vector_complete _ _ _ _ _ He). cbn.
    rewrite (IH _ _ Hrest), <- app_assoc. reflexivity.
Qed.

Lemma for_entries_incomplete (id_prefix : string) (model : option string)
    (pairs : list (faq_json * list float)) (i : nat) (acc : list vector_json) :
  forallb (fun pair => faq_complete (fst pair)) pairs = false ->
  exists key,
    for_entries id_prefix model i pairs acc = Raise (KeyError key)
    /\ In key ["section"; "question"; "answer"; "source_url"]%string.
Proof.
  revert i acc. induction pairs as [|[entry embedding] rest IH]; intros i acc H; cbn.
  - discriminate.
  - cbn in H. destruct (faq_complete entry) eqn:He.
    + rewrite (pinecone_vector_complete _ _ _ _ _ He). cbn. apply IH. exact H.
    + destruct (pinecone_vector_incomplete id_prefix model i entry embedding He)
        as (key & -> & Hkey).
      exists key. split; [reflexivity|assumption].
Qed.

Lemma expected_vectors_length (id_prefix : string) (model : option string)
    (pairs : list (faq_json * list float)) (i : nat) :
  List.length (expected_vectors id_prefix model i pairs) = List.length pairs.
Proof.
  revert i. induction pairs as [|[entry embedding] rest IH]; intros i; cbn;
    [reflexivity|]. rewrite IH. reflexivity.
Qed.

Lemma expected_vectors_values (id_prefix : string) (model : option string)
    (pairs : list (faq_json * list float)) (i : nat) :
  map vec_values (expected_vectors id_prefix model i pairs) = map Some (map snd pairs).
Proof.
  revert i. induction pairs as [|[entry embedding] rest IH]; intros i; cbn;
    [reflexivity|]. rewrite IH. reflexivity.
Qed.

Lemma expected_vectors_nth (id_prefix : string) (model : option string)
    (pairs : list (faq_json * list float)) (i p : nat) (v : vector_json) :
  nth_error (expected_vectors id_prefix model i pairs) p = Some v ->
  exists entry embedding,
    nth_error pairs p = Some (entry, embedding)
    /\ v = expected_vector id_prefix model (i + p) entry embedding.
Proof.
  revert i p. induction pairs as [|[entry embedding] rest IH]; intros i p H; cbn in H.
  - destruct p; discriminate.
  - destruct p as [|p]; cbn in H |- *.
    + injection H as <-. rewrite Nat.add_0_r. eauto.
    + apply IH in H. destruct H as (e' & emb' & Hnth & ->).
      replace (i + S p) with (S i + p) by lia. eauto.
Qed.

Lemma map_snd_combine {A B} (xs : list A) (ys : list B) :
  map snd (combine xs ys) = firstn (List.length xs) ys.
Proof.
  revert ys. induction xs as [|x xs IH]; intros ys; cbn; [reflexivity|].
  destruct ys as [|y ys]; cbn; [reflexivity|]. rewrite IH. reflexivity.
Qed.

Lemma map_fst_combine {A B} (xs : list A) (ys : list B) :
  map fst (combine xs ys) = firstn (List.length ys) xs.
Proof.
  revert ys. induction xs as [|x xs IH]; intros ys; cbn.
  - rewrite firstn_nil. reflexivity.
  - destruct ys as [|y ys]; cbn; [reflexivity|]. rewrite IH. reflexivity.
Qed.

Lemma forallb_fst_combine {A B} (f : A -> bool) (xs : list A) (ys : list B) :
  forallb (fun pair => f (fst pair)) (combine xs ys)
  = forallb f (firstn (List.length ys) xs).
Proof.
  revert ys. induction xs as [|x xs IH]; intros ys; cbn.
  - rewrite firstn_nil. reflexivity.
  - destruct ys as [|y ys]; cbn; [reflexivity|]. rewrite IH. reflexivity.
Qed.

Lemma string_length_append (s t : string) :
  String.length (s ++ t)%string = String.length s + String.length t.
Proof.
  induction s as [|c s IH]; cbn; [reflexivity|]. rewrite IH. reflexivity.
Qed.

Lemma string_length_zeros (k : nat) :
  String.length (string_of_list_ascii (repeat "0"%char k)) = k.
Proof.
  induction k as [|k IH]; cbn; [reflexivity|]. rewrite IH. reflexivity.
Qed.

Lemma format_04d_length (i : nat) : 4 <= String.length (format_04d i).
Proof.
  unfold format_04d, zfill. rewrite string_length_append, string_length_zeros. lia.
Qed.

Lemma nth_error_combine {A B} (xs : list A) (ys : list B) (i : nat) (x : A) (y : B) :
  nth_error (combine xs ys) i = Some (x, y) ->
  nth_error xs i = Some x /\ nth_error ys i = Some y.
Proof.
  revert ys i. induction xs as [|x0 xs IH]; intros ys i H; cbn in H.
  - destruct i; discriminate.
  - destruct ys as [|y0 ys]; [destruct i; discriminate|].
    destruct i as [|i]; cbn in H |- *.
    + injection H as <- <-. split; reflexivity.
    + apply IH. assumption.
Qed.

Lemma for_entries_inv (id_prefix : string) (model : option string)
    (pairs : list (faq_json * list float)) (vectors : list vector_json) :
  for_entries id_prefix model 0 pairs [] = Ok vectors ->
  forallb (fun pair => faq_complete (fst pair)) pairs = true
  /\ vectors = expected_vectors id_prefix model 0 pairs.
Proof.
  intros H.
  destruct (forallb (fun pair => faq_complete (fst pair)) pairs) eqn:Hc.
  - rewrite (for_entries_complete _ _ _ _ _ Hc) in H. injection H as <-.
    split; reflexivity.
  - destruct (for_entries_incomplete id_prefix model pairs 0 [] Hc) as (key & Hkey & _).
    congruence.
Qed.

Lemma expected_vectors_ids (id_prefix : string) (model : option string)
    (pairs : list (faq_json * list float)) (i : nat) :
  map vec_id (expected_vectors id_prefix model i pairs)
  = map (fun k => Some (vector_id id_prefix k)) (seq i (List.length pairs)).
Proof.
  revert i. induction pairs as [|[entry embedding] rest IH]; intros i; cbn;
    [reflexivity|]. rewrite IH. reflexivity.
Qed.

Lemma expected_vectors_ids_NoDup (id_prefix : string) (model : option string)
    (pairs : list (faq_json * list float)) :
  NoDup (map vec_id (expected_vectors id_prefix model 0 pairs)).
Proof.
  rewrite expected_vectors_ids. apply Injective_map_NoDup; [|apply seq_NoDup].
  intros i j H. injection H as H. eapply vector_id_inj. eassumption.
Qed.

(** ** [create_pinecone_vectors] *)

(** X13.  The two versions of [create_pinecone_vectors] succeed exactly
    when every FAQ entry that is paired with an embedding has the keys
    [section], [question], [answer] and [source_url]; otherwise they raise
    a [KeyError] on one of these keys and return no vector. *)
Theorem create_pinecone_vectors_needs_every_key (faq_data : list faq_json)
    (embeddings : list (list float)) (id_prefix : string) :
  let paired := firstn (List.length embeddings) faq_data in
  ((exists vectors, create_pinecone_vectors faq_data embeddings = Ok vectors)
   <-> forallb faq_complete paired = true)
  /\ ((exists vectors,
         create_pinecone_vectors_enhanced faq_data embeddings id_prefix = Ok vectors)
      <-> forallb faq_complete paired = true)
  /\ (forallb faq_complete paired = false ->
      exists key key',
        create_pinecone_vectors faq_data embeddings = Raise (KeyError key)
        /\ create_pinecone_vectors_enhanced faq_data embeddings id_prefix
           = Raise (KeyError key')
        /\ In key ["section"; "question"; "answer"; "source_url"]%string
        /\ In key' ["section"; "question"; "answer"; "source_url"]%string).
Proof.
  cbv zeta. unfold create_pinecone_vectors, create_pinecone_vectors_enhanced.
  rewrite <- (forallb_fst_combine faq_complete faq_data embeddings).
  split; [|split].
  - split.
    + intros [vectors H]. apply for_entries_inv in H. tauto.
    + intros H. rewrite (for_entries_complete _ _ _ _ _ H). eauto.
  - split.
    + intros [vectors H]. apply for_entries_inv in H. tauto.
    + intros H. rewrite (for_entries_complete _ _ _ _ _ H). eauto.
  - intros H.
    destruct (for_entries_incomplete "aven_faq" None _ 0 [] H) as (key & Hk & Hin).
    destruct (for_entries_incomplete id_prefix (Some "text-embedding-3-small"%string)
                _ 0 [] H) as (key' & Hk' & Hin').
    exists key, key'. tauto.
Qed.

Lemma create_pinecone_vectors_needs_every_key_witness :
  exists key key',
    create_pinecone_vectors [faq_refunds; faq_unanswered] [[1; 0]; [0; 1]]%float
    = Raise (KeyError key)
    /\ create_pinecone_vectors_enhanced [faq_refunds; faq_unanswered]
         [[1; 0]; [0; 1]]%float "aven_faq"
       = Raise (KeyError key')
    /\ In key ["section"; "question"; "answer"; "source_url"]%string
    /\ In key' ["section"; "question"; "answer"; "source_url"]%string.
Proof.
  pose proof (@create_pinecone_vectors_needs_every_key [faq_refunds; faq_unanswered]
                [[1; 0]; [0; 1]]%float "aven_faq") as H.
  cbv zeta in H. destruct H as (_ & _ & H).
  exact (H eq_refl).
Defined.

(** X14.  When the FAQ entries paired with an embedding are complete,
    [create_pinecone_vectors] pairs entries and embeddings in order and
    stops at the shorter list: it returns [min(len(faq_data),
    len(embeddings))] vectors, the vector number [i] carries the embedding
    number [i] and the four texts of the entry number [i], and what is left
    of the longer list is dropped without an error. *)
Theorem create_pinecone_vectors_zips (faq_data : list faq_json)
    (embeddings : list (list float)) (id_prefix : string) :
  forallb faq_complete (firstn (List.length embeddings) faq_data) = true ->
  exists vectors vectors',
    create_pinecone_vectors faq_data embeddings = Ok vectors
    /\ create_pinecone_vectors_enhanced faq_data embeddings id_prefix = Ok vectors'
    /\ List.length vectors = Nat.min (List.length faq_data) (List.length embeddings)
    /\ List.length vectors' = Nat.min (List.length faq_data) (List.length embeddings)
    /\ map vec_values vectors = map Some (firstn (List.length faq_data) embeddings)
    /\ map vec_values vectors' = map Some (firstn (List.length faq_data) embeddings)
    /\ (forall i v v',
          nth_error vectors i = Some v -> nth_error vectors' i = Some v' ->
          exists entry embedding,
            nth_error faq_data i = Some entry
            /\ nth_error embeddings i = Some embedding
            /\ v = expected_vector "aven_faq" None i entry embedding
            /\ v' = expected_vector id_prefix (Some "text-embedding-3-small"%string)
                      i entry embedding).
Proof.
  intros Hc. rewrite <- (forallb_fst_combine faq_complete faq_data embeddings) in Hc.
  unfold create_pinecone_vectors, create_pinecone_vectors_enhanced.
  rewrite !(for_entries_complete _ _ _ _ _ Hc). cbn [app].
  do 2 eexists. split; [reflexivity|]. split; [reflexivity|].
  rewrite !expected_vectors_length, length_combine, !expected_vectors_values,
    map_snd_combine.
  repeat split.
  intros i v v' Hv Hv'.
  apply expected_vectors_nth in Hv, Hv'.
  destruct Hv as (entry & embedding & Hnth & ->).
  destruct Hv' as (entry' & embedding' & Hnth' & ->).
  rewrite Hnth in Hnth'. injection Hnth' as <- <-.
  apply nth_error_combine in Hnth. destruct Hnth as [He Hemb].
  exists entry, embedding. repeat split; assumption.
Qed.

Lemma create_pinecone_vectors_zips_witness :
  exists vectors vectors',
    create_pinecone_vectors [faq_refunds; faq_limits; faq_unanswered]
      [[1; 0]; [0; 1]]%float = Ok vectors
    /\ create_pinecone_vectors_enhanced [faq_refunds; faq_limits; faq_unanswered]
         [[1; 0]; [0; 1]]%float "demo" = Ok vectors'
    /\ List.length vectors = Nat.min 3 2
    /\ List.length vectors' = Nat.min 3 2
    /\ map vec_values vectors = map Some (firstn 3 [[1; 0]; [0; 1]]%float)
    /\ map vec_values vectors' = map Some (firstn 3 [[1; 0]; [0; 1]]%float)
    /\ (forall i v v',
          nth_error vectors i = Some v -> nth_error vectors' i = Some v' ->
          exists entry embedding,
            nth_error [faq_refunds; faq_limits; faq_unanswered] i = Some entry
            /\ nth_error [[1; 0]; [0; 1]]%float i = Some embedding
            /\ v = expected_vector "aven_faq" None i entry embedding
            /\ v' = expected_vector "demo" (Some "text-embedding-3-small"%string)
                      i entry embedding).
Proof.
  apply (@create_pinecone_vectors_zips [faq_refunds; faq_limits; faq_unanswered]
           [[1; 0]; [0; 1]]%float "demo").
  reflexivity.
Defined.

(** X15.  The identifiers of the vectors are pairwise distinct: the vector
    number [i] is named by the prefix, an underscore and at least four
    decimal digits that read back as [i]. *)
Theorem vector_ids_are_distinct (faq_data : list faq_json)
    (embeddings : list (list float)) (id_prefix : string) (vectors : list vector_json) :
  create_pinecone_vectors_enhanced faq_data embeddings id_prefix = Ok vectors
  \/ (id_prefix = "aven_faq"%string
      /\ create_pinecone_vectors faq_data embeddings = Ok vectors) ->
  NoDup (map vec_id vectors)
  /\ forall i v,
       nth_error vectors i = Some v ->
       exists digits,
         vec_id v = Some (id_prefix ++ "_" ++ digits)%string
         /\ decode_04d digits = Some i
         /\ 4 <= String.length digits.
Proof.
  intros H.
  assert (Hspec : exists model,
            vectors = expected_vectors id_prefix model 0 (combine faq_data embeddings)).
  { destruct H as [H|[-> H]]; apply for_entries_inv in H; destruct H as [_ ->]; eauto. }
  destruct Hspec as [model ->]. split; [apply expected_vectors_ids_NoDup|].
  intros i v Hv. apply expected_vectors_nth in Hv.
  destruct Hv as (entry & embedding & _ & ->). cbn.
  exists (format_04d i). split; [reflexivity|].
  split; [apply decode_format_04d|apply format_04d_length].
Qed.

Lemma vector_ids_are_distinct_witness :
  NoDup (map vec_id
           [ expected_vector "aven_faq" None 0 faq_refunds [1; 0]%float;
             expected_vector "aven_faq" None 1 faq_limits [0; 1]%float ])
  /\ forall i v,
       nth_error [ expected_vector "aven_faq" None 0 faq_refunds [1; 0]%float;
                   expected_vector "aven_faq" None 1 faq_limits [0; 1]%float ] i
       = Some v ->
       exists digits,
         vec_id v = Some ("aven_faq" ++ "_" ++ digits)%string
         /\ decode_04d digits = Some i
         /\ 4 <= String.length digits.
Proof.
  apply (@vector_ids_are_distinct [faq_refunds; faq_limits] [[1; 0]; [0; 1]]%float
           "aven_faq").
  right. split; reflexivity.
Defined.

(** ** [validate_vectors] *)

Lemma validate_vector_None (i : nat) (vector : vector_json) :
  validate_vector i vector = None <-> vector_ok vector = true.
Proof.
  unfold validate_vector, vector_ok.
  destruct (vec_id vector); [|split; discriminate].
  destruct (vec_values vector) as [values|]; [|split; discriminate].
  destruct (vec_metadata vector) as [md|]; [|split; discriminate].
  destruct (md_section md); [|split; discriminate].
  destruct (md_question md); [|split; discriminate].
  destruct (md_answer md); [|split; discriminate].
  destruct (md_source_url md); [|split; discriminate].
  destruct (Nat.eqb (List.length values) 1536); split; congruence.
Qed.

Lemma validate_vector_index (i : nat) (vector : vector_json) (m : validation_message) :
  validate_vector i vector = Some m -> message_index m = Some i.
Proof.
  unfold validate_vector.
  repeat match goal with
         | |- context [match ?x with _ => _ end] => destruct x
         end;
    intros H; try discriminate; injection H as <-; reflexivity.
Qed.

Lemma validate_from_None (i : nat) (vectors : list vector_json) :
  validate_from i vectors = None <-> forallb vector_ok vectors = true.
Proof.
  revert i. induction vectors as [|v vs IH]; intros i; cbn; [tauto|].
  destruct (validate_vector i v) as [m|] eqn:Hv.
  - assert (Hok : vector_ok v = false).
    { destruct (vector_ok v) eqn:Hok; [|reflexivity].
      apply (validate_vector_None i) in Hok. congruence. }
    rewrite Hok. split; discriminate.
  - apply validate_vector_None in Hv. rewrite Hv. cbn. apply IH.
Qed.

Lemma validate_from_Some (i : nat) (vectors : list vector_json) (m : validation_message) :
  validate_from i vectors = Some m ->
  exists p v,
    nth_error vectors p = Some v
    /\ vector_ok v = false
    /\ forallb vector_ok (firstn p vectors) = true
    /\ message_index m = Some (i + p).
Proof.
  revert i. induction vectors as [|v vs IH]; intros i H; cbn in H; [discriminate|].
  destruct (validate_vector i v) as [m'|] eqn:Hv.
  - injection H as ->. exists 0, v. cbn. rewrite Nat.add_0_r.
    repeat split; [|eapply validate_vector_index; eassumption].
    destruct (vector_ok v) eqn:Hok; [|reflexivity].
    apply (validate_vector_None i) in Hok. congruence.
  - apply IH in H. destruct H as (p & v' & Hnth & Hbad & Hpre & Hidx).
    exists (S p), v'. cbn. apply validate_vector_None in Hv. rewrite Hv. cbn.
    replace (i + S p) with (S i + p) by lia. tauto.
Qed.

(** X16.  [validate_vectors] returns [True] exactly for a list that is not
    empty and whose vectors all have the keys [id], [values], [metadata],
    the four metadata keys, and 1536 values; it then reports the number of
    vectors.  When it returns [False] on a list that is not empty, its
    message names the first vector that fails, and no later one. *)
Theorem validate_vectors_sound (vectors : list vector_json) :
  (fst (validate_vectors vectors) = true
   <-> vectors <> [] /\ forallb vector_ok vectors = true)
  /\ (fst (validate_vectors vectors) = true ->
      snd (validate_vectors vectors) = ValidatedVectors (List.length vectors))
  /\ (vectors = [] -> validate_vectors vectors = (false, NoVectorsToValidate))
  /\ (vectors <> [] -> fst (validate_vectors vectors) = false ->
      exists p v,
        nth_error vectors p = Some v
        /\ vector_ok v = false
        /\ forallb vector_ok (firstn p vectors) = true
        /\ message_index (snd (validate_vectors vectors)) = Some p).
Proof.
  destruct vectors as [|v vs].
  - cbn. repeat split; try discriminate; try tauto.
  - unfold validate_vectors.
    destruct (validate_from 0 (v :: vs)) as [m|] eqn:Hfrom.
    + cbn [fst snd]. split; [|split; [|split]]; try discriminate.
      * split; [discriminate|]. intros [_ Hall].
        apply (validate_from_None 0) in Hall. congruence.
      * intros _ _. apply validate_from_Some in Hfrom. exact Hfrom.
    + cbn [fst snd]. split; [|split; [|split]]; try discriminate.
      * split; [|reflexivity]. intros _. split; [discriminate|].
        apply (validate_from_None 0). assumption.
      * reflexivity.
Qed.

Lemma validate_vectors_sound_witness :
  exists p v,
    nth_error [ expected_vector "aven_faq" None 0 faq_refunds zero_embedding;
                expected_vector "aven_faq" None 1 faq_limits [0; 1]%float ] p = Some v
    /\ vector_ok v = false
    /\ forallb vector_ok
         (firstn p [ expected_vector "aven_faq" None 0 faq_refunds zero_embedding;
                     expected_vector "aven_faq" None 1 faq_limits [0; 1]%float ]) = true
    /\ message_index
         (snd (validate_vectors
                 [ expected_vector "aven_faq" None 0 faq_refunds zero_embedding;
                   expected_vector "aven_faq" None 1 faq_limits [0; 1]%float ]))
       = Some p.
Proof.
  pose proof (validate_vectors_sound
                [ expected_vector "aven_faq" None 0 faq_refunds zero_embedding;
                  expected_vector "aven_faq" None 1 faq_limits [0; 1]%float ])
    as (_ & _ & _ & H).
  apply H.
  - discriminate.
  - vm_compute. reflexivity.
Defined.

(** ** From the provider to the validated vectors *)

Lemma expected_vectors_ok (id_prefix : string) (model : option string)
    (pairs : list (faq_json * list float)) (i : nat) :
  forallb vector_ok (expected_vectors id_prefix model i pairs)
  = forallb (fun pair => Nat.eqb (List.length (snd pair)) 1536) pairs.
Proof.
  revert i. induction pairs as [|[entry embedding] rest IH]; intros i; cbn;
    [reflexivity|]. rewrite IH. reflexivity.
Qed.

Lemma forallb_snd_combine {A B} (f : B -> bool) (xs : list A) (ys : list B) :
  forallb (fun pair => f (snd pair)) (combine xs ys)
  = forallb f (firstn (List.length xs) ys).
Proof.
  revert ys. induction xs as [|x xs IH]; intros ys; cbn; [reflexivity|].
  destruct ys as [|y ys]; cbn; [reflexivity|]. rewrite IH. reflexivity.
Qed.

Lemma batch_outputs_dimensions
    (embeddings_create : nat -> string -> list string -> result (list (list float)))
    (model : string) (c : nat) (bs : list (list string)) :
  (forall k batch data,
     embeddings_create k model batch = Ok data ->
     Forall (fun v => List.length v = 1536) data) ->
  Forall (fun v => List.length v = 1536)
    (List.concat (batch_outputs embeddings_create model c bs)).
Proof.
  intros Hdim. revert c. induction bs as [|b bs IH]; intros c; cbn; [constructor|].
  apply Forall_app. split; [|apply IH].
  unfold batch_output.
  destruct (embeddings_create c model b) as [data|e] eqn:Hc.
  - eapply Hdim. eassumption.
  - apply Forall_forall. intros v Hv. apply repeat_spec in Hv. subst v.
    apply zero_embedding_shape.
Qed.

Lemma create_embeddings_enhanced_result
    (embeddings_create : nat -> string -> list string -> result (list (list float)))
    (model : string) (questions : list string) (w : world) :
  (forall k batch e, embeddings_create k model batch = Raise e -> is_Exception e = true) ->
  exists w',
    create_embeddings_enhanced embeddings_create questions model w
    = (Ok (List.concat (batch_outputs embeddings_create model
                          (List.length (requests w)) (batches questions))), w').
Proof.
  intros Hexn. unfold create_embeddings_enhanced. unfold bind at 1. cbn [print].
  rewrite range_step_eq.
  rewrite (for_batches_spec questions _ 0 [] _
             (embed_batch_enhanced_step embeddings_create model Hexn
                (List.length questions))).
  cbn [stdin stdout requests app]. rewrite <- batches_eq. eauto.
Qed.

(** X17.  Validation cannot tell a failed batch from an embedded one.  For
    FAQ entries that are complete and not empty, and a provider that fails
    with ordinary exceptions and otherwise returns one vector of 1536
    numbers per text, the pipeline of [embed_aven_faq_enhanced.py]
    ([create_embeddings], [create_pinecone_vectors], [validate_vectors])
    always reaches [True], with one vector per entry; when every request
    fails, all of these vectors are the zero vector. *)
Theorem zero_filled_vectors_pass_validation
    (embeddings_create : nat -> string -> list string -> result (list (list float)))
    (model id_prefix : string) (faq_data : list faq_json) (w : world) :
  (forall k batch e, embeddings_create k model batch = Raise e -> is_Exception e = true) ->
  (forall k batch data,
     embeddings_create k model batch = Ok data ->
     List.length data = List.length batch
     /\ Forall (fun v => List.length v = 1536) data) ->
  faq_data <> [] ->
  forallb faq_complete faq_data = true ->
  let questions := map (fun entry => text_of (faq_question entry)) faq_data in
  exists embeddings w' vectors,
    create_embeddings_enhanced embeddings_create questions model w = (Ok embeddings, w')
    /\ create_pinecone_vectors_enhanced faq_data embeddings id_prefix = Ok vectors
    /\ List.length vectors = List.length faq_data
    /\ validate_vectors vectors = (true, ValidatedVectors (List.length faq_data))
    /\ ((forall k batch, exists e, embeddings_create k model batch = Raise e) ->
        map vec_values vectors
        = repeat (Some zero_embedding) (List.length faq_data)).
Proof.
  intros Hexn Hdim Hne Hcomplete questions.
  destruct (create_embeddings_enhanced_result embeddings_create model questions w Hexn)
    as [w' Hcreate].
  set (out := List.concat (batch_outputs embeddings_create model
                             (List.length (requests w)) (batches questions))) in *.
  assert (Hlen : List.length out = List.length faq_data).
  { unfold out. rewrite (@length_batch_outputs embeddings_create model).
    - rewrite batches_concat. unfold questions. apply length_map.
    - intros k batch data H. apply (Hdim k batch data H). }
  assert (Hdims : Forall (fun v => List.length v = 1536) out).
  { apply batch_outputs_dimensions. intros k batch data H. apply (Hdim k batch data H). }
  assert (Hpairs : forallb (fun pair : faq_json * list float => faq_complete (fst pair))
                     (combine faq_data out) = true).
  { rewrite forallb_fst_combine, Hlen, firstn_all. assumption. }
  exists out, w', (expected_vectors id_prefix (Some "text-embedding-3-small"%string) 0
                     (combine faq_data out)).
  split; [exact Hcreate|]. split.
  { unfold create_pinecone_vectors_enhanced.
    rewrite (for_entries_complete _ _ _ _ _ Hpairs). reflexivity. }
  assert (Hcount : List.length
                     (expected_vectors id_prefix (Some "text-embedding-3-small"%string) 0
                        (combine faq_data out)) = List.length faq_data).
  { rewrite expected_vectors_length, length_combine, Hlen. apply Nat.min_id. }
  split; [exact Hcount|]. split.
  - assert (Hok : forallb vector_ok
                    (expected_vectors id_prefix (Some "text-embedding-3-small"%string) 0
                       (combine faq_data out)) = true).
    { rewrite expected_vectors_ok.
      rewrite (forallb_snd_combine (fun v => Nat.eqb (List.length v) 1536)).
      apply forallb_forall. intros v Hv. apply Nat.eqb_eq.
      rewrite Forall_forall in Hdims. apply Hdims.
      rewrite <- (firstn_skipn (List.length faq_data) out).
      apply in_or_app. left. assumption. }
    unfold validate_vectors.
    destruct (expected_vectors id_prefix (Some "text-embedding-3-small"%string) 0
                (combine faq_data out)) as [|v vs] eqn:Hvs.
    + cbn in Hcount. destruct faq_data; [contradiction|discriminate].
    + apply (validate_from_None 0) in Hok. rewrite Hok, Hcount. reflexivity.
  - intros Hall.
    rewrite expected_vectors_values, map_snd_combine, <- Hlen, firstn_all.
    assert (Hzero : forall c bs,
              List.concat (batch_outputs embeddings_create model c bs)
              = repeat zero_embedding (List.length (List.concat bs))).
    { intros c bs. revert c. induction bs as [|b bs IH]; intros c; cbn; [reflexivity|].
      rewrite IH, length_app, repeat_app. f_equal. unfold batch_output.
      destruct (Hall c b) as [e ->]. reflexivity. }
    unfold out. rewrite Hzero, batches_concat, repeat_length.
    unfold questions. rewrite length_map.
    apply map_repeat.
Qed.

Lemma zero_filled_vectors_pass_validation_witness :
  exists embeddings w' vectors,
    create_embeddings_enhanced wide_flaky_provider
      (map (fun entry => text_of (faq_question entry)) [faq_refunds; faq_limits])
      "text-embedding-3-small" fresh_world
    = (Ok embeddings, w')
    /\ create_pinecone_vectors_enhanced [faq_refunds; faq_limits] embeddings "aven_faq"
       = Ok vectors
    /\ List.length vectors = 2
    /\ validate_vectors vectors = (true, ValidatedVectors 2)
    /\ ((forall k batch,
           exists e, wide_flaky_provider k "text-embedding-3-small" batch = Raise e) ->
        map vec_values vectors = repeat (Some zero_embedding) 2).
Proof.
  apply (@zero_filled_vectors_pass_validation wide_flaky_provider
           "text-embedding-3-small" "aven_faq" [faq_refunds; faq_limits] fresh_world).
  - intros k batch e. unfold wide_flaky_provider.
    destruct (Nat.eqb k 0); intros H; [injection H as <-; reflexivity|discriminate].
  - intros k batch data. unfold wide_flaky_provider.
    destruct (Nat.eqb k 0); intros H; [discriminate|]. injection H as <-.
    split; [apply length_map|].
    apply Forall_forall. intros v Hv. apply in_map_iff in Hv.
    destruct Hv as (t & <- & _). unfold ones_embedding. apply repeat_length.
  - discriminate.
  - reflexivity.
Defined.

(** ** From the vectors file back to the engine *)

Lemma item_of_expected_vector (id_prefix : string) (model : option string)
    (i : nat) (entry : faq_json) (embedding : list float) :
  item_of_vector (expected_vector id_prefix model i entry embedding)
  = mkItem (Some embedding)
      (Some (mkMetadata (Some (text_of (faq_question entry)))
               (Some (text_of (faq_answer entry)))
               (Some (text_of (faq_section entry))))).
Proof. reflexivity. Qed.

Lemma items_of_expected_vectors (id_prefix : string) (model : option string)
    (pairs : list (faq_json * list float)) (i : nat) :
  let items := map item_of_vector (expected_vectors id_prefix model i pairs) in
  forallb complete items = true
  /\ map values_of items = map snd pairs
  /\ map (field_of m_question) items
     = map (fun pair => text_of (faq_question (fst pair))) pairs
  /\ map (field_of m_answer) items
     = map (fun pair => text_of (faq_answer (fst pair))) pairs
  /\ map (field_of m_section) items
     = map (fun pair => text_of (faq_section (fst pair))) pairs.
Proof.
  cbv zeta. revert i.
  induction pairs as [|[entry embedding] rest IH]; intros i; cbn [expected_vectors map].
  - repeat split.
  - destruct (IH (S i)) as (Hc & Hv & Hq & Ha & Hs).
    rewrite Hv, Hq, Ha, Hs. cbn [forallb]. rewrite Hc.
    repeat split.
Qed.

(** X18.  The engine loads what the scripts write.  When the vectors file
    holds the vectors that [create_pinecone_vectors] returned, [load_vectors]
    succeeds, and the engine holds, in order, the embeddings and the
    questions, answers and sections of the FAQ entries that were paired:
    record [i] of the engine is entry [i] of the FAQ data with embedding
    [i]. *)
Theorem written_vectors_load_back
    (read_json : string -> result (list item_json))
    (self : FAQSearchEngine) (w : world)
    (faq_data : list faq_json) (embeddings : list (list float))
    (id_prefix : string) (vectors : list vector_json) :
  create_pinecone_vectors_enhanced faq_data embeddings id_prefix = Ok vectors
  \/ create_pinecone_vectors faq_data embeddings = Ok vectors ->
  read_json (vectors_file self) = Ok (map item_of_vector vectors) ->
  let paired := firstn (List.length embeddings) faq_data in
  let loaded :=
    mkEngine (vectors_file self)
      (firstn (List.length faq_data) embeddings)
      (map (fun entry => text_of (faq_question entry)) paired)
      (map (fun entry => text_of (faq_answer entry)) paired)
      (map (fun entry => text_of (faq_section entry)) paired) in
  load_vectors read_json self w
  = (Ok tt, loaded,
     mkWorld (stdin w)
       (stdout w ++ [LoadedVectors (Nat.min (List.length faq_data)
                                      (List.length embeddings))])
       (requests w))
  /\ aligned loaded.
Proof.
  intros Hcreate Hread paired loaded.
  assert (Hspec : exists prefix model,
            vectors = expected_vectors prefix model 0 (combine faq_data embeddings)).
  { destruct Hcreate as [H|H]; apply for_entries_inv in H; destruct H as [_ ->]; eauto. }
  destruct Hspec as (prefix & model & ->).
  destruct (items_of_expected_vectors prefix model (combine faq_data embeddings) 0)
    as (Hc & Hv & Hq & Ha & Hs).
  set (items := map item_of_vector
                  (expected_vectors prefix model 0 (combine faq_data embeddings))) in *.
  assert (Hall : forall item, In item items -> complete item = true).
  { apply forallb_forall. assumption. }
  assert (Hfst : forall f : faq_json -> string,
            map (fun pair : faq_json * list float => f (fst pair))
              (combine faq_data embeddings)
            = map f paired).
  { intros f. unfold paired. rewrite <- map_fst_combine, map_map. reflexivity. }
  split.
  - unfold load_vectors. rewrite Hread.
    rewrite (comprehension_total _ values_of items)
      by (intros x Hx; apply (complete_fields x (Hall x Hx))).
    rewrite (comprehension_total _ (field_of m_question) items)
      by (intros x Hx; apply (complete_fields x (Hall x Hx))).
    rewrite (comprehension_total _ (field_of m_answer) items)
      by (intros x Hx; apply (complete_fields x (Hall x Hx))).
    rewrite (comprehension_total _ (field_of m_section) items)
      by (intros x Hx; apply (complete_fields x (Hall x Hx))).
    rewrite Hv, Hq, Ha, Hs, map_snd_combine.
    rewrite (Hfst (fun entry => text_of (faq_question entry))).
    rewrite (Hfst (fun entry => text_of (faq_answer entry))).
    rewrite (Hfst (fun entry => text_of (faq_section entry))).
    cbn. rewrite length_firstn. reflexivity.
  - unfold aligned, loaded, paired. cbn.
    rewrite !length_map, !length_firstn. lia.
Qed.

Lemma written_vectors_load_back_witness :
  load_vectors
    (fun _ => Ok (map item_of_vector
                    [ expected_vector "aven_faq" None 0 faq_refunds [1; 0]%float;
                      expected_vector "aven_faq" None 1 faq_limits [0; 1]%float ]))
    (new_engine "aven_faq_vectors.json") fresh_world
  = (Ok tt,
     mkEngine "aven_faq_vectors.json" [[1; 0]; [0; 1]]%float
       ["How do refunds work?"; "What is my limit?"]%string
       ["Refunds take five days."; "See the app."]%string
       ["Payments"; "Card"]%string,
     mkWorld [] [LoadedVectors 2] [])
  /\ aligned
       (mkEngine "aven_faq_vectors.json" [[1; 0]; [0; 1]]%float
          ["How do refunds work?"; "What is my limit?"]%string
          ["Refunds take five days."; "See the app."]%string
          ["Payments"; "Card"]%string).
Proof.
  apply (@written_vectors_load_back _ (new_engine "aven_faq_vectors.json") fresh_world
           [faq_refunds; faq_limits; faq_unanswered] [[1; 0]; [0; 1]]%float "aven_faq"
           [ expected_vector "aven_faq" None 0 faq_refunds [1; 0]%float;
             expected_vector "aven_faq" None 1 faq_limits [0; 1]%float ]).
  - right. reflexivity.
  - reflexivity.
Defined.

(** * Further properties of batch embedding *)

Lemma embed_batch_bodies_agree
    (embeddings_create : nat -> string -> list string -> result (list (list float)))
    (n : nat) (model : string) (i : nat) (batch : list string) (w1 w2 : world) :
  stdin w1 = stdin w2 -> requests w1 = requests w2 ->
  fst (embed_batch embeddings_create n model i batch w1)
  = fst (embed_batch_enhanced embeddings_create n model i batch w2)
  /\ stdin (snd (embed_batch embeddings_create n model i batch w1))
     = stdin (snd (embed_batch_enhanced embeddings_create n model i batch w2))
  /\ requests (snd (embed_batch embeddings_create n model i batch w1))
     = requests (snd (embed_batch_enhanced embeddings_create n model i batch w2)).
Proof.
  intros Hin Hreq.
  unfold embed_batch, embed_batch_enhanced, try_except_Exception, bind,
    client_embeddings_create.
  rewrite Hreq.
  destruct (embeddings_create (List.length (requests w2)) model batch) as [data|e]; cbn.
  - rewrite Hin. repeat split.
  - destruct (is_Exception e); cbn; rewrite Hin; repeat split.
Qed.

Lemma for_batches_agree
    (embeddings_create : nat -> string -> list string -> result (list (list float)))
    (n : nat) (model : string) (questions : list string) (starts : list nat)
    (embeddings : list (list float)) (w1 w2 : world) :
  stdin w1 = stdin w2 -> requests w1 = requests w2 ->
  let run1 := for_batches (embed_batch embeddings_create n model)
                questions starts embeddings w1 in
  let run2 := for_batches (embed_batch_enhanced embeddings_create n model)
                questions starts embeddings w2 in
  fst run1 = fst run2
  /\ stdin (snd run1) = stdin (snd run2)
  /\ requests (snd run1) = requests (snd run2).
Proof.
  cbv zeta. revert embeddings w1 w2.
  induction starts as [|i rest IH]; intros embeddings w1 w2 Hin Hreq; cbn.
  - repeat split; assumption.
  - unfold bind.
    pose proof (embed_batch_bodies_agree embeddings_create n model i
                  (slice i (i + batch_size) questions) w1 w2 Hin Hreq)
      as (Hr & Hi & Hq).
    destruct (embed_batch embeddings_create n model i
                (slice i (i + batch_size) questions) w1) as [r1 w1'].
    destruct (embed_batch_enhanced embeddings_create n model i
                (slice i (i + batch_size) questions) w2) as [r2 w2'].
    cbn in Hr, Hi, Hq. subst r2.
    destruct r1 as [added|e].
    + apply IH; assumption.
    + cbn. repeat split; assumption.
Qed.

Lemma create_embeddings_agree
    (embeddings_create : nat -> string -> list string -> result (list (list float)))
    (questions : list string) (model : string) (w : world) :
  fst (create_embeddings embeddings_create questions model w)
  = fst (create_embeddings_enhanced embeddings_create questions model w)
  /\ requests (snd (create_embeddings embeddings_create questions model w))
     = requests (snd (create_embeddings_enhanced embeddings_create questions model w))
  /\ stdin (snd (create_embeddings embeddings_create questions model w))
     = stdin (snd (create_embeddings_enhanced embeddings_create questions model w)).
Proof.
  unfold create_embeddings, create_embeddings_enhanced.
  unfold bind at 1. cbn [print].
  pose proof (for_batches_agree embeddings_create (List.length questions) model
                questions (range 0 (List.length questions) batch_size) [] w
                (mkWorld (stdin w)
                   (stdout w ++
                    [ProcessingQuestions (List.length questions)
                       ((List.length questions + batch_size - 1) / batch_size)])
                   (requests w))
                eq_refl eq_refl) as H.
  cbv zeta in H. tauto.
Qed.

(** X19.  The two scripts embed alike: for every provider, list of
    questions and world, [create_embeddings] of [embed_aven_faq.py] and of
    [embed_aven_faq_enhanced.py] return the same list of vectors (or raise
    the same exception) and send the same requests; they differ only in
    what they print. *)
Theorem create_embeddings_versions_agree
    (embeddings_create : nat -> string -> list string -> result (list (list float)))
    (questions : list string) (model : string) (w : world) :
  let basic := create_embeddings embeddings_create questions model w in
  let enhanced := create_embeddings_enhanced embeddings_create questions model w in
  fst basic = fst enhanced
  /\ requests (snd basic) = requests (snd enhanced)
  /\ stdin (snd basic) = stdin (snd enhanced).
Proof.
  cbv zeta. apply create_embeddings_agree.
Qed.

Lemma range_first (n : nat) :
  0 < n -> exists rest, range 0 n batch_size = 0 :: rest.
Proof.
  intros Hn. rewrite range_step_eq.
  pose proof (ceil_div_bound n) as Hb.
  destruct ((n + 99) / 100) as [|m]; [lia|]. cbn. eauto.
Qed.

(** X20.  An interrupt is not absorbed.  When the first request is
    interrupted (an exception that is not an [Exception], such as
    [KeyboardInterrupt]), both versions of [create_embeddings] end with that
    exception after this one request: no zero vector is substituted and no
    further batch is sent. *)
Theorem interrupt_aborts_embedding
    (embeddings_create : nat -> string -> list string -> result (list (list float)))
    (questions : list string) (model : string) (w : world) (e : exn) :
  questions <> [] ->
  embeddings_create (List.length (requests w)) model (firstn batch_size questions)
  = Raise e ->
  is_Exception e = false ->
  create_embeddings embeddings_create questions model w
  = (Raise e,
     mkWorld (stdin w) (stdout w)
       (requests w ++ [(model, firstn batch_size questions)]))
  /\ fst (create_embeddings_enhanced embeddings_create questions model w) = Raise e
  /\ requests (snd (create_embeddings_enhanced embeddings_create questions model w))
     = requests w ++ [(model, firstn batch_size questions)].
Proof.
  intros Hne Hfail Hexn.
  assert (Hbasic : create_embeddings embeddings_create questions model w
                   = (Raise e,
                      mkWorld (stdin w) (stdout w)
                        (requests w ++ [(model, firstn batch_size questions)]))).
  { unfold create_embeddings.
    destruct (range_first (n := List.length questions)) as [rest ->].
    { destruct questions; [contradiction|cbn; lia]. }
    cbn [for_batches]. unfold bind at 1.
    unfold embed_batch, try_except_Exception, bind, client_embeddings_create.
    unfold slice. cbn [skipn]. replace (0 + batch_size - 0) with batch_size by lia.
    rewrite Hfail, Hexn. reflexivity. }
  split; [exact Hbasic|].
  destruct (create_embeddings_agree embeddings_create questions model w)
    as (Hfst & Hreq & _).
  rewrite <- Hfst, <- Hreq, Hbasic. split; reflexivity.
Qed.

Lemma interrupt_aborts_embedding_witness :
  create_embeddings interrupted_provider ["q1"; "q2"]%string "text-embedding-3-small"
    fresh_world
  = (Raise KeyboardInterrupt,
     mkWorld [] [] [("text-embedding-3-small"%string, ["q1"; "q2"]%string)])
  /\ fst (create_embeddings_enhanced interrupted_provider ["q1"; "q2"]%string
            "text-embedding-3-small" fresh_world)
     = Raise KeyboardInterrupt
  /\ requests (snd (create_embeddings_enhanced interrupted_provider ["q1"; "q2"]%string
                      "text-embedding-3-small" fresh_world))
     = [("text-embedding-3-small"%string, ["q1"; "q2"]%string)].
Proof.
  apply (@interrupt_aborts_embedding interrupted_provider ["q1"; "q2"]%string
           "text-embedding-3-small" fresh_world KeyboardInterrupt).
  - discriminate.
  - reflexivity.
  - reflexivity.
Defined.

(** * Properties of the main functions *)

(** ** [main] of [faq_search_demo.py] *)

Lemma load_vectors_frame
    (read_json : string -> result (list item_json))
    (self : FAQSearchEngine) (w : world) :
  stdin (snd (load_vectors read_json self w)) = stdin w
  /\ requests (snd (load_vectors read_json self w)) = requests w.
Proof.
  unfold load_vectors.
  repeat match goal with
         | |- context [match ?x with _ => _ end] => destruct x
         end;
    cbn; split; reflexivity.
Qed.

Lemma load_vectors_complete
    (read_json : string -> result (list item_json))
    (self : FAQSearchEngine) (data : list item_json) (w : world) :
  read_json (vectors_file self) = Ok data ->
  forallb complete data = true ->
  load_vectors read_json self w
  = (Ok tt,
     mkEngine (vectors_file self) (map values_of data)
       (map (field_of m_question) data) (map (field_of m_answer) data)
       (map (field_of m_section) data),
     mkWorld (stdin w) (stdout w ++ [LoadedVectors (List.length data)]) (requests w)).
Proof.
  intros Hread Hc.
  assert (Hall : forall item, In item data -> complete item = true).
  { apply forallb_forall. assumption. }
  unfold load_vectors. rewrite Hread.
  rewrite (comprehension_total _ values_of data)
    by (intros x Hx; apply (complete_fields x (Hall x Hx))).
  rewrite (comprehension_total _ (field_of m_question) data)
    by (intros x Hx; apply (complete_fields x (Hall x Hx))).
  rewrite (comprehension_total _ (field_of m_answer) data)
    by (intros x Hx; apply (complete_fields x (Hall x Hx))).
  rewrite (comprehension_total _ (field_of m_section) data)
    by (intros x Hx; apply (complete_fields x (Hall x Hx))).
  cbn. rewrite length_map. reflexivity.
Qed.

(** X21.  [main] of [faq_search_demo.py] starts the interactive session
    exactly when the API key is set and every entry of the vectors file is
    complete.  Without a key it reports a [ValueError] without printing or
    reading anything else; with an incomplete entry it reports a
    [KeyError], having read no input line and sent no request; otherwise it
    runs the session on an engine that holds every entry, with its lists
    aligned, and returns normally when the session ends. *)
Theorem search_demo_starts_iff_loadable (argsort : list float -> list nat)
    (read_json : string -> result (list item_json))
    (embeddings_create : nat -> string -> list string -> result (list (list float)))
    (c : ascii) (key : string) (fuel : nat) (w : world) (data : list item_json) :
  read_json "aven_faq_vectors.json"%string = Ok data ->
  (forallb complete data = false ->
   exists k w',
     main_search_demo argsort read_json embeddings_create (Some (String c key)) fuel w
     = Some (Ok (FailedToInitialize (KeyError k)), w')
     /\ stdin w' = stdin w /\ requests w' = requests w)
  /\ (forallb complete data = true ->
      let loaded :=
        mkEngine "aven_faq_vectors.json" (map values_of data)
          (map (field_of m_question) data) (map (field_of m_answer) data)
          (map (field_of m_section) data) in
      main_search_demo argsort read_json embeddings_create (Some (String c key)) fuel w
      = match interactive_search argsort embeddings_create fuel loaded
                (mkWorld (stdin w) (stdout w ++ [LoadedVectors (List.length data)])
                   (requests w)) with
        | None => None
        | Some (_, w'') => Some (Ok SessionEnded, w'')
        end
      /\ aligned loaded)
  /\ (forall fuel0 w0,
        main_search_demo argsort read_json embeddings_create None fuel0 w0
        = Some (Ok (FailedToInitialize ValueError), w0)).
Proof.
  intros Hread. split; [|split].
  - intros Hinc. unfold main_search_demo, init.
    pose proof (load_vectors_fails_incomplete read_json
                  (mkEngine "aven_faq_vectors.json" [] [] [] []) w Hread Hinc)
      as [k Hk].
    pose proof (load_vectors_frame read_json
                  (mkEngine "aven_faq_vectors.json" [] [] [] []) w) as [Hin Hreq].
    destruct (load_vectors read_json (mkEngine "aven_faq_vectors.json" [] [] [] []) w)
      as [[r self'] w'].
    cbn in Hk, Hin, Hreq. subst r. cbn. eauto.
  - intros Hc loaded. split.
    + unfold main_search_demo, init.
      rewrite (load_vectors_complete read_json
                 (mkEngine "aven_faq_vectors.json" [] [] [] []) w Hread Hc).
      cbn [vectors_file]. fold loaded.
      destruct (while_True_outcome argsort embeddings_create loaded fuel
                  (snd (print Banner
                          (mkWorld (stdin w)
                             (stdout w ++ [LoadedVectors (List.length data)])
                             (requests w)))))
        as [Hnone|(w'' & out & Hsome & _)];
        unfold interactive_search; rewrite ?Hnone, ?Hsome; reflexivity.
    + unfold aligned, loaded. cbn. rewrite !length_map. repeat split.
  - intros fuel0 w0. reflexivity.
Qed.

Lemma search_demo_starts_iff_loadable_witness :
  exists k w',
    main_search_demo Np.stable_argsort (fun _ => Ok holed_snapshot) constant_provider
      (Some "sk-key"%string) 5 (mkWorld [Line "refunds"] [] [])
    = Some (Ok (FailedToInitialize (KeyError k)), w')
    /\ stdin w' = [Line "refunds"] /\ requests w' = [].
Proof.
  pose proof (@search_demo_starts_iff_loadable Np.stable_argsort (fun _ => Ok holed_snapshot)
                constant_provider "s"%char "k-key" 5 (mkWorld [Line "refunds"] [] [])
                holed_snapshot eq_refl) as (H & _ & _).
  apply H. reflexivity.
Defined.

(** ** The main functions of the embedding scripts *)

Lemma quiet_sret {A} (a : A) : quiet (sret a).
Proof. intros s. split; reflexivity. Qed.

Lemma quiet_say (o : script_event) : quiet (say o).
Proof. intros s. split; reflexivity. Qed.

Lemma quiet_slift {A} (r : result A) : quiet (slift r).
Proof. intros s. split; reflexivity. Qed.

Lemma quiet_sbind {A B} (m : Script A) (k : A -> Script B) :
  quiet m -> (forall a, quiet (k a)) -> quiet (sbind m k).
Proof.
  intros Hm Hk s. unfold sbind. destruct (Hm s) as [Hd Hs].
  destruct (m s) as [[a|e] s1]; cbn in Hd, Hs |- *.
  - destruct (Hk a s1) as [Hd' Hs']. split; congruence.
  - split; assumption.
Qed.

Lemma quiet_say_all (os : list script_event) : quiet (say_all os).
Proof.
  induction os as [|o os IH]; cbn; [apply quiet_sret|].
  apply quiet_sbind; [apply quiet_say|intros _; exact IH].
Qed.

Lemma quiet_show_sample (enhanced : bool) (vectors : list vector_json) :
  quiet (show_sample enhanced vectors).
Proof.
  unfold show_sample. destruct vectors as [|sample rest]; [apply quiet_sret|].
  repeat first
    [ apply quiet_sbind; [|intros ?]
    | apply quiet_say
    | apply quiet_slift
    | apply quiet_sret ].
  destruct enhanced; [apply quiet_say|apply quiet_sret].
Qed.

Lemma quiet_show_questions (i : nat) (questions : list string) :
  quiet (show_questions i questions).
Proof.
  revert i. induction questions as [|q rest IH]; intros i; cbn; [apply quiet_sret|].
  apply quiet_sbind; [apply quiet_say|intros _; apply IH].
Qed.

Lemma quiet_load_faq_data (read_faq_json : string -> result (list faq_json))
    (file_path : string) :
  quiet (load_faq_data read_faq_json file_path).
Proof.
  unfold load_faq_data.
  destruct (read_faq_json file_path) as [data|e].
  - apply quiet_sbind; [apply quiet_say|intros _; apply quiet_sret].
  - destruct e; try apply quiet_slift;
      (apply quiet_sbind; [apply quiet_say|intros _; apply quiet_sret]).
Qed.

Lemma quiet_load_faq_data_enhanced (read_faq_json : string -> result (list faq_json))
    (parse_faq_from_text : string -> list faq_json * list script_event)
    (file_path : string) :
  quiet (load_faq_data_enhanced read_faq_json parse_faq_from_text file_path).
Proof.
  unfold load_faq_data_enhanced.
  destruct (endswith file_path ".json"); [apply quiet_load_faq_data|].
  destruct (endswith file_path ".txt").
  - destruct (parse_faq_from_text file_path) as [data printed].
    apply quiet_sbind; [apply quiet_say_all|intros _; apply quiet_sret].
  - apply quiet_sbind; [apply quiet_say|intros _; apply quiet_sret].
Qed.

Lemma quiet_try_faq_files (path_exists : string -> bool)
    (read_faq_json : string -> result (list faq_json))
    (parse_faq_from_text : string -> list faq_json * list script_event)
    (faq_files : list string) (faq_data : list faq_json) :
  quiet (try_faq_files path_exists read_faq_json parse_faq_from_text faq_files faq_data).
Proof.
  revert faq_data. induction faq_files as [|file rest IH]; intros faq_data; cbn.
  - apply quiet_sret.
  - destruct (path_exists file); [|apply IH].
    apply quiet_sbind; [apply quiet_say|intros _].
    apply quiet_sbind; [apply quiet_load_faq_data_enhanced|intros loaded].
    destruct loaded; [apply IH|apply quiet_sret].
Qed.

Lemma embedder_disk {A} (m : M A) (s : script_world) :
  disk (snd (embedder m s)) = disk s.
Proof.
  unfold embedder. destruct (m (mkWorld [] [] (sent s))) as [r w']. reflexivity.
Qed.

Lemma comprehension_length {A B} (f : A -> result B) (xs : list A) (ys : list B) :
  comprehension f xs = Ok ys -> List.length ys = List.length xs.
Proof.
  intros H. apply comprehension_Ok_inv in H.
  induction H; cbn; [reflexivity|]. rewrite IHForall2. reflexivity.
Qed.

Lemma create_vectors_length (model : option string) (id_prefix : string)
    (faq_data : list faq_json) (embeddings : list (list float))
    (vectors : list vector_json) :
  for_entries id_prefix model 0 (combine faq_data embeddings) [] = Ok vectors ->
  List.length vectors = Nat.min (List.length faq_data) (List.length embeddings).
Proof.
  intros H. apply for_entries_inv in H. destruct H as [_ ->].
  rewrite expected_vectors_length. apply length_combine.
Qed.

(** What follows the successful save in both scripts leaves the disk as it
    is. *)
Lemma after_save_quiet (enhanced : bool) (summary : script_event)
    (vectors : list vector_json) (closing : Script unit) :
  quiet closing ->
  quiet (sbind (say summary)
           (fun _ => sbind (show_sample enhanced vectors) (fun _ => closing))).
Proof.
  intros Hc. apply quiet_sbind; [apply quiet_say|intros _].
  apply quiet_sbind; [apply quiet_show_sample|intros _; exact Hc].
Qed.

Lemma quiet_keeps_disk {A} (m : Script A) : quiet m -> keeps_disk m.
Proof. intros H s. apply H. Qed.

Lemma keeps_disk_embedder {A} (m : M A) : keeps_disk (embedder m).
Proof. intros s. apply embedder_disk. Qed.

Lemma keeps_disk_writes (write_vectors_json : string -> list vector_json -> result unit)
    (file : string) (P : list vector_json -> Prop) {A} (m : Script A) :
  keeps_disk m -> writes_at_most write_vectors_json file P m.
Proof. intros H s. left. apply H. Qed.

Lemma writes_at_most_bind (write_vectors_json : string -> list vector_json -> result unit)
    (file : string) (P : list vector_json -> Prop) {A B}
    (m : Script A) (k : A -> Script B) :
  keeps_disk m ->
  (forall a s, fst (m s) = Ok a -> writes_at_most write_vectors_json file P (k a)) ->
  writes_at_most write_vectors_json file P (sbind m k).
Proof.
  intros Hm Hk s. unfold sbind. pose proof (Hm s) as Hd.
  destruct (m s) as [[a|e] s1] eqn:Hms; cbn in Hd |- *.
  - assert (Ha : fst (m s) = Ok a) by (rewrite Hms; reflexivity).
    destruct (Hk a s Ha s1) as [H|(vectors & HP & H)].
    + left. congruence.
    + right. exists vectors. split; [exact HP|]. congruence.
  - left. exact Hd.
Qed.

Lemma save_vectors_writes (write_vectors_json : string -> list vector_json -> result unit)
    (file : string) (P : list vector_json -> Prop) (vectors : list vector_json)
    (k : bool -> Script unit) :
  P vectors ->
  (forall saved, keeps_disk (k saved)) ->
  writes_at_most write_vectors_json file P
    (sbind (save_vectors write_vectors_json file vectors) k).
Proof.
  intros HP Hk s. right. exists vectors. split; [exact HP|].
  unfold sbind, save_vectors, write_event.
  destruct (write_vectors_json file vectors) as [u|e].
  - rewrite Hk. reflexivity.
  - destruct (is_Exception e); [rewrite Hk|]; reflexivity.
Qed.

Lemma load_faq_data_Ok (read_faq_json : string -> result (list faq_json))
    (file_path : string) (data : list faq_json) (s : script_world) :
  fst (load_faq_data read_faq_json file_path s) = Ok data ->
  data = [] \/ read_faq_json file_path = Ok data.
Proof.
  unfold load_faq_data.
  destruct (read_faq_json file_path) as [d|e]; cbn.
  - intros H. injection H as <-. right. reflexivity.
  - destruct e; cbn; intros H; try discriminate; injection H as <-; left; reflexivity.
Qed.

Lemma slift_Ok {A} (r : result A) (a : A) (s : script_world) :
  fst (slift r s) = Ok a -> r = Ok a.
Proof. intros H. exact H. Qed.

(** The vectors created for as many embeddings as entries. *)
Lemma created_for_every_entry (model : option string) (id_prefix : string)
    (faq_data : list faq_json) (embeddings : list (list float))
    (vectors : list vector_json) :
  List.length embeddings = List.length faq_data ->
  for_entries id_prefix model 0 (combine faq_data embeddings) [] = Ok vectors ->
  List.length vectors = List.length faq_data
  /\ forallb faq_complete faq_data = true
  /\ vectors = expected_vectors id_prefix model 0 (combine faq_data embeddings).
Proof.
  intros Hlen H. pose proof (create_vectors_length _ _ _ _ H) as Hl.
  apply for_entries_inv in H. destruct H as [Hc Hv].
  rewrite forallb_fst_combine, Hlen, firstn_all in Hc.
  split; [lia|]. split; assumption.
Qed.

(** X22.  [main] of [embed_aven_faq.py] touches the disk at most once:
    whatever the FAQ file holds, the provider answers and the key is, it
    either writes nothing or tries to write to [aven_faq_vectors.json] the
    vectors of a complete set, that is one vector per entry of a non-empty
    FAQ file whose entries all have their four keys, made from as many
    embeddings as there are entries. *)
Theorem main_embed_writes_whole_sets
    (read_faq_json : string -> result (list faq_json))
    (write_vectors_json : string -> list vector_json -> result unit)
    (embeddings_create : nat -> string -> list string -> result (list (list float)))
    (api_key : option string) (s : script_world) :
  let s' := snd (main_embed read_faq_json write_vectors_json embeddings_create api_key s) in
  disk s' = disk s
  \/ exists faq_data embeddings vectors,
       read_faq_json "aven_support_faq_correct.json"%string = Ok faq_data
       /\ faq_data <> []
       /\ List.length embeddings = List.length faq_data
       /\ forallb faq_complete faq_data = true
       /\ create_pinecone_vectors faq_data embeddings = Ok vectors
       /\ List.length vectors = List.length faq_data
       /\ disk s'
          = disk s ++ [write_event write_vectors_json "aven_faq_vectors.json" vectors].
Proof.
  cbv zeta.
  set (P := fun vectors : list vector_json =>
              exists faq_data embeddings,
                read_faq_json "aven_support_faq_correct.json"%string = Ok faq_data
                /\ faq_data <> []
                /\ List.length embeddings = List.length faq_data
                /\ forallb faq_complete faq_data = true
                /\ create_pinecone_vectors faq_data embeddings = Ok vectors
                /\ List.length vectors = List.length faq_data).
  assert (H : writes_at_most write_vectors_json "aven_faq_vectors.json" P
                (main_embed read_faq_json write_vectors_json embeddings_create api_key)).
  { unfold main_embed.
    assert (Hquiet : forall o, writes_at_most write_vectors_json
                                 "aven_faq_vectors.json" P (say o)).
    { intros o. apply keeps_disk_writes, quiet_keeps_disk, quiet_say. }
    destruct api_key as [[|c key]|]; try apply Hquiet.
    apply writes_at_most_bind; [apply quiet_keeps_disk, quiet_say|intros _ _ _].
    apply writes_at_most_bind;
      [apply quiet_keeps_disk, quiet_load_faq_data|intros faq_data s0 Hload].
    apply load_faq_data_Ok in Hload.
    destruct faq_data as [|entry rest]; [apply Hquiet|].
    destruct Hload as [Hload|Hread]; [discriminate|].
    set (faq_data := entry :: rest) in *.
    apply writes_at_most_bind;
      [apply quiet_keeps_disk, quiet_slift|intros questions s1 Hq].
    apply slift_Ok, comprehension_length in Hq.
    apply writes_at_most_bind; [apply quiet_keeps_disk, quiet_say|intros _ _ _].
    apply writes_at_most_bind; [apply quiet_keeps_disk, quiet_say|intros _ _ _].
    apply writes_at_most_bind; [apply keeps_disk_embedder|intros embeddings s2 _].
    destruct (Nat.eqb (List.length embeddings) (List.length questions)) eqn:Hlen;
      cbn [negb]; [|apply Hquiet].
    apply Nat.eqb_eq in Hlen.
    apply writes_at_most_bind; [apply quiet_keeps_disk, quiet_say|intros _ _ _].
    apply writes_at_most_bind;
      [apply quiet_keeps_disk, quiet_slift|intros vectors s3 Hv].
    apply slift_Ok in Hv.
    apply writes_at_most_bind; [apply quiet_keeps_disk, quiet_say|intros _ _ _].
    assert (Hlen' : List.length embeddings = List.length faq_data) by congruence.
    pose proof Hv as Hv'. unfold create_pinecone_vectors in Hv'.
    destruct (created_for_every_entry _ _ _ _ Hlen' Hv') as (Hl & Hc & _).
    apply save_vectors_writes.
    - exists faq_data, embeddings. repeat split; try assumption. discriminate.
    - intros [|]; [|apply quiet_keeps_disk, quiet_sret].
      apply quiet_keeps_disk, after_save_quiet, quiet_say. }
  destruct (H s) as [Hs|(vectors & (faq_data & embeddings & HP) & Hs)].
  - left. exact Hs.
  - right. exists faq_data, embeddings, vectors. tauto.
Qed.

Lemma validate_vectors_true (vectors : list vector_json) (message : validation_message) :
  validate_vectors vectors = (true, message) ->
  vectors <> [] /\ forallb vector_ok vectors = true.
Proof.
  destruct vectors as [|v vs]; [discriminate|].
  unfold validate_vectors.
  destruct (validate_from 0 (v :: vs)) as [m|] eqn:Hfrom; [discriminate|].
  intros _. split; [discriminate|]. apply (validate_from_None 0). exact Hfrom.
Qed.

Lemma say_all_result (os : list script_event) (s : script_world) :
  exists s', say_all os s = (Ok tt, s').
Proof.
  revert s. induction os as [|o os IH]; intros s; cbn.
  - eexists. reflexivity.
  - unfold sbind, say. apply IH.
Qed.

(** Where the entries found by the loop over the two candidate files come
    from. *)
Lemma try_faq_files_Ok (path_exists : string -> bool)
    (read_faq_json : string -> result (list faq_json))
    (parse_faq_from_text : string -> list faq_json * list script_event)
    (faq_data : list faq_json) (s : script_world) :
  fst (try_faq_files path_exists read_faq_json parse_faq_from_text
         ["aven_support_faq_correct.json"; "aven_support_faq_correct.txt"]%string [] s)
  = Ok faq_data ->
  faq_data = []
  \/ (path_exists "aven_support_faq_correct.json"%string = true
      /\ read_faq_json "aven_support_faq_correct.json"%string = Ok faq_data)
  \/ (path_exists "aven_support_faq_correct.txt"%string = true
      /\ fst (parse_faq_from_text "aven_support_faq_correct.txt"%string) = faq_data).
Proof.
  assert (Htxt : forall s0 data,
            fst (try_faq_files path_exists read_faq_json parse_faq_from_text
                   ["aven_support_faq_correct.txt"]%string [] s0) = Ok data ->
            data = []
            \/ (path_exists "aven_support_faq_correct.txt"%string = true
                /\ fst (parse_faq_from_text "aven_support_faq_correct.txt"%string) = data)).
  { intros s0 data. cbn [try_faq_files].
    destruct (path_exists "aven_support_faq_correct.txt"%string);
      [|cbn; intros H; injection H as <-; left; reflexivity].
    unfold sbind at 1. cbn [say].
    unfold load_faq_data_enhanced.
    change (endswith "aven_support_faq_correct.txt" ".json") with false.
    change (endswith "aven_support_faq_correct.txt" ".txt") with true.
    cbv iota.
    destruct (parse_faq_from_text "aven_support_faq_correct.txt"%string)
      as [parsed printed].
    unfold sbind.
    match goal with
    | |- context [say_all printed ?s1] =>
        destruct (say_all_result printed s1) as [s2 ->]
    end.
    cbn [sret].
    destruct parsed as [|entry rest]; cbn; intros H; injection H as <-.
    - left. reflexivity.
    - right. split; reflexivity. }
  cbn [try_faq_files] in Htxt |- *.
  destruct (path_exists "aven_support_faq_correct.json"%string).
  - unfold sbind at 1. cbn [say].
    unfold load_faq_data_enhanced.
    change (endswith "aven_support_faq_correct.json" ".json") with true.
    cbv iota. unfold sbind at 1.
    match goal with
    | |- context [load_faq_data read_faq_json ?f ?s1] =>
        pose proof (@load_faq_data_Ok read_faq_json f) as Hload;
        specialize (fun data => Hload data s1);
        destruct (load_faq_data read_faq_json f s1) as [[loaded|e] s2]
    end; [|discriminate].
    destruct (Hload loaded eq_refl) as [->|Hread].
    + intros H. apply Htxt in H. tauto.
    + destruct loaded as [|entry rest]; [intros H; apply Htxt in H; tauto|].
      cbn. intros H. injection H as <-. right. left. split; [reflexivity|exact Hread].
  - intros H. apply Htxt in H. tauto.
Qed.

(** X23.  [main] of [embed_aven_faq_enhanced.py] touches the disk at most
    once, and only with vectors that passed [validate_vectors]: it either
    writes nothing or tries to write to [aven_faq_vectors.json] one vector
    per entry of the FAQ data, every vector having its keys and 1536 values.
    The entries are those of the JSON file, or those parsed from the text
    file, and they all have their four keys. *)
Theorem main_embed_enhanced_writes_validated
    (path_exists : string -> bool)
    (read_faq_json : string -> result (list faq_json))
    (parse_faq_from_text : string -> list faq_json * list script_event)
    (write_vectors_json : string -> list vector_json -> result unit)
    (embeddings_create : nat -> string -> list string -> result (list (list float)))
    (api_key : option string) (s : script_world) :
  let s' := snd (main_embed_enhanced path_exists read_faq_json parse_faq_from_text
                   write_vectors_json embeddings_create api_key s) in
  disk s' = disk s
  \/ exists faq_data embeddings vectors,
       (read_faq_json "aven_support_faq_correct.json"%string = Ok faq_data
        \/ fst (parse_faq_from_text "aven_support_faq_correct.txt"%string) = faq_data)
       /\ faq_data <> []
       /\ List.length embeddings = List.length faq_data
       /\ forallb faq_complete faq_data = true
       /\ create_pinecone_vectors_enhanced faq_data embeddings "aven_faq" = Ok vectors
       /\ List.length vectors = List.length faq_data
       /\ forallb vector_ok vectors = true
       /\ disk s'
          = disk s ++ [write_event write_vectors_json "aven_faq_vectors.json" vectors].
Proof.
  cbv zeta.
  set (P := fun vectors : list vector_json =>
              exists faq_data embeddings,
                (read_faq_json "aven_support_faq_correct.json"%string = Ok faq_data
                 \/ fst (parse_faq_from_text "aven_support_faq_correct.txt"%string)
                    = faq_data)
                /\ faq_data <> []
                /\ List.length embeddings = List.length faq_data
                /\ forallb faq_complete faq_data = true
                /\ create_pinecone_vectors_enhanced faq_data embeddings "aven_faq"
                   = Ok vectors
                /\ List.length vectors = List.length faq_data
                /\ forallb vector_ok vectors = true).
  assert (H : writes_at_most write_vectors_json "aven_faq_vectors.json" P
                (main_embed_enhanced path_exists read_faq_json parse_faq_from_text
                   write_vectors_json embeddings_create api_key)).
  { unfold main_embed_enhanced.
    assert (Hquiet : forall o, writes_at_most write_vectors_json
                                 "aven_faq_vectors.json" P (say o)).
    { intros o. apply keeps_disk_writes, quiet_keeps_disk, quiet_say. }
    destruct api_key as [[|c key]|]; try apply Hquiet.
    apply writes_at_most_bind;
      [apply quiet_keeps_disk, quiet_try_faq_files|intros faq_data s0 Hload].
    apply try_faq_files_Ok in Hload.
    destruct faq_data as [|entry rest]; [apply Hquiet|].
    assert (Hfrom :
      read_faq_json "aven_support_faq_correct.json"%string = Ok (entry :: rest)
      \/ fst (parse_faq_from_text "aven_support_faq_correct.txt"%string)
         = entry :: rest).
    { destruct Hload as [Hload|[[_ Hload]|[_ Hload]]];
        [discriminate|left; exact Hload|right; exact Hload]. }
    clear Hload.
    set (faq_data := entry :: rest) in *.
    apply writes_at_most_bind;
      [apply quiet_keeps_disk, quiet_slift|intros questions s1 Hq].
    apply slift_Ok, comprehension_length in Hq.
    apply writes_at_most_bind; [apply quiet_keeps_disk, quiet_say|intros _ _ _].
    apply writes_at_most_bind; [apply quiet_keeps_disk, quiet_say|intros _ _ _].
    apply writes_at_most_bind;
      [apply quiet_keeps_disk, quiet_show_questions|intros _ _ _].
    apply writes_at_most_bind;
      [apply quiet_keeps_disk;
       destruct (3 <? List.length questions); [apply quiet_say|apply quiet_sret]
      |intros _ _ _].
    apply writes_at_most_bind; [apply quiet_keeps_disk, quiet_say|intros _ _ _].
    apply writes_at_most_bind; [apply keeps_disk_embedder|intros embeddings s2 _].
    destruct (Nat.eqb (List.length embeddings) (List.length questions)) eqn:Hlen;
      cbn [negb]; [|apply Hquiet].
    apply Nat.eqb_eq in Hlen.
    apply writes_at_most_bind; [apply quiet_keeps_disk, quiet_say|intros _ _ _].
    apply writes_at_most_bind;
      [apply quiet_keeps_disk, quiet_slift|intros vectors s3 Hv].
    apply slift_Ok in Hv.
    destruct (validate_vectors vectors) as [valid message] eqn:Hvalid.
    apply writes_at_most_bind; [apply quiet_keeps_disk, quiet_say|intros _ _ _].
    destruct valid; cbn [negb]; [|apply Hquiet].
    apply validate_vectors_true in Hvalid. destruct Hvalid as [_ Hok].
    apply writes_at_most_bind; [apply quiet_keeps_disk, quiet_say|intros _ _ _].
    assert (Hlen' : List.length embeddings = List.length faq_data) by congruence.
    pose proof Hv as Hv'. unfold create_pinecone_vectors_enhanced in Hv'.
    destruct (created_for_every_entry _ _ _ _ Hlen' Hv') as (Hl & Hc & _).
    apply save_vectors_writes.
    - exists faq_data, embeddings. repeat split; try assumption. discriminate.
    - intros [|]; [|apply quiet_keeps_disk, quiet_sret].
      apply quiet_keeps_disk, after_save_quiet.
      apply quiet_sbind; [apply quiet_say|intros _; apply quiet_say]. }
  destruct (H s) as [Hs|(vectors & (faq_data & embeddings & HP) & Hs)].
  - left. exact Hs.
  - right. exists faq_data, embeddings, vectors. tauto.
Qed.

(** ** Runs of the embedding scripts *)

Lemma yields_bind {A B} (m : Script A) (k : A -> Script B) (s s1 : script_world)
    (a : A) (r : result B) (snt : list request) (dsk : list disk_event) :
  m s = (Ok a, s1) -> yields (k a) s1 r snt dsk -> yields (sbind m k) s r snt dsk.
Proof. unfold yields, sbind. intros ->. tauto. Qed.

Lemma yields_raise {A B} (m : Script A) (k : A -> Script B) (s s1 : script_world)
    (e : exn) :
  m s = (Raise e, s1) -> yields (sbind m k) s (Raise e) (sent s1) (disk s1).
Proof. unfold yields, sbind. intros ->. tauto. Qed.

Lemma yields_quiet {A} (m : Script A) (s : script_world) (a : A) :
  quiet m -> fst (m s) = Ok a -> yields m s (Ok a) (sent s) (disk s).
Proof. intros Hq Ha. destruct (Hq s) as [Hd Hs]. repeat split; assumption. Qed.

Lemma questions_of_entries (faq_data : list faq_json) :
  forallb has_question faq_data = true ->
  comprehension (fun entry => lookup "question" (faq_question entry)) faq_data
  = Ok (questions_of faq_data).
Proof.
  induction faq_data as [|entry rest IH]; cbn; [reflexivity|].
  unfold has_question at 1. destruct (faq_question entry); [|discriminate].
  intros H. rewrite (IH H). reflexivity.
Qed.

Lemma question_missing (faq_data : list faq_json) :
  forallb has_question faq_data = false ->
  comprehension (fun entry => lookup "question" (faq_question entry)) faq_data
  = Raise (KeyError "question").
Proof.
  induction faq_data as [|entry rest IH]; cbn; [discriminate|].
  unfold has_question at 1. destruct (faq_question entry); [|reflexivity].
  intros H. rewrite (IH H). reflexivity.
Qed.

Lemma complete_has_question (faq_data : list faq_json) :
  forallb faq_complete faq_data = true -> forallb has_question faq_data = true.
Proof.
  induction faq_data as [|entry rest IH]; cbn; [reflexivity|].
  intros H. apply andb_prop in H. destruct H as [He Hrest].
  rewrite (IH Hrest), andb_true_r.
  unfold faq_complete in He. unfold has_question.
  destruct (faq_section entry), (faq_question entry); try discriminate; reflexivity.
Qed.

(** [create_embeddings], called from either script. *)
Lemma embedder_create
    (embeddings_create : nat -> string -> list string -> result (list (list float)))
    (questions : list string) (model : string) (s : script_world) :
  (forall k batch e, embeddings_create k model batch = Raise e -> is_Exception e = true) ->
  let out := List.concat (batch_outputs embeddings_create model (List.length (sent s))
                            (batches questions)) in
  let snt := sent s ++ map (pair model) (batches questions) in
  (exists log,
     embedder (create_embeddings embeddings_create questions model) s
     = (Ok out, mkScript (console s ++ log) snt (disk s)))
  /\ (exists log,
     embedder (create_embeddings_enhanced embeddings_create questions model) s
     = (Ok out, mkScript (console s ++ log) snt (disk s))).
Proof.
  intros Hexn out snt. unfold embedder. split.
  - unfold create_embeddings. rewrite range_step_eq.
    rewrite (for_batches_spec questions _ 0 [] _
               (embed_batch_step embeddings_create model Hexn (List.length questions))).
    cbn [stdin stdout requests app]. rewrite <- batches_eq. eexists. reflexivity.
  - unfold create_embeddings_enhanced. unfold bind at 1. cbn [print].
    rewrite range_step_eq.
    rewrite (for_batches_spec questions _ 0 [] _
               (embed_batch_enhanced_step embeddings_create model Hexn
                  (List.length questions))).
    cbn [stdin stdout requests app]. rewrite <- batches_eq. eexists. reflexivity.
Qed.

Lemma show_sample_expected (enhanced : bool) (id_prefix : string)
    (model : option string) (pairs : list (faq_json * list float)) (s : script_world) :
  fst (show_sample enhanced (expected_vectors id_prefix model 0 pairs) s) = Ok tt.
Proof.
  destruct pairs as [|[entry embedding] rest]; [reflexivity|].
  destruct enhanced; reflexivity.
Qed.

Lemma after_save_Ok (enhanced : bool) (summary : script_event) (id_prefix : string)
    (model : option string) (pairs : list (faq_json * list float))
    (closing : Script unit) (s : script_world) :
  quiet closing ->
  (forall s0, fst (closing s0) = Ok tt) ->
  yields (sbind (say summary)
            (fun _ => sbind (show_sample enhanced
                               (expected_vectors id_prefix model 0 pairs))
                        (fun _ => closing)))
    s (Ok tt) (sent s) (disk s).
Proof.
  intros Hq Hc. apply yields_quiet; [apply after_save_quiet; exact Hq|].
  unfold sbind at 1. cbn [say]. unfold sbind.
  match goal with
  | |- context [show_sample ?b ?vs ?s1] =>
      pose proof (show_sample_expected b id_prefix model pairs s1) as Hs;
      destruct (show_sample b vs s1) as [[u|e] s2]
  end; [apply Hc|discriminate].
Qed.

Lemma yields_bind_quiet {A B} (m : Script A) (k : A -> Script B) (s : script_world)
    (a : A) (r : result B) (snt : list request) (dsk : list disk_event) :
  quiet m ->
  (forall s0, fst (m s0) = Ok a) ->
  (forall s1, sent s1 = sent s -> disk s1 = disk s -> yields (k a) s1 r snt dsk) ->
  yields (sbind m k) s r snt dsk.
Proof.
  intros Hq Ha Hk. destruct (Hq s) as [Hd Hs]. specialize (Ha s).
  unfold yields, sbind. destruct (m s) as [[a'|e] s1]; cbn in *; [|discriminate].
  injection Ha as ->. apply Hk; assumption.
Qed.

Lemma show_questions_Ok (i : nat) (questions : list string) (s : script_world) :
  fst (show_questions i questions s) = Ok tt.
Proof.
  revert i s. induction questions as [|q rest IH]; intros i s; cbn; [reflexivity|].
  unfold sbind, say. apply IH.
Qed.

Lemma embeddings_of_length
    (embeddings_create : nat -> string -> list string -> result (list (list float)))
    (c : nat) (faq_data : list faq_json) :
  (forall k batch data,
     embeddings_create k "text-embedding-3-small"%string batch = Ok data ->
     List.length data = List.length batch) ->
  List.length (embeddings_of embeddings_create c faq_data) = List.length faq_data.
Proof.
  intros Hlen. unfold embeddings_of.
  rewrite (@length_batch_outputs embeddings_create _ c _ Hlen), batches_concat.
  apply length_map.
Qed.

Lemma expected_vectors_validate (id_prefix : string) (model : option string)
    (faq_data : list faq_json) (embeddings : list (list float)) :
  faq_data <> [] ->
  List.length embeddings = List.length faq_data ->
  fst (validate_vectors (expected_vectors id_prefix model 0 (combine faq_data embeddings)))
  = forallb (fun v => Nat.eqb (List.length v) 1536) embeddings.
Proof.
  intros Hne Hlen.
  set (vectors := expected_vectors id_prefix model 0 (combine faq_data embeddings)).
  assert (Hok : forallb vector_ok vectors
                = forallb (fun v => Nat.eqb (List.length v) 1536) embeddings).
  { unfold vectors. rewrite expected_vectors_ok.
    rewrite (forallb_snd_combine (fun v => Nat.eqb (List.length v) 1536)).
    rewrite <- Hlen, firstn_all. reflexivity. }
  assert (Hcount : List.length vectors = List.length faq_data).
  { unfold vectors. rewrite expected_vectors_length, length_combine, Hlen.
    apply Nat.min_id. }
  rewrite <- Hok. unfold validate_vectors.
  destruct vectors as [|v vs] eqn:Hvs.
  - destruct faq_data; [contradiction|discriminate].
  - destruct (validate_from 0 (v :: vs)) as [m|] eqn:Hfrom; cbn [fst].
    + destruct (forallb vector_ok (v :: vs)) eqn:Hall; [|reflexivity].
      apply (validate_from_None 0) in Hall. congruence.
    + apply (validate_from_None 0) in Hfrom. symmetry. exact Hfrom.
Qed.

(** X24.  A run of the embedding scripts.  With a key set, a FAQ file that
    holds entries which all have their four keys, a provider that fails
    with ordinary exceptions and answers an accepted batch with one vector
    per text, and a disk that accepts the write, [main] of
    [embed_aven_faq.py] returns after sending the questions in batches and
    writing to [aven_faq_vectors.json] one vector per entry, in order, each
    holding what [create_embeddings] returned for its question.  [main] of
    [embed_aven_faq_enhanced.py] does the same (and records the model) when
    all these embeddings have 1536 numbers; when one of them has not, it
    returns after sending the same requests and writes nothing. *)
Theorem embedding_run_writes_expected_vectors
    (path_exists : string -> bool)
    (read_faq_json : string -> result (list faq_json))
    (parse_faq_from_text : string -> list faq_json * list script_event)
    (write_vectors_json : string -> list vector_json -> result unit)
    (embeddings_create : nat -> string -> list string -> result (list (list float)))
    (c : ascii) (key : string) (faq_data : list faq_json) (s : script_world) :
  path_exists "aven_support_faq_correct.json"%string = true ->
  read_faq_json "aven_support_faq_correct.json"%string = Ok faq_data ->
  faq_data <> [] ->
  forallb faq_complete faq_data = true ->
  (forall k batch e,
     embeddings_create k "text-embedding-3-small"%string batch = Raise e ->
     is_Exception e = true) ->
  (forall k batch data,
     embeddings_create k "text-embedding-3-small"%string batch = Ok data ->
     List.length data = List.length batch) ->
  (forall vectors, write_vectors_json "aven_faq_vectors.json"%string vectors = Ok tt) ->
  let embeddings := embeddings_of embeddings_create (List.length (sent s)) faq_data in
  let requests :=
    sent s ++ map (pair "text-embedding-3-small"%string) (batches (questions_of faq_data)) in
  let written (model : option string) :=
    disk s ++ [Wrote "aven_faq_vectors.json"
                 (expected_vectors "aven_faq" model 0 (combine faq_data embeddings))] in
  yields (main_embed read_faq_json write_vectors_json embeddings_create
            (Some (String c key)))
    s (Ok tt) requests (written None)
  /\ (forallb (fun v => Nat.eqb (List.length v) 1536) embeddings = true ->
      yields (main_embed_enhanced path_exists read_faq_json parse_faq_from_text
                write_vectors_json embeddings_create (Some (String c key)))
        s (Ok tt) requests (written (Some "text-embedding-3-small"%string)))
  /\ (forallb (fun v => Nat.eqb (List.length v) 1536) embeddings = false ->
      yields (main_embed_enhanced path_exists read_faq_json parse_faq_from_text
                write_vectors_json embeddings_create (Some (String c key)))
        s (Ok tt) requests (disk s)).
Proof.
  intros Hexists Hread Hne Hcomplete Hexn Hlen Hwrite embeddings requests written.
  pose proof (questions_of_entries _ (complete_has_question _ Hcomplete)) as Hq.
  pose proof (embeddings_of_length embeddings_create (List.length (sent s)) faq_data Hlen)
    as Hcount.
  fold embeddings in Hcount.
  assert (Hpairs : forallb (fun pair : faq_json * list float => faq_complete (fst pair))
                     (combine faq_data embeddings) = true).
  { rewrite forallb_fst_combine, Hcount, firstn_all. assumption. }
  assert (Hsame : Nat.eqb (List.length embeddings) (List.length (questions_of faq_data))
                  = true).
  { apply Nat.eqb_eq. unfold questions_of. rewrite length_map. exact Hcount. }
  assert (Hmatch : forall (x y : Script unit),
            match faq_data with [] => x | _ :: _ => y end = y).
  { intros x y. destruct faq_data; [contradiction|reflexivity]. }
  split.
  - unfold main_embed.
    eapply yields_bind; [reflexivity|].
    eapply yields_bind; [unfold load_faq_data; rewrite Hread; reflexivity|].
    rewrite Hmatch.
    eapply yields_bind; [unfold slift; rewrite Hq; reflexivity|].
    eapply yields_bind; [reflexivity|].
    eapply yields_bind; [reflexivity|].
    match goal with
    | |- yields (sbind (embedder _) _) ?s0 _ _ _ =>
        destruct (@embedder_create embeddings_create (questions_of faq_data)
                    "text-embedding-3-small" s0 Hexn) as [[log Hlog] _]
    end.
    eapply yields_bind; [exact Hlog|]. cbn [sent disk].
    fold (embeddings_of embeddings_create (List.length (sent s)) faq_data).
    fold embeddings. rewrite Hsame. cbn [negb].
    eapply yields_bind; [reflexivity|].
    eapply yields_bind;
      [unfold slift, create_pinecone_vectors;
       rewrite (for_entries_complete _ _ _ _ _ Hpairs); reflexivity|].
    cbn [app].
    eapply yields_bind; [reflexivity|].
    eapply yields_bind; [unfold save_vectors; rewrite Hwrite; reflexivity|].
    cbv beta iota.
    match goal with
    | |- yields _ ?s0 _ _ _ =>
        pose proof (@after_save_Ok false
                      (Summary (List.length faq_data)
                         (List.length (questions_of faq_data))
                         (List.length (expected_vectors "aven_faq" None 0
                                         (combine faq_data embeddings)))
                         (first_dimensions embeddings))
                      "aven_faq" None (combine faq_data embeddings)
                      (say (ReadyToUpload "aven_faq_vectors.json")) s0
                      (quiet_say _) (fun _ => eq_refl)) as Hafter
    end.
    exact Hafter.
  - assert (Hrun :
      yields (main_embed_enhanced path_exists read_faq_json parse_faq_from_text
                write_vectors_json embeddings_create (Some (String c key)))
        s (Ok tt) requests
        (if forallb (fun v => Nat.eqb (List.length v) 1536) embeddings
         then written (Some "text-embedding-3-small"%string)
         else disk s)).
    { unfold main_embed_enhanced.
      eapply yields_bind.
      { cbn [try_faq_files]. rewrite Hexists. unfold sbind at 1. cbn [say].
        unfold load_faq_data_enhanced.
        change (endswith "aven_support_faq_correct.json" ".json") with true.
        cbv iota. unfold sbind at 1, load_faq_data. rewrite Hread.
        unfold sbind at 1. cbn [say sret].
        destruct faq_data as [|entry rest]; [contradiction|]. reflexivity. }
      rewrite Hmatch.
      eapply yields_bind; [unfold slift; rewrite Hq; reflexivity|].
      eapply yields_bind; [reflexivity|].
      eapply yields_bind; [reflexivity|].
      apply yields_bind_quiet with (a := tt);
        [apply quiet_show_questions|intros s0; apply show_questions_Ok|].
      cbn [sent disk]. intros s1 Hs1 Hd1.
      apply yields_bind_quiet with (a := tt);
        [destruct (3 <? List.length (questions_of faq_data));
           [apply quiet_say|apply quiet_sret]
        |intros s0; destruct (3 <? List.length (questions_of faq_data)); reflexivity|].
      intros s2 Hs2 Hd2.
      eapply yields_bind; [reflexivity|].
      match goal with
      | |- yields (sbind (embedder _) _) ?s0 _ _ _ =>
          destruct (@embedder_create embeddings_create (questions_of faq_data)
                      "text-embedding-3-small" s0 Hexn) as [_ [log Hlog]]
      end.
      eapply yields_bind; [exact Hlog|]. cbn [sent disk]. rewrite Hs2, Hs1, Hd2, Hd1.
      fold (embeddings_of embeddings_create (List.length (sent s)) faq_data).
      fold embeddings. rewrite Hsame. cbn [negb].
      eapply yields_bind; [reflexivity|].
      eapply yields_bind;
        [unfold slift, create_pinecone_vectors_enhanced;
         rewrite (for_entries_complete _ _ _ _ _ Hpairs); reflexivity|].
      cbn [app].
      pose proof (expected_vectors_validate "aven_faq"
                    (Some "text-embedding-3-small"%string) embeddings Hne Hcount)
        as Hvalid.
      destruct (validate_vectors
                  (expected_vectors "aven_faq" (Some "text-embedding-3-small"%string) 0
                     (combine faq_data embeddings))) as [valid message].
      cbn [fst] in Hvalid. rewrite <- Hvalid.
      eapply yields_bind; [reflexivity|].
      destruct valid; cbn [negb].
      - eapply yields_bind; [reflexivity|].
        eapply yields_bind; [unfold save_vectors; rewrite Hwrite; reflexivity|].
        cbv beta iota.
        match goal with
        | |- yields _ ?s0 _ _ _ =>
            pose proof (@after_save_Ok true
                          (Summary (List.length faq_data)
                             (List.length (questions_of faq_data))
                             (List.length
                                (expected_vectors "aven_faq"
                                   (Some "text-embedding-3-small"%string) 0
                                   (combine faq_data embeddings)))
                             (first_dimensions embeddings))
                          "aven_faq" (Some "text-embedding-3-small"%string)
                          (combine faq_data embeddings)
                          (sbind (say (ReadyToUpload "aven_faq_vectors.json"))
                             (fun _ => say UpsertHint)) s0
                          (@quiet_sbind _ _ _ _ (quiet_say _) (fun _ => quiet_say _))
                          (fun _ => eq_refl)) as Hafter
        end.
        exact Hafter.
      - repeat split. }
    split; intros Hdims; rewrite Hdims in Hrun; exact Hrun.
Qed.

Lemma embedding_run_writes_expected_vectors_witness :
  yields (main_embed faq_file accepting_disk constant_provider (Some "sk"%string))
    fresh_script (Ok tt)
    [("text-embedding-3-small"%string, ["How do refunds work?"; "What is my limit?"]%string)]
    [Wrote "aven_faq_vectors.json"
       [expected_vector "aven_faq" None 0 faq_refunds [1; 0]%float;
        expected_vector "aven_faq" None 1 faq_limits [1; 0]%float]]
  /\ yields (main_embed_enhanced every_path faq_file empty_parser accepting_disk
               constant_provider (Some "sk"%string))
       fresh_script (Ok tt)
       [("text-embedding-3-small"%string,
         ["How do refunds work?"; "What is my limit?"]%string)]
       [].
Proof.
  assert (Hne : [faq_refunds; faq_limits] <> []) by discriminate.
  assert (Hexn : forall k batch e,
            constant_provider k "text-embedding-3-small" batch = Raise e ->
            is_Exception e = true) by discriminate.
  assert (Hlen : forall k batch data,
            constant_provider k "text-embedding-3-small" batch = Ok data ->
            List.length data = List.length batch).
  { intros k batch data H. injection H as <-. apply length_map. }
  pose proof (@embedding_run_writes_expected_vectors every_path faq_file empty_parser
                accepting_disk constant_provider "s"%char "k"%string
                [faq_refunds; faq_limits] fresh_script
                eq_refl eq_refl Hne eq_refl Hexn Hlen (fun _ => eq_refl))
    as (Hbasic & _ & Henhanced).
  split; [exact Hbasic|exact (Henhanced eq_refl)].
Defined.

(** ** Entries that lack a key *)

Lemma for_entries_missing_key (pairs : list (faq_json * list float)) :
  forallb (fun pair => has_question (fst pair)) pairs = true ->
  forallb (fun pair => faq_complete (fst pair)) pairs = false ->
  exists key,
    In key ["section"; "answer"; "source_url"]%string
    /\ forall id_prefix model i acc,
         for_entries id_prefix model i pairs acc = Raise (KeyError key).
Proof.
  induction pairs as [|[entry embedding] rest IH]; cbn; [discriminate|].
  intros Hq Hc. apply andb_prop in Hq. destruct Hq as [Hqe Hqrest].
  destruct (faq_complete entry) eqn:He.
  - destruct (IH Hqrest Hc) as (key & Hkey & Hraise).
    exists key. split; [exact Hkey|]. intros id_prefix model i acc.
    rewrite (pinecone_vector_complete _ _ _ _ _ He). cbn. apply Hraise.
  - clear IH Hc. unfold has_question in Hqe. unfold faq_complete in He.
    unfold pinecone_vector.
    destruct (faq_question entry); [|discriminate].
    destruct (faq_section entry);
      [|exists "section"%string; split; [cbn; intuition|reflexivity]].
    destruct (faq_answer entry);
      [|exists "answer"%string; split; [cbn; intuition|reflexivity]].
    destruct (faq_source_url entry);
      [discriminate|exists "source_url"%string; split; [cbn; intuition|reflexivity]].
Qed.

(** X25.  The scripts look for the keys of the entries at two moments.  With
    a key set and a FAQ file whose entries do not all have their four keys:
    when an entry lacks [question], [main] of either script raises
    [KeyError] on [question] before any request is sent; when every entry
    has [question], [main] raises [KeyError] on [section], [answer] or
    [source_url] only after all the batches were sent to the provider (for
    a provider that fails with ordinary exceptions and answers an accepted
    batch with one vector per text).  In both cases nothing is written. *)
Theorem incomplete_entry_stops_the_scripts
    (path_exists : string -> bool)
    (read_faq_json : string -> result (list faq_json))
    (parse_faq_from_text : string -> list faq_json * list script_event)
    (write_vectors_json : string -> list vector_json -> result unit)
    (embeddings_create : nat -> string -> list string -> result (list (list float)))
    (c : ascii) (key : string) (faq_data : list faq_json) (s : script_world) :
  path_exists "aven_support_faq_correct.json"%string = true ->
  read_faq_json "aven_support_faq_correct.json"%string = Ok faq_data ->
  forallb faq_complete faq_data = false ->
  let basic :=
    main_embed read_faq_json write_vectors_json embeddings_create (Some (String c key)) in
  let enhanced :=
    main_embed_enhanced path_exists read_faq_json parse_faq_from_text
      write_vectors_json embeddings_create (Some (String c key)) in
  let requests :=
    sent s ++ map (pair "text-embedding-3-small"%string) (batches (questions_of faq_data)) in
  (forallb has_question faq_data = false ->
   yields basic s (Raise (KeyError "question")) (sent s) (disk s)
   /\ yields enhanced s (Raise (KeyError "question")) (sent s) (disk s))
  /\ (forallb has_question faq_data = true ->
      (forall k batch e,
         embeddings_create k "text-embedding-3-small"%string batch = Raise e ->
         is_Exception e = true) ->
      (forall k batch data,
         embeddings_create k "text-embedding-3-small"%string batch = Ok data ->
         List.length data = List.length batch) ->
      exists missing,
        In missing ["section"; "answer"; "source_url"]%string
        /\ yields basic s (Raise (KeyError missing)) requests (disk s)
        /\ yields enhanced s (Raise (KeyError missing)) requests (disk s)).
Proof.
  intros Hexists Hread Hincomplete basic enhanced requests.
  assert (Hne : faq_data <> []).
  { intros ->. discriminate. }
  assert (Hmatch : forall (x y : Script unit),
            match faq_data with [] => x | _ :: _ => y end = y).
  { intros x y. destruct faq_data; [contradiction|reflexivity]. }
  assert (Hfiles :
    try_faq_files path_exists read_faq_json parse_faq_from_text
      ["aven_support_faq_correct.json"; "aven_support_faq_correct.txt"]%string [] s
    = (Ok faq_data,
       mkScript
         (console s ++ [LoadingFaqDataFrom "aven_support_faq_correct.json";
                        LoadedFaqEntries (List.length faq_data)
                          "aven_support_faq_correct.json"])
         (sent s) (disk s))).
  { cbn [try_faq_files]. rewrite Hexists. unfold sbind at 1. cbn [say].
    unfold load_faq_data_enhanced.
    change (endswith "aven_support_faq_correct.json" ".json") with true.
    cbv iota. unfold sbind at 1, load_faq_data. rewrite Hread.
    unfold sbind at 1. cbn [say sret console sent disk]. rewrite <- app_assoc.
    destruct faq_data as [|entry rest]; [contradiction|]. reflexivity. }
  split.
  - intros Hq. apply question_missing in Hq. split.
    + unfold basic, main_embed.
      eapply yields_bind; [reflexivity|].
      eapply yields_bind; [unfold load_faq_data; rewrite Hread; reflexivity|].
      rewrite Hmatch.
      match goal with
      | |- yields (sbind (slift _) ?k) ?s0 _ _ _ =>
          apply (@yields_raise _ _ (slift (comprehension
                   (fun entry => lookup "question" (faq_question entry)) faq_data))
                   k s0 s0 (KeyError "question"))
      end.
      unfold slift. rewrite Hq. reflexivity.
    + unfold enhanced, main_embed_enhanced.
      eapply yields_bind; [exact Hfiles|].
      rewrite Hmatch.
      match goal with
      | |- yields (sbind (slift _) ?k) ?s0 _ _ _ =>
          apply (@yields_raise _ _ (slift (comprehension
                   (fun entry => lookup "question" (faq_question entry)) faq_data))
                   k s0 s0 (KeyError "question"))
      end.
      unfold slift. rewrite Hq. reflexivity.
  - intros Hq Hexn Hlen.
    pose proof (embeddings_of_length embeddings_create (List.length (sent s)) faq_data
                  Hlen) as Hcount.
    set (embeddings := embeddings_of embeddings_create (List.length (sent s)) faq_data)
      in *.
    assert (Hsame : Nat.eqb (List.length embeddings)
                      (List.length (questions_of faq_data)) = true).
    { apply Nat.eqb_eq. unfold questions_of. rewrite length_map. exact Hcount. }
    destruct (@for_entries_missing_key (combine faq_data embeddings))
      as (missing & Hin & Hraise).
    { rewrite (forallb_fst_combine has_question), Hcount, firstn_all. exact Hq. }
    { rewrite (forallb_fst_combine faq_complete), Hcount, firstn_all.
      exact Hincomplete. }
    pose proof (questions_of_entries _ Hq) as Hqs.
    exists missing. split; [exact Hin|]. split.
    + unfold basic, main_embed.
      eapply yields_bind; [reflexivity|].
      eapply yields_bind; [unfold load_faq_data; rewrite Hread; reflexivity|].
      rewrite Hmatch.
      eapply yields_bind; [unfold slift; rewrite Hqs; reflexivity|].
      eapply yields_bind; [reflexivity|].
      eapply yields_bind; [reflexivity|].
      match goal with
      | |- yields (sbind (embedder _) _) ?s0 _ _ _ =>
          destruct (@embedder_create embeddings_create (questions_of faq_data)
                      "text-embedding-3-small" s0 Hexn) as [[log Hlog] _]
      end.
      eapply yields_bind; [exact Hlog|]. cbn [sent disk].
      fold (embeddings_of embeddings_create (List.length (sent s)) faq_data).
      fold embeddings. rewrite Hsame. cbn [negb].
      eapply yields_bind; [reflexivity|].
      match goal with
      | |- yields (sbind ?m ?k) ?s0 _ _ _ =>
          apply (@yields_raise _ _ m k s0 s0 (KeyError missing))
      end.
      unfold slift, create_pinecone_vectors. rewrite Hraise. reflexivity.
    + unfold enhanced, main_embed_enhanced.
      eapply yields_bind; [exact Hfiles|].
      rewrite Hmatch.
      eapply yields_bind; [unfold slift; rewrite Hqs; reflexivity|].
      eapply yields_bind; [reflexivity|].
      eapply yields_bind; [reflexivity|].
      apply yields_bind_quiet with (a := tt);
        [apply quiet_show_questions|intros s0; apply show_questions_Ok|].
      cbn [sent disk]. intros s1 Hs1 Hd1.
      apply yields_bind_quiet with (a := tt);
        [destruct (3 <? List.length (questions_of faq_data));
           [apply quiet_say|apply quiet_sret]
        |intros s0; destruct (3 <? List.length (questions_of faq_data)); reflexivity|].
      intros s2 Hs2 Hd2.
      eapply yields_bind; [reflexivity|].
      match goal with
      | |- yields (sbind (embedder _) _) ?s0 _ _ _ =>
          destruct (@embedder_create embeddings_create (questions_of faq_data)
                      "text-embedding-3-small" s0 Hexn) as [_ [log Hlog]]
      end.
      eapply yields_bind; [exact Hlog|]. cbn [sent disk]. rewrite Hs2, Hs1, Hd2, Hd1.
      fold (embeddings_of embeddings_create (List.length (sent s)) faq_data).
      fold embeddings. rewrite Hsame. cbn [negb].
      eapply yields_bind; [reflexivity|].
      match goal with
      | |- yields (sbind ?m ?k) ?s0 _ _ _ =>
          pose proof (@yields_raise _ _ m k s0 s0 (KeyError missing)) as Hstop
      end.
      cbn [sent disk] in Hstop. apply Hstop.
      unfold slift, create_pinecone_vectors_enhanced. rewrite Hraise. reflexivity.
Qed.

Lemma incomplete_entry_stops_the_scripts_witness :
  exists missing,
    In missing ["section"; "answer"; "source_url"]%string
    /\ yields (main_embed holed_faq_file accepting_disk constant_provider
                 (Some "sk"%string))
         fresh_script (Raise (KeyError missing))
         [("text-embedding-3-small"%string,
           ["How do refunds work?"; "Is there a fee?"]%string)]
         []
    /\ yields (main_embed_enhanced every_path holed_faq_file empty_parser accepting_disk
                 constant_provider (Some "sk"%string))
         fresh_script (Raise (KeyError missing))
         [("text-embedding-3-small"%string,
           ["How do refunds work?"; "Is there a fee?"]%string)]
         [].
Proof.
  assert (Hexn : forall k batch e,
            constant_provider k "text-embedding-3-small" batch = Raise e ->
            is_Exception e = true) by discriminate.
  assert (Hlen : forall k batch data,
            constant_provider k "text-embedding-3-small" batch = Ok data ->
            List.length data = List.length batch).
  { intros k batch data H. injection H as <-. apply length_map. }
  pose proof (@incomplete_entry_stops_the_scripts every_path holed_faq_file empty_parser
                accepting_disk constant_provider "s"%char "k"%string
                [faq_refunds; faq_unanswered] fresh_script
                eq_refl eq_refl eq_refl)
    as (_ & H).
  exact (H eq_refl Hexn Hlen).
Defined.

(** ** The candidate files of the enhanced script *)

Lemma load_text_file (path_exists : string -> bool)
    (read_faq_json : string -> result (list faq_json))
    (parse_faq_from_text : string -> list faq_json * list script_event)
    (faq_data : list faq_json) (s : script_world) :
  faq_data = [] ->
  fst (try_faq_files path_exists read_faq_json parse_faq_from_text
         ["aven_support_faq_correct.txt"]%string faq_data s)
  = Ok (if path_exists "aven_support_faq_correct.txt"%string
        then fst (parse_faq_from_text "aven_support_faq_correct.txt"%string)
        else []).
Proof.
  intros ->. cbn [try_faq_files].
  destruct (path_exists "aven_support_faq_correct.txt"%string); [|reflexivity].
  unfold sbind at 1. cbn [say]. unfold load_faq_data_enhanced.
  change (endswith "aven_support_faq_correct.txt" ".json") with false.
  change (endswith "aven_support_faq_correct.txt" ".txt") with true.
  cbv iota.
  destruct (parse_faq_from_text "aven_support_faq_correct.txt"%string)
    as [parsed printed].
  unfold sbind.
  match goal with
  | |- context [say_all printed ?s1] =>
      destruct (say_all_result printed s1) as [s2 ->]
  end.
  cbn [sret fst]. destruct parsed; reflexivity.
Qed.

(** X26.  Which file the enhanced script embeds.  [main] of
    [embed_aven_faq_enhanced.py] takes the entries of
    [aven_support_faq_correct.json] whenever that file exists and holds a
    list that is not empty, whatever the text file holds.  It falls back on
    what [parse_faq_from_text] finds in [aven_support_faq_correct.txt] (or
    on no entry when that file does not exist) when the JSON file does not
    exist, holds an empty list, or fails with [FileNotFoundError] or
    [JSONDecodeError].  Any other error of the JSON file is raised and the
    text file is not tried. *)
Theorem json_file_takes_precedence
    (path_exists : string -> bool)
    (read_faq_json : string -> result (list faq_json))
    (parse_faq_from_text : string -> list faq_json * list script_event)
    (s : script_world) :
  let json := "aven_support_faq_correct.json"%string in
  let txt := "aven_support_faq_correct.txt"%string in
  let found :=
    fst (try_faq_files path_exists read_faq_json parse_faq_from_text [json; txt] [] s) in
  let from_text := if path_exists txt then fst (parse_faq_from_text txt) else [] in
  (forall data,
     path_exists json = true -> read_faq_json json = Ok data -> data <> [] ->
     found = Ok data)
  /\ (path_exists json = false
      \/ (path_exists json = true
          /\ (read_faq_json json = Ok []
              \/ read_faq_json json = Raise FileNotFoundError
              \/ read_faq_json json = Raise JSONDecodeError)) ->
      found = Ok from_text)
  /\ (forall e,
        path_exists json = true -> read_faq_json json = Raise e ->
        e <> FileNotFoundError -> e <> JSONDecodeError ->
        found = Raise e).
Proof.
  cbv zeta. cbn [try_faq_files].
  pose proof (fun data s0 => @load_text_file path_exists read_faq_json
                               parse_faq_from_text data s0) as Htxt.
  cbn [try_faq_files] in Htxt.
  split; [|split].
  - intros data Hexists Hread Hne. rewrite Hexists.
    unfold sbind at 1. cbn [say]. unfold load_faq_data_enhanced.
    change (endswith "aven_support_faq_correct.json" ".json") with true.
    cbv iota. unfold sbind at 1, load_faq_data. rewrite Hread.
    unfold sbind at 1. cbn [say sret].
    destruct data as [|entry rest]; [contradiction|reflexivity].
  - intros [Hmissing|[Hexists Hread]].
    + rewrite Hmissing. apply Htxt. reflexivity.
    + rewrite Hexists.
      unfold sbind at 1. cbn [say]. unfold load_faq_data_enhanced.
      change (endswith "aven_support_faq_correct.json" ".json") with true.
      cbv iota. unfold sbind at 1, load_faq_data.
      destruct Hread as [->|[->| ->]]; unfold sbind at 1; cbn [say sret];
        apply Htxt; reflexivity.
  - intros e Hexists Hread Hnf Hnj. rewrite Hexists.
    unfold sbind at 1. cbn [say]. unfold load_faq_data_enhanced.
    change (endswith "aven_support_faq_correct.json" ".json") with true.
    cbv iota. unfold sbind at 1, load_faq_data. rewrite Hread.
    destruct e; try contradiction; reflexivity.
Qed.

Lemma json_file_takes_precedence_witness :
  fst (try_faq_files every_path faq_file empty_parser
         ["aven_support_faq_correct.json"; "aven_support_faq_correct.txt"]%string []
         fresh_script)
  = Ok [faq_refunds; faq_limits].
Proof.
  pose proof (@json_file_takes_precedence every_path faq_file empty_parser fresh_script)
    as (H & _).
  apply (H [faq_refunds; faq_limits] eq_refl eq_refl). discriminate.
Defined.
